(** * Identity and credential issuance of irl-browser-onboarding

    A shallow embedding of [src/core/crypto.ts] (DID derivation, JWT signing
    and verification, the base64url codec) and of the credential payloads
    built in [src/core/api.ts], with the properties the specification
    states about them.

    Conventions of the embedding:
    - a JavaScript string is the list of its UTF-16 code units ([jsstring]);
    - a [Uint8Array] is a [list byte];
    - a JavaScript number that is an integer below 2^53 is a [Z]; the 32-bit
      bit operations of the sources never leave the range [0, 2^24), so they
      are [Z.shiftl], [Z.shiftr], [Z.land], [Z.lor] without wrap-around;
    - a call that may throw returns a [completion]: [Return v] or [Throw e];
      [try ... catch] is [try_catch]. *)

From Stdlib Require Import ZArith NArith Bool Lia.
From Stdlib.Strings Require Import Ascii String Byte.
From Stdlib Require Import DecimalString.
From Stdlib Require Import List.
Import ListNotations.
Local Open Scope Z_scope.

(** ** Completions: normal return or thrown exception *)

Inductive exn : Type :=
| Error (msg : string)
| RangeError (msg : string).
Arguments Error msg%_string.
Arguments RangeError msg%_string.

Inductive completion (A : Type) : Type :=
| Return (a : A)
| Throw (e : exn).
Arguments Return {A} a.
Arguments Throw {A} e.

Definition bind {A B} (c : completion A) (k : A -> completion B) : completion B :=
  match c with
  | Return a => k a
  | Throw e => Throw e
  end.

Notation "x <- c ;; k" := (bind c (fun x => k))
  (at level 61, c at next level, right associativity).

(** [try { body } catch (error) { handler }] *)
Definition try_catch {A} (body : completion A) (handler : exn -> completion A)
  : completion A :=
  match body with
  | Return a => Return a
  | Throw e => handler e
  end.

(** ** JavaScript strings and typed arrays *)

Definition codeunit := N.
Definition jsstring := list codeunit.

Definition cu (a : ascii) : codeunit := N_of_ascii a.
Definition js (s : string) : jsstring := map N_of_ascii (list_ascii_of_string s).
Arguments cu a%_char.
Arguments js s%_string.

(** [s.replace(/c/g, d)] for a one-character pattern and replacement. *)
Definition replace_all (c d : codeunit) (s : jsstring) : jsstring :=
  map (fun x => if N.eqb x c then d else x) s.

(** [s.replace(/c/g, '')] *)
Definition remove_all (c : codeunit) (s : jsstring) : jsstring :=
  filter (fun x => negb (N.eqb x c)) s.

(** [s.indexOf(c)] for a one-character [c]; [-1] when absent. *)
Fixpoint indexOf (c : codeunit) (s : jsstring) : Z :=
  match s with
  | [] => -1
  | x :: r => if N.eqb x c then 0
              else let k := indexOf c r in if k <? 0 then -1 else k + 1
  end.

(** [s.split(c)] for a one-character separator. *)
Fixpoint split (c : codeunit) (s : jsstring) : list jsstring :=
  match s with
  | [] => [[]]
  | x :: r =>
      if N.eqb x c then [] :: split c r
      else match split c r with
           | seg :: segs => (x :: seg) :: segs
           | [] => [[x]]
           end
  end.

(** Reading element [i] of a [Uint8Array] gives a number in [0, 255];
    storing a number keeps its low eight bits. *)
Definition u8 (b : byte) : Z := Z.of_N (Byte.to_N b).

Definition toUint8 (z : Z) : byte :=
  match Byte.of_N (Z.to_N (z mod 256)) with
  | Some b => b
  | None => x00
  end.

(** [new Uint8Array(n)]: zero-filled, [RangeError] on a negative length. *)
Definition newUint8Array (n : Z) : completion (list byte) :=
  if n <? 0 then Throw (RangeError "Invalid typed array length")
  else Return (repeat x00 (Z.to_nat n)).

(** [target.set(source, offset)]: copies [source] into [target] at [offset],
    [RangeError] when it does not fit. *)
Definition Uint8Array_set (target source : list byte) (offset : nat)
  : completion (list byte) :=
  if (length target <? offset + length source)%nat
  then Throw (RangeError "offset is out of bounds")
  else Return (firstn offset target ++ source
               ++ skipn (offset + length source) target).

(** [new TextEncoder().encode(s)]: the UTF-8 bytes of [s]; a surrogate pair
    is one four-byte sequence, a lone surrogate becomes U+FFFD. *)
Definition utf8_of_codepoint (c : Z) : list byte :=
  if c <? 128 then [toUint8 c]
  else if c <? 2048 then
    [toUint8 (Z.lor 192 (Z.shiftr c 6)); toUint8 (Z.lor 128 (Z.land c 63))]
  else if c <? 65536 then
    [toUint8 (Z.lor 224 (Z.shiftr c 12));
     toUint8 (Z.lor 128 (Z.land (Z.shiftr c 6) 63));
     toUint8 (Z.lor 128 (Z.land c 63))]
  else
    [toUint8 (Z.lor 240 (Z.shiftr c 18));
     toUint8 (Z.lor 128 (Z.land (Z.shiftr c 12) 63));
     toUint8 (Z.lor 128 (Z.land (Z.shiftr c 6) 63));
     toUint8 (Z.lor 128 (Z.land c 63))].

Definition is_high_surrogate (c : Z) : bool := (55296 <=? c) && (c <? 56320).
Definition is_low_surrogate (c : Z) : bool := (56320 <=? c) && (c <? 57344).

Fixpoint TextEncoder_encode (s : jsstring) : list byte :=
  match s with
  | [] => []
  | x :: r =>
      let c := Z.of_N x in
      if is_high_surrogate c then
        match r with
        | y :: r' =>
            let d := Z.of_N y in
            if is_low_surrogate d then
              utf8_of_codepoint (65536 + (c - 55296) * 1024 + (d - 56320))
                ++ TextEncoder_encode r'
            else utf8_of_codepoint 65533 ++ TextEncoder_encode r
        | [] => utf8_of_codepoint 65533
        end
      else if is_low_surrogate c then
        utf8_of_codepoint 65533 ++ TextEncoder_encode r
      else utf8_of_codepoint c ++ TextEncoder_encode r
  end.

(** ** The base64-js dependency ([import * as base64 from 'base64-js'])

    [fromByteArray] and [toByteArray] of base64-js 1.5.1 ([index.js]),
    function by function.  The library looks characters up in [revLookup] without
    validating them: an unknown character gives [undefined], which the bit
    operations read as 0. *)
Module base64.

Definition code : jsstring :=
  js "ABCDEFGHIJKLMNOPQRSTUVWXYZabcdefghijklmnopqrstuvwxyz0123456789+/".

(** [lookup[i]]; an index outside the table would concatenate as the text
    "undefined". *)
Definition lookup (i : Z) : jsstring :=
  if i <? 0 then js "undefined"
  else match nth_error code (Z.to_nat i) with
       | Some c => [c]
       | None => js "undefined"
       end.

(** [revLookup[c]]: the table is filled with [revLookup[code.charCodeAt(i)] = i]
    and then [revLookup['-'] = 62], [revLookup['_'] = 63]. *)
Definition revLookup (c : codeunit) : option Z :=
  if N.eqb c (cu "-") then Some 62
  else if N.eqb c (cu "_") then Some 63
  else let k := indexOf c code in if k <? 0 then None else Some k.

(** [revLookup[b64.charCodeAt(i)]] as an operand of [<<], [>>] or [|]:
    [undefined] (unknown character, or index past the end) converts to 0. *)
Definition sextet (c : option codeunit) : Z :=
  match c with
  | Some c => match revLookup c with Some v => v | None => 0 end
  | None => 0
  end.

Definition getLens (b64 : jsstring) : completion (Z * Z) :=
  let len := Z.of_nat (length b64) in
  if len mod 4 >? 0
  then Throw (Error "Invalid string. Length must be a multiple of 4")
  else
    let validLen := indexOf (cu "=") b64 in
    let validLen := if validLen =? -1 then len else validLen in
    let placeHoldersLen := if validLen =? len then 0 else 4 - validLen mod 4 in
    Return (validLen, placeHoldersLen).

Definition _byteLength (validLen placeHoldersLen : Z) : Z :=
  (validLen + placeHoldersLen) * 3 / 4 - placeHoldersLen.

(** The main loop [for (i = 0; i < len; i += 4)]: iteration [k] reads
    [b64[4k .. 4k+3]] and appends three bytes.  The embedding drops four
    characters per iteration instead of carrying [i], and returns the
    characters from position [i] on for the code after the loop. *)
Definition iterations (len : Z) : nat := Z.to_nat ((len + 3) / 4).

Fixpoint decodeQuads (n : nat) (b64 : jsstring) : list byte * jsstring :=
  match n with
  | O => ([], b64)
  | S n' =>
      let tmp :=
        Z.lor (Z.lor (Z.lor (Z.shiftl (sextet (nth_error b64 0)) 18)
                            (Z.shiftl (sextet (nth_error b64 1)) 12))
                     (Z.shiftl (sextet (nth_error b64 2)) 6))
              (sextet (nth_error b64 3)) in
      let '(bytes, rest) := decodeQuads n' (skipn 4 b64) in
      (toUint8 (Z.land (Z.shiftr tmp 16) 255)
         :: toUint8 (Z.land (Z.shiftr tmp 8) 255)
         :: toUint8 (Z.land tmp 255) :: bytes, rest)
  end.

(** The bytes stored for the one or two placeholder characters. *)
Definition decodeTail (placeHoldersLen : Z) (rest : jsstring) : list byte :=
  if placeHoldersLen =? 2 then
    let tmp := Z.lor (Z.shiftl (sextet (nth_error rest 0)) 2)
                     (Z.shiftr (sextet (nth_error rest 1)) 4) in
    [toUint8 (Z.land tmp 255)]
  else if placeHoldersLen =? 1 then
    let tmp := Z.lor (Z.lor (Z.shiftl (sextet (nth_error rest 0)) 10)
                            (Z.shiftl (sextet (nth_error rest 1)) 4))
                     (Z.shiftr (sextet (nth_error rest 2)) 2) in
    [toUint8 (Z.land (Z.shiftr tmp 8) 255); toUint8 (Z.land tmp 255)]
  else [].

(** [arr[curByte++] = v] for [curByte = 0, 1, ...] into the zero-filled
    [arr]: the stored bytes are a prefix of [arr], a store past its end is
    ignored. *)
Definition store (arr written : list byte) : list byte :=
  firstn (length arr) (written ++ skipn (length written) arr).

Definition toByteArray (b64 : jsstring) : completion (list byte) :=
  lens <- getLens b64 ;;
  let '(validLen, placeHoldersLen) := lens in
  arr <- newUint8Array (_byteLength validLen placeHoldersLen) ;;
  let len := if placeHoldersLen >? 0 then validLen - 4 else validLen in
  let '(bytes, rest) := decodeQuads (iterations len) b64 in
  Return (store arr (bytes ++ decodeTail placeHoldersLen rest)).

Definition tripletToBase64 (num : Z) : jsstring :=
  lookup (Z.land (Z.shiftr num 18) 63)
    ++ lookup (Z.land (Z.shiftr num 12) 63)
    ++ lookup (Z.land (Z.shiftr num 6) 63)
    ++ lookup (Z.land num 63).

(** [encodeChunk] over the complete triplets followed by the code for the
    one or two extra bytes; the chunking by 16383 bytes only bounds the size
    of the intermediate strings. *)
Fixpoint fromByteArray (uint8 : list byte) : jsstring :=
  match uint8 with
  | [] => []
  | [a] =>
      let tmp := u8 a in
      lookup (Z.shiftr tmp 2)
        ++ lookup (Z.land (Z.shiftl tmp 4) 63)
        ++ js "=="
  | [a; b] =>
      let tmp := Z.shiftl (u8 a) 8 + u8 b in
      lookup (Z.shiftr tmp 10)
        ++ lookup (Z.land (Z.shiftr tmp 4) 63)
        ++ lookup (Z.land (Z.shiftl tmp 2) 63)
        ++ js "="
  | a :: b :: c :: rest =>
      tripletToBase64
        (Z.land (Z.shiftl (u8 a) 16) 16711680
         + Z.land (Z.shiftl (u8 b) 8) 65280
         + Z.land (u8 c) 255)
        ++ fromByteArray rest
  end.

End base64.

(** ** src/core/crypto.ts: the base64url helper *)
Module base64url.

Definition encode (input : list byte) : jsstring :=
  let base64String := base64.fromByteArray input in
  remove_all (cu "=")
    (replace_all (cu "/") (cu "_")
       (replace_all (cu "+") (cu "-") base64String)).

Definition decode (input : jsstring) : completion (list byte) :=
  let base64String :=
    replace_all (cu "_") (cu "/") (replace_all (cu "-") (cu "+") input) in
  let padding := (4 - Z.of_nat (length base64String) mod 4) mod 4 in
  let base64String := base64String ++ repeat (cu "=") (Z.to_nat padding) in
  base64.toByteArray base64String.

End base64url.

(** ** The base58-universal dependency ([import { encode } from 'base58-universal'])

    [encode(input)] of base58-universal ([lib/baseN.js]) is
    [baseN.encode(input, alphabet)] with the Bitcoin alphabet: [digits]
    holds the base-58 digits, least significant first. *)
Module base58.

Definition alphabet : jsstring :=
  js "123456789ABCDEFGHJKLMNPQRSTUVWXYZabcdefghijkmnopqrstuvwxyz".

Definition base : Z := Z.of_nat (length alphabet).

Definition alphabetAt (i : Z) : jsstring :=
  if i <? 0 then js "undefined"
  else match nth_error alphabet (Z.to_nat i) with
       | Some c => [c]
       | None => js "undefined"
       end.

(** [for (j = 0; j < digits.length; ++j) { carry += digits[j] << 8;
    digits[j] = carry % base; carry = (carry / base) | 0 }] *)
Fixpoint mulAdd (digits : list Z) (carry : Z) : list Z * Z :=
  match digits with
  | [] => ([], carry)
  | d :: ds =>
      let carry := carry + Z.shiftl d 8 in
      let '(ds', carry') := mulAdd ds (carry / base) in
      (carry mod base :: ds', carry')
  end.

(** [while (carry > 0) { digits.push(carry % base); carry = (carry / base) | 0 }];
    [carry] strictly decreases, so [Z.to_nat carry] rounds are enough. *)
Fixpoint pushCarry (fuel : nat) (carry : Z) : list Z :=
  match fuel with
  | O => []
  | S fuel' =>
      if carry >? 0 then carry mod base :: pushCarry fuel' (carry / base)
      else []
  end.

Definition addByte (digits : list Z) (b : byte) : list Z :=
  let '(digits', carry) := mulAdd digits (u8 b) in
  digits' ++ pushCarry (Z.to_nat carry) carry.

(** [for (i = 0; input[i] === 0 && i < input.length - 1; ++i) output += first] *)
Fixpoint leadingZeros (input : list byte) : nat :=
  match input with
  | b :: ((_ :: _) as r) => if u8 b =? 0 then S (leadingZeros r) else O
  | _ => O
  end.

Definition encode (input : list byte) : jsstring :=
  match input with
  | [] => []
  | _ =>
      let digits := fold_left addByte input [0] in
      repeat (nth 0 alphabet 0%N) (leadingZeros input)
        ++ flat_map alphabetAt (rev digits)
  end.

End base58.

(** ** The @stablelib/ed25519 dependency ([import * as ed25519 from '@stablelib/ed25519'])

    The signature primitive is a parameter of the development: the three
    functions the sources call, and the facts about them the proofs use. *)
Record KeyPair : Type := {
  publicKey : list byte;
  secretKey : list byte
}.

Record ed25519_lib : Type := {
  generateKeyPairFromSeed : list byte -> KeyPair;
  sign : list byte -> list byte -> completion (list byte);
  verify : list byte -> list byte -> list byte -> completion bool
}.

(** [(sk, pk)] is a matching pair when key generation produces it from some
    32-byte seed. *)
Definition key_pair (ed25519 : ed25519_lib) (sk pk : list byte) : Prop :=
  exists seed, length seed = 32%nat /\
    ed25519.(generateKeyPairFromSeed) seed = {| publicKey := pk; secretKey := sk |}.

Record ed25519_correct (ed25519 : ed25519_lib) : Prop := {
  (** the secret key is the seed followed by the 32-byte public key *)
  keypair_shape : forall seed, length seed = 32%nat ->
    let kp := ed25519.(generateKeyPairFromSeed) seed in
    length kp.(publicKey) = 32%nat /\ kp.(secretKey) = seed ++ kp.(publicKey);
  (** signing with a 64-byte key returns a 64-byte signature *)
  sign_returns : forall sk m, length sk = 64%nat ->
    exists sig, ed25519.(sign) sk m = Return sig /\ length sig = 64%nat;
  (** a signature made with [sk] verifies against the matching [pk] *)
  verify_sign : forall sk pk m sig, key_pair ed25519 sk pk ->
    ed25519.(sign) sk m = Return sig ->
    ed25519.(verify) pk m sig = Return true;
  (** a signature of any other length is never accepted ([verify] throws
      "signature must be 64 bytes") *)
  verify_length : forall pk m sig, length sig <> 64%nat ->
    ed25519.(verify) pk m sig <> Return true
}.

(** ** JSON values: what [JSON.stringify] is applied to *)
#[local] Unset Elimination Schemes.
Inductive JSValue : Type :=
| JSNull
| JSBoolean (b : bool)
| JSNumber (z : Z)
| JSString (s : jsstring)
| JSArray (items : list JSValue)
| JSObject (fields : list (jsstring * JSValue)).
#[local] Set Elimination Schemes.

(** [o.k] on an object literal *)
Fixpoint assoc (k : jsstring) (fields : list (jsstring * JSValue)) : option JSValue :=
  match fields with
  | [] => None
  | (k', v) :: r => if list_eq_dec N.eq_dec k k' then Some v else assoc k r
  end.

Definition get (o : JSValue) (k : jsstring) : option JSValue :=
  match o with
  | JSObject fields => assoc k fields
  | _ => None
  end.

(** ** src/core/crypto.ts *)

Definition ED25519_MULTICODEC_PREFIX : list byte := [xed; x01].

Definition invalid_private_key_length : exn :=
  Error "Invalid private key length. Expected 64 bytes.".

Section Crypto.

Variable ed25519 : ed25519_lib.
Variable JSON_stringify : JSValue -> jsstring.

(** [generateKeyPair], with the random seed made an argument. *)
Definition generateKeyPair (seed : list byte) : jsstring * list byte :=
  let keyPair := ed25519.(generateKeyPairFromSeed) seed in
  let privateKey := base64.fromByteArray keyPair.(secretKey) in
  (privateKey, keyPair.(publicKey)).

Definition createDidFromPublicKey (publicKey : list byte) : completion jsstring :=
  multicodecKey <- newUint8Array
    (Z.of_nat (length ED25519_MULTICODEC_PREFIX + length publicKey)) ;;
  multicodecKey <- Uint8Array_set multicodecKey ED25519_MULTICODEC_PREFIX 0 ;;
  multicodecKey <- Uint8Array_set multicodecKey publicKey
    (length ED25519_MULTICODEC_PREFIX) ;;
  let encoded := base58.encode multicodecKey in
  Return (js "did:key:z" ++ encoded).

Record ProfileKeys : Type := {
  pk_privateKey : jsstring;
  pk_publicKey : jsstring;
  pk_did : jsstring
}.

Definition generateProfileKeys (seed : list byte) : completion ProfileKeys :=
  let '(privateKey, publicKey) := generateKeyPair seed in
  did <- createDidFromPublicKey publicKey ;;
  Return {| pk_privateKey := privateKey;
            pk_publicKey := base64.fromByteArray publicKey;
            pk_did := did |}.

Definition JWTHeader : JSValue :=
  JSObject [(js "alg", JSString (js "EdDSA")); (js "typ", JSString (js "JWT"))].

Definition createJWT (payload : JSValue) (privateKey : jsstring)
  : completion jsstring :=
  privateKeyBytes <- base64.toByteArray privateKey ;;
  if negb (length privateKeyBytes =? 64)%nat
  then Throw invalid_private_key_length
  else
    let header := JWTHeader in
    let headerB64 := base64url.encode (TextEncoder_encode (JSON_stringify header)) in
    let payloadB64 := base64url.encode (TextEncoder_encode (JSON_stringify payload)) in
    let signingInput := headerB64 ++ js "." ++ payloadB64 in
    let signingInputBytes := TextEncoder_encode signingInput in
    signature <- ed25519.(sign) privateKeyBytes signingInputBytes ;;
    let signatureB64 := base64url.encode signature in
    Return (signingInput ++ js "." ++ signatureB64).

Definition verifyJWT (jwt : jsstring) (publicKey : list byte) : completion bool :=
  try_catch
    (let parts := split (cu ".") jwt in
     if negb (length parts =? 3)%nat then Return false
     else
       match parts with
       | [encodedHeader; encodedPayload; encodedSignature] =>
           let signingInput := encodedHeader ++ js "." ++ encodedPayload in
           let signingInputBytes := TextEncoder_encode signingInput in
           signatureBytes <- base64url.decode encodedSignature ;;
           ed25519.(verify) publicKey signingInputBytes signatureBytes
       | _ => Return false
       end)
    (fun error => Return false).

(** ** src/core/api.ts: the credential payloads of [MockIRLBrowser] *)

Record Profile : Type := {
  did : jsstring;
  name : jsstring;
  socials : option (list JSValue);
  avatar : option jsstring
}.

(** What the facade reads from its surroundings: [getProfile()],
    [getPrivateKey()], [Date.now()] and [window.location.origin]. *)
Record Host : Type := {
  getProfile : option Profile;
  getPrivateKey : option jsstring;
  Date_now : Z;
  location_origin : jsstring
}.

Definition no_profile_found : exn :=
  Error "No profile found. User must create a profile first.".

(** [!s] for a [string | null] *)
Definition falsy (s : option jsstring) : bool :=
  match s with
  | None => true
  | Some [] => true
  | Some _ => false
  end.

Definition profileDetailsPayload (h : Host) (profile : Profile) : JSValue :=
  let now := h.(Date_now) / 1000 in
  JSObject
    [(js "iss", JSString profile.(did));
     (js "aud", JSString h.(location_origin));
     (js "iat", JSNumber now);
     (js "exp", JSNumber (now + 120));
     (js "type", JSString (js "irl:profile:details"));
     (js "data", JSObject
        [(js "did", JSString profile.(did));
         (js "name", JSString profile.(name));
         (js "socials", JSArray (match profile.(socials) with
                                 | Some l => l
                                 | None => []
                                 end))])].

Definition avatarPayload (h : Host) (profile : Profile) (avatar : jsstring)
  : JSValue :=
  let now := h.(Date_now) / 1000 in
  JSObject
    [(js "iss", JSString profile.(did));
     (js "aud", JSString h.(location_origin));
     (js "iat", JSNumber now);
     (js "exp", JSNumber (now + 120));
     (js "type", JSString (js "irl:avatar"));
     (js "data", JSObject
        [(js "did", JSString profile.(did));
         (js "avatar", JSString avatar)])].

Definition getProfileDetails (h : Host) : completion jsstring :=
  match h.(getProfile), h.(getPrivateKey) with
  | Some profile, Some privateKey =>
      if falsy (Some privateKey) then Throw no_profile_found
      else createJWT (profileDetailsPayload h profile) privateKey
  | _, _ => Throw no_profile_found
  end.

Definition getAvatar (h : Host) : completion (option jsstring) :=
  match h.(getProfile), h.(getPrivateKey) with
  | Some profile, Some privateKey =>
      if falsy (Some privateKey) then Throw no_profile_found
      else if falsy profile.(avatar) then Return None
      else match profile.(avatar) with
           | Some a =>
               jwt <- createJWT (avatarPayload h profile a) privateKey ;;
               Return (Some jwt)
           | None => Return None
           end
  | _, _ => Throw no_profile_found
  end.

End Crypto.

(** ** Auxiliary definitions for the statements and proofs *)

(** A character of the standard base64 alphabet. *)
Definition std_char (c : codeunit) : bool :=
  existsb (N.eqb c) base64.code.

(** One check per table index: [lookup] gives one character of the
    alphabet and [revLookup] inverts it. *)
Definition table_row_ok (i : Z) : bool :=
  match base64.lookup i with
  | [c] => (base64.sextet (Some c) =? i) && std_char c
  | _ => false
  end.

(** The two replacements of [base64url.encode] and of [base64url.decode],
    character by character. *)
Definition to_url (c : codeunit) : codeunit :=
  let c := if N.eqb c (cu "+") then cu "-" else c in
  if N.eqb c (cu "/") then cu "_" else c.

Definition from_url (c : codeunit) : codeunit :=
  let c := if N.eqb c (cu "-") then cu "+" else c in
  if N.eqb c (cu "_") then cu "/" else c.

(** One check per character of the alphabet: it is not the padding
    character, its base64url form is neither padding nor a dot, and the
    replacements of [decode] undo those of [encode]. *)
Definition alphabet_char_ok (c : codeunit) : bool :=
  negb (N.eqb c (cu "=")) && negb (N.eqb (to_url c) (cu "="))
  && negb (N.eqb (to_url c) (cu ".")) && N.eqb (from_url (to_url c)) c.

(** The complete triplets of a byte array, their number, and the one or two
    extra bytes, as [fromByteArray] splits its input. *)
Fixpoint ntriples {A} (l : list A) : nat :=
  match l with
  | _ :: _ :: _ :: r => S (ntriples r)
  | _ => O
  end.

Fixpoint full {A} (l : list A) : list A :=
  match l with
  | a :: b :: c :: r => a :: b :: c :: full r
  | _ => []
  end.

Fixpoint extra {A} (l : list A) : list A :=
  match l with
  | _ :: _ :: _ :: r => extra r
  | _ => l
  end.

(** Number of ['='] that [fromByteArray] appends, and number of alphabet
    characters it emits for the extra bytes. *)
Definition pad_of {A} (l : list A) : nat :=
  match extra l with [] => 0 | [_] => 2 | _ => 1 end.

Definition tail_chars {A} (l : list A) : Z :=
  match extra l with [] => 0 | [_] => 2 | _ => 3 end.

(** The bytes of an ASCII literal. *)
Definition bytes_of_string (s : string) : list byte :=
  map byte_of_ascii (list_ascii_of_string s).
Arguments bytes_of_string s%_string.

(** A segment of an assertion: the base64url of the UTF-8 of the JSON text. *)
Definition segment_of (JSON_stringify : JSValue -> jsstring) (v : JSValue)
  : jsstring :=
  base64url.encode (TextEncoder_encode (JSON_stringify v)).

(** Number of dots in a string. *)
Definition dots (s : jsstring) : nat := count_occ N.eq_dec s (cu ".").

Definition dot_free (s : jsstring) : Prop := Forall (fun x => x <> cu ".") s.

(** The split on ['.'] yields exactly three non-empty segments. *)
Definition three_nonempty_segments (jwt : jsstring) : Prop :=
  exists h p s, split (cu ".") jwt = [h; p; s] /\ h <> [] /\ p <> [] /\ s <> [].

(** The input begins with the padding character. *)
Definition starts_with_pad (s : jsstring) : Prop :=
  exists r, s = cu "=" :: r.

(** A payload whose [exp] is its [iat] plus 120 seconds. *)
Definition fixed_window (payload : JSValue) : Prop :=
  exists iat,
    get payload (js "iat") = Some (JSNumber iat)
    /\ get payload (js "exp") = Some (JSNumber (iat + 120))
    /\ iat + 120 > iat.

(** ** An instance of the interfaces

    A stand-in for the signature primitive and for [JSON.stringify], used
    to show that the assumptions [ed25519_correct] can be met and to run the
    functions on concrete inputs.  The "signature" is the public half of
    the key followed by the first 32 bytes of the message: it has the
    interface of Ed25519 and none of its security. *)
Module Stub.

Definition pad32 (m : list byte) : list byte := firstn 32 (m ++ repeat x00 32).

Fixpoint bytes_eqb (a b : list byte) : bool :=
  match a, b with
  | [], [] => true
  | x :: a', y :: b' => Byte.eqb x y && bytes_eqb a' b'
  | _, _ => false
  end.

Definition ed25519 : ed25519_lib := {|
  generateKeyPairFromSeed := fun seed =>
    {| publicKey := pad32 seed; secretKey := seed ++ pad32 seed |};
  sign := fun sk m => Return (skipn 32 sk ++ pad32 m);
  verify := fun pk m sig =>
    if (length sig =? 64)%nat then Return (bytes_eqb sig (pk ++ pad32 m))
    else Throw (Error "ed25519: signature must be 64 bytes")
|}.

(** [JSON.stringify] on integers, strings without characters that need an
    escape other than the quote and the backslash, arrays and objects. *)
Definition quote (s : jsstring) : jsstring :=
  [34%N] ++ flat_map (fun c => if N.eqb c 34 then [92; 34]%N
                                else if N.eqb c 92 then [92; 92]%N
                                else [c]) s ++ [34%N].

Fixpoint JSON_stringify (v : JSValue) : jsstring :=
  match v with
  | JSNull => js "null"
  | JSBoolean b => if b then js "true" else js "false"
  | JSNumber z => js (NilZero.string_of_int (Z.to_int z))
  | JSString s => quote s
  | JSArray items =>
      js "[" ++ (fix go (l : list JSValue) : jsstring :=
                   match l with
                   | [] => []
                   | x :: r => JSON_stringify x
                               ++ match r with [] => [] | _ => js "," ++ go r end
                   end) items ++ js "]"
  | JSObject fields =>
      js "{" ++ (fix go (l : list (jsstring * JSValue)) : jsstring :=
                   match l with
                   | [] => []
                   | (k, x) :: r => quote k ++ js ":" ++ JSON_stringify x
                               ++ match r with [] => [] | _ => js "," ++ go r end
                   end) fields ++ js "}"
  end.

Definition seed : list byte := repeat x07 32.
Definition sk : list byte := (ed25519.(generateKeyPairFromSeed) seed).(secretKey).
Definition pk : list byte := (ed25519.(generateKeyPairFromSeed) seed).(publicKey).
Definition privateKey : jsstring := base64.fromByteArray sk.

Definition profile : Profile := {|
  did := js "did:key:zABC";
  name := js "A";
  socials := None;
  avatar := Some (js "data:image/png;base64,AAAA")
|}.

Definition host : Host := {|
  getProfile := Some profile;
  getPrivateKey := Some privateKey;
  Date_now := 1000999;
  location_origin := js "https://x"
|}.

Definition payload : JSValue := profileDetailsPayload host profile.

(** Three segments, the first two empty, the third a signature over ["."]. *)
Definition empty_segments_jwt : jsstring :=
  js ".." ++ base64url.encode (skipn 32 sk ++ pad32 (TextEncoder_encode (js "."))).

End Stub.

(** ** src/core/crypto.ts: seed generation and [decodeJWT] *)

Definition SEED_SIZE : nat := 32.

(** The random sources of the host: [crypto.getRandomValues], which
    overwrites the bytes of the array it is given (byte [i] of one call),
    and [require('crypto').randomBytes]; [None] when the global is
    undefined. *)
Record RandomSources : Type := {
  crypto_getRandomValues : option (nat -> byte);
  require_crypto_randomBytes : option (Z -> list byte)
}.

Definition no_secure_rng : exn :=
  Error "No secure random number generator available".

Definition generateRandomSeed (env : RandomSources) : completion (list byte) :=
  seed <- newUint8Array (Z.of_nat SEED_SIZE) ;;
  match env.(crypto_getRandomValues) with
  | Some getRandomValues =>
      Return (map getRandomValues (seq 0 (length seed)))
  | None =>
      match env.(require_crypto_randomBytes) with
      | Some nodeCrypto_randomBytes =>
          let randomBytes := nodeCrypto_randomBytes (Z.of_nat SEED_SIZE) in
          Uint8Array_set seed randomBytes 0
      | None => Throw no_secure_rng
      end
  end.

(** The exported [generateProfileKeys()]: a fresh seed, then the keys. *)
Definition generateProfileKeys_env (ed25519 : ed25519_lib) (env : RandomSources)
  : completion ProfileKeys :=
  seed <- generateRandomSeed env ;;
  generateProfileKeys ed25519 seed.

Record DecodedJWT : Type := {
  dj_header : JSValue;
  dj_payload : JSValue;
  dj_signature : jsstring
}.

Definition invalid_jwt_format : exn :=
  Error "Invalid JWT format. Expected 3 parts separated by dots.".

Definition invalid_jwt_missing_parts : exn :=
  Error "Invalid JWT format: missing parts".

(** [!s] for a string *)
Definition is_empty (s : jsstring) : bool :=
  match s with [] => true | _ => false end.

Section Decoding.

Variable JSON_parse : jsstring -> completion JSValue.
Variable TextDecoder_decode : list byte -> jsstring.

Definition decodeJWT (jwt : jsstring) : completion DecodedJWT :=
  let parts := split (cu ".") jwt in
  if negb (length parts =? 3)%nat then Throw invalid_jwt_format
  else
    match parts with
    | [encodedHeader; encodedPayload; signature] =>
        if is_empty encodedHeader || is_empty encodedPayload || is_empty signature
        then Throw invalid_jwt_missing_parts
        else
          headerBytes <- base64url.decode encodedHeader ;;
          payloadBytes <- base64url.decode encodedPayload ;;
          header <- JSON_parse (TextDecoder_decode headerBytes) ;;
          payload <- JSON_parse (TextDecoder_decode payloadBytes) ;;
          Return {| dj_header := header;
                    dj_payload := payload;
                    dj_signature := signature |}
    | _ => Throw invalid_jwt_format
    end.

End Decoding.

(** ** src/core/api.ts: the rest of [MockIRLBrowser] and the injection *)

Inductive ConsoleMessage : Type :=
| console_log (text : jsstring)
| console_warn (text : jsstring).

Definition jsstring_eqb (a b : jsstring) : bool :=
  if list_eq_dec N.eq_dec a b then true else false.

Record BrowserDetails : Type := {
  bd_name : jsstring;
  bd_version : jsstring;
  bd_platform : jsstring;
  bd_supportedPermissions : list jsstring
}.

Definition getBrowserDetails : BrowserDetails := {|
  bd_name := js "IRL Browser Onboarding";
  bd_version := js "1.0.0";
  bd_platform := js "browser";
  bd_supportedPermissions := [js "profile"]
|}.

Definition requestPermission (permission : jsstring) : bool * list ConsoleMessage :=
  if jsstring_eqb permission (js "profile") then (true, [])
  else (false,
        [console_warn (js "Permission " ++ [34%N] ++ permission ++ [34%N]
                       ++ js " is not yet supported")]).

(** What [window.irlBrowser] holds: the injected [MockIRLBrowser], or any
    other value, of which the code only observes whether it is truthy. *)
Inductive IRLBrowserValue : Type :=
| MockIRLBrowser
| OtherValue (truthy : bool).

(** The global [window]: [None] when [typeof window === 'undefined'],
    otherwise its [irlBrowser] property, [None] when absent. *)
Definition Window : Type := option (option IRLBrowserValue).

(** [!!window.irlBrowser] *)
Definition truthy_value (v : option IRLBrowserValue) : bool :=
  match v with
  | Some MockIRLBrowser => true
  | Some (OtherValue t) => t
  | None => false
  end.

Definition injectIRLBrowserAPI (window : Window) : Window * list ConsoleMessage :=
  match window with
  | None =>
      (None, [console_warn
                (js "Cannot inject IRL Browser API: window is undefined (not in browser)")])
  | Some irlBrowser =>
      if truthy_value irlBrowser
      then (window, [console_warn (js "IRL Browser API already exists on window object")])
      else (Some (Some MockIRLBrowser),
            [console_log (js "IRL Browser API injected successfully")])
  end.

(** [delete window.irlBrowser] *)
Definition removeIRLBrowserAPI (window : Window) : Window * list ConsoleMessage :=
  match window with
  | None => (None, [])
  | Some _ => (Some None, [console_log (js "IRL Browser API removed")])
  end.

Definition hasIRLBrowserAPI (window : Window) : bool :=
  match window with
  | None => false
  | Some irlBrowser => truthy_value irlBrowser
  end.

(** ** src/utils/deviceDetection.ts and src/react/hooks/useIrlOnboarding.ts *)

Definition isIRLBrowser (window : Window) : bool :=
  match window with
  | None => false
  | Some irlBrowser => truthy_value irlBrowser
  end.

Record UseIrlOnboardingReturn : Type := {
  shouldShowOnboarding : bool;
  uio_profile : option Profile;
  isLoading : bool
}.

(** The state before the effect has run. *)
Definition useIrlOnboarding_initial : UseIrlOnboardingReturn :=
  {| shouldShowOnboarding := true; uio_profile := None; isLoading := true |}.

(** [checkStatus]; [hasProfile()] of storage.ts and [getCurrentProfile()]
    of profile.ts are given by their results. *)
Definition checkStatus (window : Window) (hasProfile : bool)
    (getCurrentProfile : option Profile) : UseIrlOnboardingReturn :=
  let isNative := isIRLBrowser window in
  let hasWeb := hasProfile && hasIRLBrowserAPI window in
  let profile := getCurrentProfile in
  {| shouldShowOnboarding := negb isNative && negb hasWeb;
     uio_profile := profile;
     isLoading := false |}.

(** The state the effect sets when it runs. *)
Definition useIrlOnboarding_effect (window : Window) (hasProfile : bool)
    (getCurrentProfile : option Profile) : UseIrlOnboardingReturn :=
  match window with
  | None =>
      {| shouldShowOnboarding := false; uio_profile := None; isLoading := false |}
  | Some _ => checkStatus window hasProfile getCurrentProfile
  end.

(** ** Stand-ins for [JSON.parse], [TextDecoder] and the random sources

    A parser for the texts [Stub.JSON_stringify] writes (no white space, no
    escapes but the quote and the backslash, integers), a decoder for
    ASCII, and two random sources; they serve to run the functions on
    concrete inputs. *)
Module StubIO.

Fixpoint strip_prefix (p s : jsstring) : option jsstring :=
  match p, s with
  | [], _ => Some s
  | x :: p', y :: s' => if N.eqb x y then strip_prefix p' s' else None
  | _ :: _, [] => None
  end.

(** After the opening quote: the characters up to the closing quote. *)
Fixpoint parse_string (s acc : jsstring) : option (jsstring * jsstring) :=
  match s with
  | [] => None
  | c :: r =>
      if N.eqb c 34 then Some (rev acc, r)
      else if N.eqb c 92 then
        match r with
        | e :: r' => parse_string r' (e :: acc)
        | [] => None
        end
      else parse_string r (c :: acc)
  end.

Definition is_digit (c : codeunit) : bool := (48 <=? c)%N && (c <=? 57)%N.

Fixpoint parse_digits (s : jsstring) (acc : Z) : Z * jsstring :=
  match s with
  | c :: r => if is_digit c then parse_digits r (acc * 10 + (Z.of_N c - 48))
              else (acc, s)
  | [] => (acc, s)
  end.

Definition parse_number (s : jsstring) : option (JSValue * jsstring) :=
  match s with
  | c :: r =>
      if N.eqb c (cu "-") then
        match r with
        | d :: _ => if is_digit d
                    then let '(z, rest) := parse_digits r 0 in
                         Some (JSNumber (- z), rest)
                    else None
        | [] => None
        end
      else if is_digit c then
        let '(z, rest) := parse_digits s 0 in Some (JSNumber z, rest)
      else None
  | [] => None
  end.

Fixpoint parse_value (fuel : nat) (s : jsstring) : option (JSValue * jsstring) :=
  match fuel with
  | O => None
  | S fuel' =>
      match s with
      | [] => None
      | c :: r =>
          if N.eqb c (cu "{") then
            match r with
            | d :: r' => if N.eqb d (cu "}") then Some (JSObject [], r')
                         else parse_members fuel' r []
            | [] => None
            end
          else if N.eqb c (cu "[") then
            match r with
            | d :: r' => if N.eqb d (cu "]") then Some (JSArray [], r')
                         else parse_elements fuel' r []
            | [] => None
            end
          else if N.eqb c 34 then
            match parse_string r [] with
            | Some (str, rest) => Some (JSString str, rest)
            | None => None
            end
          else
            match strip_prefix (js "null") s with
            | Some rest => Some (JSNull, rest)
            | None =>
            match strip_prefix (js "true") s with
            | Some rest => Some (JSBoolean true, rest)
            | None =>
            match strip_prefix (js "false") s with
            | Some rest => Some (JSBoolean false, rest)
            | None => parse_number s
            end end end
      end
  end
with parse_elements (fuel : nat) (s : jsstring) (acc : list JSValue)
  : option (JSValue * jsstring) :=
  match fuel with
  | O => None
  | S fuel' =>
      match parse_value fuel' s with
      | Some (v, c :: rest) =>
          if N.eqb c (cu ",") then parse_elements fuel' rest (v :: acc)
          else if N.eqb c (cu "]") then Some (JSArray (rev (v :: acc)), rest)
          else None
      | _ => None
      end
  end
with parse_members (fuel : nat) (s : jsstring) (acc : list (jsstring * JSValue))
  : option (JSValue * jsstring) :=
  match fuel with
  | O => None
  | S fuel' =>
      match s with
      | q :: r =>
          if N.eqb q 34 then
            match parse_string r [] with
            | Some (k, colon :: rest) =>
                if N.eqb colon (cu ":") then
                  match parse_value fuel' rest with
                  | Some (v, c :: rest') =>
                      if N.eqb c (cu ",")
                      then parse_members fuel' rest' ((k, v) :: acc)
                      else if N.eqb c (cu "}")
                      then Some (JSObject (rev ((k, v) :: acc)), rest')
                      else None
                  | _ => None
                  end
                else None
            | _ => None
            end
          else None
      | [] => None
      end
  end.

Definition syntax_error : exn := Error "Unexpected token in JSON".

Definition JSON_parse (text : jsstring) : completion JSValue :=
  match parse_value (S (length text)) text with
  | Some (v, []) => Return v
  | _ => Throw syntax_error
  end.

Definition TextDecoder_decode (bytes : list byte) : jsstring :=
  map (fun b => if u8 b <? 128 then Z.to_N (u8 b) else 65533%N) bytes.

(** A browser whose [crypto] yields the bytes 0, 1, 2, ...; a Node host
    whose [randomBytes(n)] yields [n] bytes 0x2a; a host with neither. *)
Definition browser : RandomSources := {|
  crypto_getRandomValues := Some (fun i => toUint8 (Z.of_nat i));
  require_crypto_randomBytes := None
|}.

Definition node : RandomSources := {|
  crypto_getRandomValues := None;
  require_crypto_randomBytes := Some (fun n => repeat x2a (Z.to_nat n))
|}.

Definition bare : RandomSources := {|
  crypto_getRandomValues := None;
  require_crypto_randomBytes := None
|}.

End StubIO.

(** ** Auxiliary definitions for the further properties *)

(** A character of the base64url alphabet. *)
Definition url_safe_char (c : codeunit) : bool :=
  existsb (N.eqb c)
    (js "ABCDEFGHIJKLMNOPQRSTUVWXYZabcdefghijklmnopqrstuvwxyz0123456789-_").

(** One more check per character of the standard alphabet: its base64url
    form is in the base64url alphabet, the replacements of [decode] leave
    the character itself alone, and it is not a dot. *)
Definition alphabet_char_ok' (c : codeunit) : bool :=
  url_safe_char (to_url c) && N.eqb (from_url c) c && negb (N.eqb c (cu ".")).

Definition pad_free (s : jsstring) : Prop := Forall (fun x => x <> cu "=") s.

Definition base64_length_error : exn :=
  Error "Invalid string. Length must be a multiple of 4".

(** ** Regular expressions, as the validation utilities use them

    The backtracking matcher of ECMAScript for the constructs that occur in
    src/utils/validation.ts: character classes (a literal is a class of
    one), sequence, alternation, greedy bounded repetition, one capture
    group, lookahead, and the anchors; no flags, so a character is a UTF-16
    code unit.  An iteration of a repetition that consumes nothing is
    refused (the bodies in the sources all consume a character). *)
Module RegExp.

Inductive regex : Type :=
| Empty
| Chars (p : codeunit -> bool)
| Seq (a b : regex)
| Alt (a b : regex)
| Repeat (r : regex) (min : nat) (max : option nat)
| Capture (r : regex)
| Lookahead (r : regex)
| Start
| End_.

(** Classes. *)
Definition chr (x : ascii) : codeunit -> bool := fun c => N.eqb c (N_of_ascii x).
Definition rng (a b : ascii) : codeunit -> bool :=
  fun c => (N_of_ascii a <=? c)%N && (c <=? N_of_ascii b)%N.
Definition cls (items : list (codeunit -> bool)) : codeunit -> bool :=
  fun c => existsb (fun item => item c) items.
Definition ncls (items : list (codeunit -> bool)) : codeunit -> bool :=
  fun c => negb (cls items c).
Arguments chr x%_char.
Arguments rng a%_char b%_char.

(** LineTerminator, and [\s] (WhiteSpace and LineTerminator). *)
Definition line_terminator (c : codeunit) : bool :=
  existsb (N.eqb c) [10; 13; 8232; 8233]%N.
Definition white_space (c : codeunit) : bool :=
  existsb (N.eqb c) [9; 10; 11; 12; 13; 32; 160; 5760; 8232; 8233; 8239; 8287;
                     12288; 65279]%N
  || ((8192 <=? c)%N && (c <=? 8202)%N).

(** [.] *)
Definition dot : regex := Chars (fun c => negb (line_terminator c)).

(** A literal text. *)
Fixpoint Lit_ (l : jsstring) : regex :=
  match l with
  | [] => Empty
  | c :: l' => Seq (Chars (N.eqb c)) (Lit_ l')
  end.
Definition Lit (text : string) : regex := Lit_ (js text).
Arguments Lit text%_string.

Definition Opt (r : regex) : regex := Repeat r 0 (Some 1%nat).
Definition Plus (r : regex) : regex := Repeat r 1 None.

Fixpoint seq_of (rs : list regex) : regex :=
  match rs with
  | [] => Empty
  | [r] => r
  | r :: rs' => Seq r (seq_of rs')
  end.

(** A match continues with the position, the rest of the input and the
    capture. *)
Definition Cont (A : Type) : Type := nat -> jsstring -> option jsstring -> option A.

Definition below (count : nat) (max : option nat) : bool :=
  match max with
  | Some m => (count <? m)%nat
  | None => true
  end.

(** Greedy repetition: one more iteration first, the continuation when
    that fails. *)
Fixpoint rep_loop {A} (step : nat -> jsstring -> option jsstring -> Cont A -> option A)
    (min : nat) (max : option nat) (k : Cont A)
    (fuel count pos : nat) (s : jsstring) (cap : option jsstring) : option A :=
  let stop := if (min <=? count)%nat then k pos s cap else None in
  match fuel with
  | O => stop
  | S fuel' =>
      if below count max then
        match step pos s cap
                (fun pos' s' cap' =>
                   if (pos' =? pos)%nat then None
                   else rep_loop step min max k fuel' (S count) pos' s' cap')
        with
        | Some x => Some x
        | None => stop
        end
      else stop
  end.

Fixpoint run (A : Type) (r : regex) (pos : nat) (s : jsstring)
    (cap : option jsstring) (k : Cont A) {struct r} : option A :=
  match r with
  | Empty => k pos s cap
  | Chars p =>
      match s with
      | c :: s' => if p c then k (S pos) s' cap else None
      | [] => None
      end
  | Seq a b => run A a pos s cap (fun pos' s' cap' => run A b pos' s' cap' k)
  | Alt a b =>
      match run A a pos s cap k with
      | Some x => Some x
      | None => run A b pos s cap k
      end
  | Repeat r' min max =>
      rep_loop (run A r') min max k (S (length s)) 0 pos s cap
  | Capture r' =>
      run A r' pos s cap
        (fun pos' s' _ => k pos' s' (Some (firstn (pos' - pos) s)))
  | Lookahead r' =>
      match run unit r' pos s cap (fun _ _ _ => Some tt) with
      | Some _ => k pos s cap
      | None => None
      end
  | Start => if (pos =? 0)%nat then k pos s cap else None
  | End_ => match s with [] => k pos s cap | _ :: _ => None end
  end.

(** [RegExp.prototype.exec] from position 0: the leftmost match, with its
    capture. *)
Fixpoint search_from (r : regex) (pos : nat) (s : jsstring)
  : option (option jsstring) :=
  match run (option jsstring) r pos s None (fun _ _ cap => Some cap) with
  | Some cap => Some cap
  | None =>
      match s with
      | [] => None
      | _ :: s' => search_from r (S pos) s'
      end
  end.

Definition exec (r : regex) (s : jsstring) : option (option jsstring) :=
  search_from r 0 s.

Definition test (r : regex) (s : jsstring) : bool :=
  match exec r s with Some _ => true | None => false end.

End RegExp.

(** ** String methods *)

(** [s.startsWith(p)] *)
Fixpoint startsWith (s p : jsstring) {struct p} : bool :=
  match p, s with
  | [], _ => true
  | x :: p', y :: s' => N.eqb x y && startsWith s' p'
  | _ :: _, [] => false
  end.

Fixpoint trimStart (s : jsstring) : jsstring :=
  match s with
  | c :: r => if RegExp.white_space c then trimStart r else s
  | [] => []
  end.

(** [s.trim()] *)
Definition trim (s : jsstring) : jsstring := rev (trimStart (rev (trimStart s))).

(** [s.replace(/^p/, '')] for a literal [p] *)
Fixpoint removePrefix (p s : jsstring) {struct p} : option jsstring :=
  match p, s with
  | [], _ => Some s
  | x :: p', y :: s' => if N.eqb x y then removePrefix p' s' else None
  | _ :: _, [] => None
  end.

Definition replaceStart (p s : jsstring) : jsstring :=
  match removePrefix p s with
  | Some rest => rest
  | None => s
  end.

(** ** src/utils/validation.ts *)
Module validation.

Import RegExp.

Inductive SocialPlatform : Type :=
| INSTAGRAM | X | BLUESKY | LINKEDIN | YOUTUBE | SPOTIFY | TIKTOK | SNAPCHAT
| GITHUB | FACEBOOK | REDDIT | DISCORD | TWITCH | TELEGRAM | PINTEREST | TUMBLR
| SOUNDCLOUD | BANDCAMP | PATREON | KO_FI | MASTODON | WEBSITE | EMAIL.

Record SocialLink : Type := {
  platform : SocialPlatform;
  handle : jsstring
}.

Definition alnum : list (codeunit -> bool) := [rng "a" "z"; rng "A" "Z"; rng "0" "9"].

(** [/^[class]{min,max}$/] *)
Definition anchored_class (items : list (codeunit -> bool)) (min max : nat) : regex :=
  seq_of [Start; Repeat (Chars (cls items)) min (Some max); End_].

Definition urlPatterns (platform : SocialPlatform) : option regex :=
  let name := Capture (Plus (Chars (ncls [chr "/"; chr "?"]))) in
  match platform with
  | INSTAGRAM => Some (seq_of [Lit "instagram.com/"; name])
  | X => Some (seq_of [Alt (Lit "twitter.com") (Lit "x.com"); Lit "/"; name])
  | BLUESKY => Some (seq_of [Lit "bsky.app/profile/"; name])
  | LINKEDIN => Some (seq_of [Lit "linkedin.com/in/"; name])
  | GITHUB => Some (seq_of [Lit "github.com/"; name])
  | FACEBOOK => Some (seq_of [Lit "facebook.com/"; name])
  | REDDIT => Some (seq_of [Lit "reddit.com/u"; Opt (Lit "ser"); Lit "/"; name])
  | TWITCH => Some (seq_of [Lit "twitch.tv/"; name])
  | YOUTUBE => Some (seq_of [Lit "youtube.com/@"; name])
  | TIKTOK => Some (seq_of [Lit "tiktok.com/@"; name])
  | _ => None
  end.

Definition validationPatterns (platform : SocialPlatform) : regex :=
  match platform with
  | INSTAGRAM => anchored_class (alnum ++ [chr "."; chr "_"]) 1 30
  | X => anchored_class (alnum ++ [chr "_"]) 1 15
  | BLUESKY =>
      seq_of [Start; Plus (Chars (cls (alnum ++ [chr "."; chr "-"]))); Lit ".";
              Repeat (Chars (cls [rng "a" "z"; rng "A" "Z"])) 2 None; End_]
  | LINKEDIN => anchored_class (alnum ++ [chr "-"]) 3 100
  | YOUTUBE => seq_of [Start; Repeat dot 1 (Some 100%nat); End_]
  | SPOTIFY => seq_of [Start; Repeat dot 1 (Some 100%nat); End_]
  | TIKTOK => anchored_class (alnum ++ [chr "."; chr "_"]) 1 24
  | SNAPCHAT => anchored_class (alnum ++ [chr "."; chr "_"; chr "-"]) 3 15
  | GITHUB =>
      seq_of [Start; Chars (cls alnum);
              Repeat (Alt (Chars (cls alnum))
                          (Seq (Lit "-") (Lookahead (Chars (cls alnum)))))
                     0 (Some 38%nat);
              End_]
  | FACEBOOK => seq_of [Start; Repeat dot 5 (Some 50%nat); End_]
  | REDDIT => anchored_class (alnum ++ [chr "_"; chr "-"]) 3 20
  | DISCORD =>
      seq_of [Start; Repeat dot 2 (Some 32%nat); Lit "#";
              Repeat (Chars (cls [rng "0" "9"])) 4 (Some 4%nat); End_]
  | TWITCH => anchored_class (alnum ++ [chr "_"]) 4 25
  | TELEGRAM => anchored_class (alnum ++ [chr "_"]) 5 32
  | PINTEREST => anchored_class (alnum ++ [chr "_"]) 3 30
  | TUMBLR => anchored_class (alnum ++ [chr "-"]) 1 32
  | SOUNDCLOUD => anchored_class (alnum ++ [chr "_"; chr "-"]) 3 25
  | BANDCAMP => anchored_class (alnum ++ [chr "-"]) 1 30
  | PATREON => anchored_class (alnum ++ [chr "_"]) 1 30
  | KO_FI => anchored_class (alnum ++ [chr "_"]) 1 30
  | MASTODON =>
      seq_of [Start; Opt (Lit "@"); Plus (Chars (cls (alnum ++ [chr "_"])));
              Lit "@"; Plus (Chars (cls (alnum ++ [chr "."; chr "-"]))); Lit ".";
              Repeat (Chars (cls [rng "a" "z"; rng "A" "Z"])) 2 None; End_]
  | WEBSITE =>
      seq_of [Start; Lit "http"; Opt (Lit "s"); Lit "://"; Plus dot; Lit ".";
              Plus dot; End_]
  | EMAIL =>
      let part := Plus (Chars (ncls [white_space; chr "@"])) in
      seq_of [Start; part; Lit "@"; part; Lit "."; part; End_]
  end.

(** [['INSTAGRAM', 'X', 'TIKTOK', 'TELEGRAM'].includes(platform)] *)
Definition uses_at (platform : SocialPlatform) : bool :=
  match platform with
  | INSTAGRAM | X | TIKTOK | TELEGRAM => true
  | _ => false
  end.

Section WithLowerCase.

(** [s.toLowerCase()] *)
Variable toLowerCase : jsstring -> jsstring.

Definition normalizeHandle (platform : SocialPlatform) (input : jsstring)
  : option jsstring :=
  if is_empty input || is_empty (trim input) then None
  else
    let normalized := trim input in
    let normalized :=
      if startsWith normalized (js "http://") || startsWith normalized (js "https://")
      then
        match urlPatterns platform with
        | Some pattern =>
            match exec pattern normalized with
            | Some (Some name) => if is_empty name then normalized else name
            | _ => normalized
            end
        | None => normalized
        end
      else normalized in
    let normalized :=
      if uses_at platform then replaceStart (js "@") normalized else normalized in
    let normalized :=
      match platform with
      | REDDIT => replaceStart (js "u/") normalized
      | EMAIL => toLowerCase normalized
      | WEBSITE =>
          if negb (startsWith normalized (js "http://"))
             && negb (startsWith normalized (js "https://"))
          then js "https://" ++ normalized
          else normalized
      | _ => normalized
      end in
    Some normalized.

Definition validateHandle (platform : SocialPlatform) (handle : jsstring) : bool :=
  if is_empty handle || is_empty (trim handle) then false
  else test (validationPatterns platform) handle.

Definition getFullURL (platform : SocialPlatform) (handle : jsstring) : jsstring :=
  match platform with
  | INSTAGRAM => js "https://instagram.com/" ++ handle
  | X => js "https://x.com/" ++ handle
  | BLUESKY => js "https://bsky.app/profile/" ++ handle
  | LINKEDIN => js "https://linkedin.com/in/" ++ handle
  | YOUTUBE => if startsWith handle (js "http") then handle
               else js "https://youtube.com/@" ++ handle
  | SPOTIFY => if startsWith handle (js "http") then handle
               else js "https://open.spotify.com/artist/" ++ handle
  | TIKTOK => js "https://tiktok.com/@" ++ handle
  | SNAPCHAT => js "https://snapchat.com/add/" ++ handle
  | GITHUB => js "https://github.com/" ++ handle
  | FACEBOOK => js "https://facebook.com/" ++ handle
  | REDDIT => js "https://reddit.com/u/" ++ handle
  | DISCORD => handle
  | TWITCH => js "https://twitch.tv/" ++ handle
  | TELEGRAM => js "https://t.me/" ++ handle
  | PINTEREST => js "https://pinterest.com/" ++ handle
  | TUMBLR => js "https://" ++ handle ++ js ".tumblr.com"
  | SOUNDCLOUD => js "https://soundcloud.com/" ++ handle
  | BANDCAMP => js "https://" ++ handle ++ js ".bandcamp.com"
  | PATREON => js "https://patreon.com/" ++ handle
  | KO_FI => js "https://ko-fi.com/" ++ handle
  | MASTODON => handle
  | WEBSITE => handle
  | EMAIL => js "mailto:" ++ handle
  end.

Definition createSocialLink (platform : SocialPlatform) (input : jsstring)
  : option SocialLink :=
  let normalized := normalizeHandle platform input in
  match normalized with
  | Some n =>
      if is_empty n || negb (validateHandle platform n) then None
      else Some {| platform := platform; handle := n |}
  | None => None
  end.

End WithLowerCase.

End validation.

(** The classes of a pattern stay within [P]; lookaheads consume nothing. *)
Fixpoint within (P : codeunit -> Prop) (r : RegExp.regex) : Prop :=
  match r with
  | RegExp.Chars p => forall c, p c = true -> P c
  | RegExp.Seq a b | RegExp.Alt a b => within P a /\ within P b
  | RegExp.Repeat r' _ _ | RegExp.Capture r' => within P r'
  | _ => True
  end.

(** A sequence of such patterns that ends with [$]. *)
Fixpoint anchored (P : codeunit -> Prop) (r : RegExp.regex) : Prop :=
  match r with
  | RegExp.End_ => True
  | RegExp.Seq a b => within P a /\ anchored P b
  | _ => False
  end.

(** Characters of handles: no white space; none of [/ ? :]; no [@]. *)
Definition no_space (c : codeunit) : bool := negb (RegExp.white_space c).

Definition plain (c : codeunit) : bool :=
  no_space c && negb (RegExp.cls [RegExp.chr "/"; RegExp.chr "?"; RegExp.chr ":"] c).

Definition strict (c : codeunit) : bool := plain c && negb (RegExp.chr "@" c).

(** The platforms whose validation pattern is made of character classes. *)
Definition class_only (platform : validation.SocialPlatform) : bool :=
  match platform with
  | validation.YOUTUBE | validation.SPOTIFY | validation.FACEBOOK
  | validation.DISCORD | validation.WEBSITE | validation.EMAIL => false
  | _ => true
  end.

Definition handle_char (platform : validation.SocialPlatform) : codeunit -> bool :=
  match platform with
  | validation.MASTODON => plain
  | _ => strict
  end.

(** The platforms with both a URL template and a URL pattern for it. *)
Definition url_platform (platform : validation.SocialPlatform) : bool :=
  match platform with
  | validation.INSTAGRAM | validation.X | validation.BLUESKY | validation.LINKEDIN
  | validation.TIKTOK | validation.GITHUB | validation.REDDIT | validation.TWITCH => true
  | _ => false
  end.

(** What may follow the handle in a URL: nothing, or a path or a query. *)
Definition url_tail (rest : jsstring) : bool :=
  match rest with
  | [] => true
  | c :: _ => RegExp.cls [RegExp.chr "/"; RegExp.chr "?"] c && forallb no_space rest
  end.

(** ASCII lower-casing, to run the utilities on concrete inputs. *)
Module StubText.

Definition toLowerCase (s : jsstring) : jsstring :=
  map (fun c => if (65 <=? c)%N && (c <=? 90)%N then (c + 32)%N else c) s.

End StubText.

(** * Properties *)

(** ** Bytes and bit arithmetic *)

(** Goals on [/] and [mod] by constants, as linear arithmetic. *)
Ltac divmod := Z.div_mod_to_equations; lia.

Lemma u8_range (b : byte) : 0 <= u8 b < 256.
Proof.
  unfold u8. pose proof (Byte.to_N_bounded b) as H. lia.
Qed.

Lemma toUint8_u8 (b : byte) : toUint8 (u8 b) = b.
Proof.
  unfold toUint8. pose proof (u8_range b) as H.
  rewrite Z.mod_small by exact H. unfold u8.
  rewrite N2Z.id, Byte.of_to_N. reflexivity.
Qed.

(** On disjoint bit ranges [|] is [+]. *)
Lemma lor_shiftl_add (hi lo k : Z) :
  0 <= k -> 0 <= lo < 2 ^ k -> Z.lor (Z.shiftl hi k) lo = hi * 2 ^ k + lo.
Proof.
  intros Hk Hlo.
  rewrite <- Z.shiftl_mul_pow2 by exact Hk.
  rewrite <- Z.lxor_lor, <- Z.add_nocarry_lxor; try reflexivity.
  all: apply Z.bits_inj'; intros n Hn; rewrite Z.land_spec, Z.bits_0;
    destruct (Z.lt_ge_cases n k) as [Hlt | Hge].
  all: try (rewrite Z.shiftl_spec_low by exact Hlt; reflexivity).
  all: rewrite <- (Z.mod_small lo (2 ^ k)) by exact Hlo;
    rewrite Z.mod_pow2_bits_high by lia; apply andb_false_r.
Qed.

Lemma land_63 (x : Z) : Z.land x 63 = x mod 64.
Proof. change 63 with (Z.ones 6). rewrite Z.land_ones by lia. reflexivity. Qed.

Lemma land_255 (x : Z) : Z.land x 255 = x mod 256.
Proof. change 255 with (Z.ones 8). rewrite Z.land_ones by lia. reflexivity. Qed.

Lemma shiftr_div (x k : Z) : 0 <= k -> Z.shiftr x k = x / 2 ^ k.
Proof. intros. apply Z.shiftr_div_pow2; assumption. Qed.

Lemma shiftl_mul (x k : Z) : 0 <= k -> Z.shiftl x k = x * 2 ^ k.
Proof. intros. apply Z.shiftl_mul_pow2; assumption. Qed.

(** The three masked terms of [encodeChunk] add up to the 24-bit number. *)
Lemma triplet_num (a b c : byte) :
  Z.land (Z.shiftl (u8 a) 16) 16711680
  + Z.land (Z.shiftl (u8 b) 8) 65280
  + Z.land (u8 c) 255
  = u8 a * 65536 + u8 b * 256 + u8 c.
Proof.
  pose proof (u8_range a) as Ha. pose proof (u8_range b) as Hb.
  pose proof (u8_range c) as Hc.
  change 16711680 with (Z.shiftl 255 16). change 65280 with (Z.shiftl 255 8).
  rewrite <- !Z.shiftl_land, !land_255, !Z.mod_small by assumption.
  rewrite !shiftl_mul by lia. reflexivity.
Qed.

(** ** The base64 tables *)

Lemma table_ok : forallb table_row_ok (map Z.of_nat (seq 0 64)) = true.
Proof. vm_compute. reflexivity. Qed.

Lemma lookup_spec (i : Z) :
  0 <= i < 64 ->
  exists c, base64.lookup i = [c] /\ base64.sextet (Some c) = i /\ std_char c = true.
Proof.
  intros Hi. pose proof table_ok as H. rewrite forallb_forall in H.
  specialize (H i). unfold table_row_ok in H.
  destruct (base64.lookup i) as [| c [| ? ?]];
    try (discriminate H; apply in_map_iff; exists (Z.to_nat i);
         split; [lia | apply in_seq; lia]).
  exists c. split; [reflexivity |].
  assert (Hin : In i (map Z.of_nat (seq 0 64))).
  { apply in_map_iff. exists (Z.to_nat i). split; [lia | apply in_seq; lia]. }
  specialize (H Hin). apply andb_true_iff in H. destruct H as [H1 H2].
  split; [apply Z.eqb_eq; exact H1 | exact H2].
Qed.

Lemma lor_add (a b k : Z) :
  0 <= k -> a mod 2 ^ k = 0 -> 0 <= b < 2 ^ k -> Z.lor a b = a + b.
Proof.
  intros Hk Ha Hb.
  assert (E : a = Z.shiftl (a / 2 ^ k) k).
  { rewrite shiftl_mul by exact Hk.
    pose proof (Z.div_mod a (2 ^ k)) as D. lia. }
  rewrite E at 1. rewrite lor_shiftl_add by assumption.
  rewrite shiftl_mul in E by exact Hk. lia.
Qed.

(** Reassembling the four sextets of a 24-bit number gives the number back. *)
Lemma sextets_join (num : Z) :
  0 <= num < 16777216 ->
  Z.lor (Z.lor (Z.lor (Z.shiftl (Z.land (Z.shiftr num 18) 63) 18)
                      (Z.shiftl (Z.land (Z.shiftr num 12) 63) 12))
               (Z.shiftl (Z.land (Z.shiftr num 6) 63) 6))
        (Z.land num 63) = num.
Proof.
  intros H.
  rewrite !land_63, !shiftr_div, !shiftl_mul by lia.
  change (2 ^ 18) with 262144. change (2 ^ 12) with 4096. change (2 ^ 6) with 64.
  set (s1 := (num / 262144) mod 64). set (s2 := (num / 4096) mod 64).
  set (s3 := (num / 64) mod 64). set (s4 := num mod 64).
  assert (0 <= s1 < 64 /\ 0 <= s2 < 64 /\ 0 <= s3 < 64 /\ 0 <= s4 < 64) as B
    by (subst s1 s2 s3 s4; repeat split; apply Z.mod_pos_bound; lia).
  rewrite (lor_add (s1 * 262144) (s2 * 4096) 18);
    [| lia | apply Z.mod_mul; lia | change (2 ^ 18) with 262144; lia].
  rewrite (lor_add (s1 * 262144 + s2 * 4096) (s3 * 64) 12);
    [| lia | | change (2 ^ 12) with 4096; lia].
  2:{ change (2 ^ 12) with 4096.
      replace (s1 * 262144 + s2 * 4096) with ((s1 * 64 + s2) * 4096) by lia.
      apply Z.mod_mul; lia. }
  rewrite (lor_add (s1 * 262144 + s2 * 4096 + s3 * 64) s4 6);
    [| lia | | change (2 ^ 6) with 64; lia].
  2:{ change (2 ^ 6) with 64.
      replace (s1 * 262144 + s2 * 4096 + s3 * 64)
        with ((s1 * 4096 + s2 * 64 + s3) * 64) by lia.
      apply Z.mod_mul; lia. }
  subst s1 s2 s3 s4. clear B. divmod.
Qed.

Lemma sextet_range (x k : Z) : 0 <= Z.land (Z.shiftr x k) 63 < 64.
Proof. rewrite land_63. apply Z.mod_pos_bound. lia. Qed.

Lemma triplet_bytes (a b c : byte) :
  let num := u8 a * 65536 + u8 b * 256 + u8 c in
  0 <= num < 16777216 /\
  toUint8 (Z.land (Z.shiftr num 16) 255) = a /\
  toUint8 (Z.land (Z.shiftr num 8) 255) = b /\
  toUint8 (Z.land num 255) = c.
Proof.
  intros num. subst num.
  pose proof (u8_range a) as Ha. pose proof (u8_range b) as Hb.
  pose proof (u8_range c) as Hc.
  split; [lia |].
  rewrite !land_255, !shiftr_div by lia.
  change (2 ^ 16) with 65536. change (2 ^ 8) with 256.
  repeat split.
  - rewrite <- (toUint8_u8 a) at 2. f_equal. divmod.
  - rewrite <- (toUint8_u8 b) at 2. f_equal. divmod.
  - rewrite <- (toUint8_u8 c) at 2. f_equal. divmod.
Qed.

Lemma alphabet_ok : forallb alphabet_char_ok base64.code = true.
Proof. vm_compute. reflexivity. Qed.

Lemma std_char_spec (c : codeunit) :
  std_char c = true ->
  c <> cu "=" /\ to_url c <> cu "=" /\ to_url c <> cu "." /\ from_url (to_url c) = c.
Proof.
  unfold std_char. intros H. apply existsb_exists in H.
  destruct H as [x [Hin Hx]]. apply N.eqb_eq in Hx. subst x.
  pose proof alphabet_ok as A. rewrite forallb_forall in A.
  specialize (A c Hin). unfold alphabet_char_ok in A.
  repeat (apply andb_true_iff in A; destruct A as [A ?]).
  repeat match goal with
         | H : negb _ = true |- _ => apply negb_true_iff, N.eqb_neq in H
         | H : N.eqb _ _ = true |- _ => apply N.eqb_eq in H
         end.
  auto.
Qed.

(** ** Lists three elements at a time *)

Lemma list_ind3 {A} (P : list A -> Prop) :
  P [] -> (forall a, P [a]) -> (forall a b, P [a; b]) ->
  (forall a b c r, P r -> P (a :: b :: c :: r)) ->
  forall l, P l.
Proof.
  intros H0 H1 H2 H3.
  fix IH 1. intros [| a [| b [| c r]]].
  - exact H0.
  - apply H1.
  - apply H2.
  - apply H3, IH.
Qed.

Lemma full_extra {A} (l : list A) : l = full l ++ extra l.
Proof.
  induction l as [| a | a b | a b c r IH] using list_ind3; try reflexivity.
  simpl. rewrite <- IH. reflexivity.
Qed.

Lemma length_full {A} (l : list A) : length (full l) = (3 * ntriples l)%nat.
Proof.
  induction l as [| a | a b | a b c r IH] using list_ind3; try reflexivity.
  simpl full. simpl ntriples. simpl length. lia.
Qed.

Lemma extra_cases {A} (l : list A) :
  extra l = [] \/ (exists a, extra l = [a]) \/ (exists a b, extra l = [a; b]).
Proof.
  induction l as [| a | a b | a b c r IH] using list_ind3; simpl; eauto.
Qed.

Lemma length_split3 {A} (l : list A) :
  Z.of_nat (length l) = 3 * Z.of_nat (ntriples l) + Z.of_nat (length (extra l)).
Proof.
  rewrite (full_extra l) at 1. rewrite length_app, length_full. lia.
Qed.

(** ** base64-js: [toByteArray] inverts [fromByteArray] *)

Lemma tripletToBase64_spec (num : Z) :
  exists c1 c2 c3 c4,
    base64.tripletToBase64 num = [c1; c2; c3; c4]
    /\ base64.sextet (Some c1) = Z.land (Z.shiftr num 18) 63
    /\ base64.sextet (Some c2) = Z.land (Z.shiftr num 12) 63
    /\ base64.sextet (Some c3) = Z.land (Z.shiftr num 6) 63
    /\ base64.sextet (Some c4) = Z.land num 63
    /\ forallb std_char [c1; c2; c3; c4] = true.
Proof.
  unfold base64.tripletToBase64.
  destruct (lookup_spec _ (sextet_range num 18)) as [c1 [E1 [S1 T1]]].
  destruct (lookup_spec _ (sextet_range num 12)) as [c2 [E2 [S2 T2]]].
  destruct (lookup_spec _ (sextet_range num 6)) as [c3 [E3 [S3 T3]]].
  assert (R4 : 0 <= Z.land num 63 < 64)
    by (rewrite land_63; apply Z.mod_pos_bound; lia).
  destruct (lookup_spec _ R4) as [c4 [E4 [S4 T4]]].
  exists c1, c2, c3, c4. rewrite E1, E2, E3, E4.
  simpl. rewrite T1, T2, T3, T4. auto 10.
Qed.

Lemma decodeQuads_step (n : nat) (c1 c2 c3 c4 : codeunit) (rest : jsstring) :
  base64.decodeQuads (S n) (c1 :: c2 :: c3 :: c4 :: rest) =
  let tmp :=
    Z.lor (Z.lor (Z.lor (Z.shiftl (base64.sextet (Some c1)) 18)
                        (Z.shiftl (base64.sextet (Some c2)) 12))
                 (Z.shiftl (base64.sextet (Some c3)) 6))
          (base64.sextet (Some c4)) in
  (toUint8 (Z.land (Z.shiftr tmp 16) 255)
     :: toUint8 (Z.land (Z.shiftr tmp 8) 255)
     :: toUint8 (Z.land tmp 255) :: fst (base64.decodeQuads n rest),
   snd (base64.decodeQuads n rest)).
Proof.
  cbn [base64.decodeQuads nth_error skipn].
  destruct (base64.decodeQuads n rest). reflexivity.
Qed.

Lemma decodeQuads_fromByteArray (l : list byte) :
  base64.decodeQuads (ntriples l) (base64.fromByteArray l)
  = (full l, base64.fromByteArray (extra l)).
Proof.
  induction l as [| a | a b | a b c r IH] using list_ind3; try reflexivity.
  cbn [ntriples full extra base64.fromByteArray].
  rewrite triplet_num.
  destruct (triplet_bytes a b c) as [R [Ba [Bb Bc]]].
  destruct (tripletToBase64_spec (u8 a * 65536 + u8 b * 256 + u8 c))
    as [c1 [c2 [c3 [c4 [E [S1 [S2 [S3 [S4 _]]]]]]]]].
  rewrite E. cbn [app]. rewrite decodeQuads_step, IH.
  rewrite S1, S2, S3, S4, sextets_join by exact R.
  cbn [fst snd]. cbv zeta. rewrite Ba, Bb, Bc. reflexivity.
Qed.

(** The shape of the output: alphabet characters, then the padding. *)
Lemma fromByteArray_shape (l : list byte) :
  exists body,
    base64.fromByteArray l = body ++ repeat (cu "=") (pad_of l)
    /\ forallb std_char body = true
    /\ Z.of_nat (length body) = 4 * Z.of_nat (ntriples l) + tail_chars l.
Proof.
  induction l as [| a | a b | a b c r IH] using list_ind3.
  - exists []. repeat split.
  - pose proof (u8_range a) as Ha.
    assert (R1 : 0 <= Z.shiftr (u8 a) 2 < 64).
    { rewrite shiftr_div by lia. change (2 ^ 2) with 4.
      divmod. }
    assert (R2 : 0 <= Z.land (Z.shiftl (u8 a) 4) 63 < 64)
      by (rewrite land_63; apply Z.mod_pos_bound; lia).
    destruct (lookup_spec _ R1) as [c1 [E1 [_ T1]]].
    destruct (lookup_spec _ R2) as [c2 [E2 [_ T2]]].
    exists [c1; c2]. cbn [base64.fromByteArray]. cbv zeta. rewrite E1, E2.
    simpl. rewrite T1, T2. repeat split.
  - pose proof (u8_range a) as Ha. pose proof (u8_range b) as Hb.
    assert (R1 : 0 <= Z.shiftr (Z.shiftl (u8 a) 8 + u8 b) 10 < 64).
    { rewrite shiftr_div, shiftl_mul by lia.
      change (2 ^ 10) with 1024. change (2 ^ 8) with 256.
      divmod. }
    assert (R2 : 0 <= Z.land (Z.shiftr (Z.shiftl (u8 a) 8 + u8 b) 4) 63 < 64)
      by apply sextet_range.
    assert (R3 : 0 <= Z.land (Z.shiftl (Z.shiftl (u8 a) 8 + u8 b) 2) 63 < 64)
      by (rewrite land_63; apply Z.mod_pos_bound; lia).
    destruct (lookup_spec _ R1) as [c1 [E1 [_ T1]]].
    destruct (lookup_spec _ R2) as [c2 [E2 [_ T2]]].
    destruct (lookup_spec _ R3) as [c3 [E3 [_ T3]]].
    exists [c1; c2; c3]. cbn [base64.fromByteArray]. cbv zeta.
    rewrite E1, E2, E3. simpl. rewrite T1, T2, T3. repeat split.
  - destruct IH as [body [E [T L]]].
    destruct (tripletToBase64_spec
                (Z.land (Z.shiftl (u8 a) 16) 16711680
                 + Z.land (Z.shiftl (u8 b) 8) 65280 + Z.land (u8 c) 255))
      as [c1 [c2 [c3 [c4 [Eq [_ [_ [_ [_ Tq]]]]]]]]].
    exists ([c1; c2; c3; c4] ++ body).
    cbn [base64.fromByteArray]. rewrite Eq, E.
    unfold pad_of, tail_chars in *. cbn [extra ntriples].
    rewrite <- app_assoc. split; [reflexivity |]. split.
    + rewrite forallb_app, Tq, T. reflexivity.
    + rewrite length_app. cbn [length]. lia.
Qed.

Lemma indexOf_range (c : codeunit) (s : jsstring) :
  indexOf c s = -1 \/ 0 <= indexOf c s < Z.of_nat (length s).
Proof.
  induction s as [| x r IH]; [left; reflexivity |].
  cbn [indexOf length]. destruct (N.eqb x c); [right; lia |].
  destruct (indexOf c r <? 0) eqn:E; [left; reflexivity |].
  apply Z.ltb_ge in E. right. lia.
Qed.

Lemma indexOf_absent (c : codeunit) (s : jsstring) :
  Forall (fun x => x <> c) s -> indexOf c s = -1.
Proof.
  induction 1 as [| x r Hx _ IH]; [reflexivity |].
  cbn [indexOf]. apply N.eqb_neq in Hx. rewrite Hx, IH. reflexivity.
Qed.

Lemma indexOf_first (c : codeunit) (s r : jsstring) :
  Forall (fun x => x <> c) s -> indexOf c (s ++ c :: r) = Z.of_nat (length s).
Proof.
  induction 1 as [| x s' Hx _ IH].
  - cbn. rewrite N.eqb_refl. reflexivity.
  - cbn [app indexOf length]. apply N.eqb_neq in Hx. rewrite Hx, IH.
    destruct (Z.of_nat (length s') <? 0) eqn:E; [apply Z.ltb_lt in E |]; lia.
Qed.

Lemma std_not_pad (s : jsstring) :
  forallb std_char s = true -> Forall (fun x => x <> cu "=") s.
Proof.
  rewrite forallb_forall, Forall_forall. intros H x Hx.
  apply (std_char_spec x (H x Hx)).
Qed.

Lemma store_exact (arr written : list byte) :
  length arr = length written -> base64.store arr written = written.
Proof.
  intros H. unfold base64.store.
  rewrite H, firstn_app, Nat.sub_diag, firstn_O, app_nil_r.
  apply firstn_all.
Qed.

(** The code after the loop restores the one or two extra bytes. *)
Lemma decodeTail_one (a : byte) :
  base64.decodeTail 2 (base64.fromByteArray [a]) = [a].
Proof.
  pose proof (u8_range a) as Ha.
  assert (R1 : 0 <= Z.shiftr (u8 a) 2 < 64).
  { rewrite shiftr_div by lia. change (2 ^ 2) with 4.
    divmod. }
  assert (R2 : 0 <= Z.land (Z.shiftl (u8 a) 4) 63 < 64)
    by (rewrite land_63; apply Z.mod_pos_bound; lia).
  destruct (lookup_spec _ R1) as [c1 [E1 [S1 _]]].
  destruct (lookup_spec _ R2) as [c2 [E2 [S2 _]]].
  cbn [base64.fromByteArray]. cbv zeta. rewrite E1, E2.
  unfold base64.decodeTail. cbn [Z.eqb Pos.eqb app nth_error]. cbv zeta.
  rewrite S1, S2. f_equal.
  etransitivity; [| apply toUint8_u8]. f_equal.
  rewrite (lor_shiftl_add _ _ 2); [| lia |].
  - rewrite land_255, land_63, !shiftr_div, shiftl_mul by lia.
    change (2 ^ 2) with 4. change (2 ^ 4) with 16.
    divmod.
  - rewrite land_63, !shiftr_div, shiftl_mul by lia.
    change (2 ^ 2) with 4. change (2 ^ 4) with 16.
    divmod.
Qed.

Lemma decodeTail_two (a b : byte) :
  base64.decodeTail 1 (base64.fromByteArray [a; b]) = [a; b].
Proof.
  pose proof (u8_range a) as Ha. pose proof (u8_range b) as Hb.
  set (t := Z.shiftl (u8 a) 8 + u8 b).
  assert (Ht : t = u8 a * 256 + u8 b)
    by (subst t; rewrite shiftl_mul by lia; reflexivity).
  assert (R1 : 0 <= Z.shiftr t 10 < 64).
  { rewrite shiftr_div by lia. change (2 ^ 10) with 1024.
    divmod. }
  assert (R2 : 0 <= Z.land (Z.shiftr t 4) 63 < 64) by apply sextet_range.
  assert (R3 : 0 <= Z.land (Z.shiftl t 2) 63 < 64)
    by (rewrite land_63; apply Z.mod_pos_bound; lia).
  destruct (lookup_spec _ R1) as [c1 [E1 [S1 _]]].
  destruct (lookup_spec _ R2) as [c2 [E2 [S2 _]]].
  destruct (lookup_spec _ R3) as [c3 [E3 [S3 _]]].
  cbn [base64.fromByteArray]. cbv zeta. fold t. rewrite E1, E2, E3.
  unfold base64.decodeTail. cbn [Z.eqb Pos.eqb app nth_error]. cbv zeta.
  rewrite S1, S2, S3.
  assert (J : Z.lor (Z.lor (Z.shiftl (Z.shiftr t 10) 10)
                           (Z.shiftl (Z.land (Z.shiftr t 4) 63) 4))
                    (Z.shiftr (Z.land (Z.shiftl t 2) 63) 2) = t).
  { rewrite !land_63, !shiftr_div, !shiftl_mul by lia.
    change (2 ^ 10) with 1024. change (2 ^ 4) with 16. change (2 ^ 2) with 4.
    rewrite (lor_add (t / 1024 * 1024) _ 10);
      [| lia | apply Z.mod_mul; lia
       | change (2 ^ 10) with 1024; divmod].
    rewrite (lor_add _ _ 4); [| lia | | ].
    - divmod.
    - change (2 ^ 4) with 16. divmod.
    - change (2 ^ 4) with 16. divmod. }
  rewrite J, !land_255, shiftr_div by lia. change (2 ^ 8) with 256.
  f_equal; [| f_equal].
  - etransitivity; [| apply toUint8_u8]. f_equal. divmod.
  - etransitivity; [| apply toUint8_u8]. f_equal. divmod.
Qed.

Lemma getLens_fromByteArray (l : list byte) :
  base64.getLens (base64.fromByteArray l)
  = Return (4 * Z.of_nat (ntriples l) + tail_chars l, Z.of_nat (pad_of l)).
Proof.
  destruct (fromByteArray_shape l) as [body [E [T L]]].
  pose proof (std_not_pad body T) as NP.
  unfold base64.getLens. rewrite E, length_app, repeat_length.
  unfold pad_of, tail_chars in *.
  destruct (extra_cases l) as [X | [[a X] | [a [b X]]]]; rewrite X in *;
    cbn [repeat].
  - rewrite app_nil_r, (indexOf_absent _ _ NP).
    replace (Z.of_nat (length body + 0)) with (4 * Z.of_nat (ntriples l)) by lia.
    replace (4 * Z.of_nat (ntriples l) mod 4) with 0
      by (symmetry; rewrite Z.mul_comm; apply Z.mod_mul; lia).
    cbn [Z.gtb Z.compare Z.eqb]. rewrite Z.eqb_refl, Z.add_0_r. reflexivity.
  - rewrite (indexOf_first _ _ _ NP).
    replace (Z.of_nat (length body + 2))
      with (4 * Z.of_nat (ntriples l) + 4) by lia.
    replace ((4 * Z.of_nat (ntriples l) + 4) mod 4) with 0
      by (divmod).
    cbn [Z.gtb Z.compare]. rewrite L.
    replace (4 * Z.of_nat (ntriples l) + 2 =? -1) with false
      by (symmetry; apply Z.eqb_neq; lia).
    replace (4 * Z.of_nat (ntriples l) + 2 =? 4 * Z.of_nat (ntriples l) + 4)
      with false by (symmetry; apply Z.eqb_neq; lia).
    do 2 f_equal. divmod.
  - rewrite (indexOf_first _ _ _ NP).
    replace (Z.of_nat (length body + 1))
      with (4 * Z.of_nat (ntriples l) + 4) by lia.
    replace ((4 * Z.of_nat (ntriples l) + 4) mod 4) with 0
      by (divmod).
    cbn [Z.gtb Z.compare]. rewrite L.
    replace (4 * Z.of_nat (ntriples l) + 3 =? -1) with false
      by (symmetry; apply Z.eqb_neq; lia).
    replace (4 * Z.of_nat (ntriples l) + 3 =? 4 * Z.of_nat (ntriples l) + 4)
      with false by (symmetry; apply Z.eqb_neq; lia).
    do 2 f_equal. divmod.
Qed.

Theorem toByteArray_fromByteArray (l : list byte) :
  base64.toByteArray (base64.fromByteArray l) = Return l.
Proof.
  unfold base64.toByteArray. rewrite getLens_fromByteArray. cbn [bind].
  pose proof (length_split3 l) as Len.
  pose proof (decodeQuads_fromByteArray l) as Q.
  pose proof (length_full l) as LF.
  pose proof (full_extra l) as FE.
  unfold pad_of, tail_chars, base64._byteLength, newUint8Array.
  set (k := Z.of_nat (ntriples l)) in *.
  destruct (extra_cases l) as [X | [[a X] | [a [b X]]]]; rewrite X in *;
    cbn [length Z.of_nat Pos.of_succ_nat Pos.succ Z.gtb Z.compare Pos.compare
         Pos.compare_cont] in *.
  - replace ((4 * k + 0 + 0) * 3 / 4 - 0) with (3 * k)
      by (divmod).
    replace (3 * k <? 0) with false by (symmetry; apply Z.ltb_ge; lia).
    cbn [bind].
    replace (base64.iterations (4 * k + 0)) with (ntriples l)
      by (unfold base64.iterations; subst k; divmod).
    rewrite Q. unfold base64.decodeTail. cbn [Z.eqb].
    rewrite app_nil_r in *. rewrite store_exact; [congruence |].
    rewrite repeat_length. lia.
  - replace ((4 * k + 2 + 2) * 3 / 4 - 2) with (3 * k + 1)
      by (divmod).
    replace (3 * k + 1 <? 0) with false by (symmetry; apply Z.ltb_ge; lia).
    cbn [bind].
    replace (base64.iterations (4 * k + 2 - 4)) with (ntriples l)
      by (unfold base64.iterations; subst k; divmod).
    rewrite Q, decodeTail_one. rewrite store_exact; [congruence |].
    rewrite repeat_length, length_app. cbn [length]. lia.
  - replace ((4 * k + 3 + 1) * 3 / 4 - 1) with (3 * k + 2)
      by (divmod).
    replace (3 * k + 2 <? 0) with false by (symmetry; apply Z.ltb_ge; lia).
    cbn [bind].
    replace (base64.iterations (4 * k + 3 - 4)) with (ntriples l)
      by (unfold base64.iterations; subst k; divmod).
    rewrite Q, decodeTail_two. rewrite store_exact; [congruence |].
    rewrite repeat_length, length_app. cbn [length]. lia.
Qed.

(** ** base64url *)

Lemma encode_replacements (s : jsstring) :
  replace_all (cu "/") (cu "_") (replace_all (cu "+") (cu "-") s) = map to_url s.
Proof. unfold replace_all. rewrite map_map. reflexivity. Qed.

Lemma decode_replacements (s : jsstring) :
  replace_all (cu "_") (cu "/") (replace_all (cu "-") (cu "+") s) = map from_url s.
Proof. unfold replace_all. rewrite map_map. reflexivity. Qed.

Lemma remove_all_absent (c : codeunit) (s : jsstring) :
  Forall (fun x => x <> c) s -> remove_all c s = s.
Proof.
  induction 1 as [| x r Hx _ IH]; [reflexivity |].
  unfold remove_all in *. cbn [filter].
  apply N.eqb_neq in Hx. rewrite Hx. cbn [negb]. rewrite IH. reflexivity.
Qed.

Lemma remove_all_repeat (c : codeunit) (n : nat) : remove_all c (repeat c n) = [].
Proof.
  induction n as [| n IH]; [reflexivity |].
  unfold remove_all in *. cbn [repeat filter]. rewrite N.eqb_refl. exact IH.
Qed.

Lemma remove_all_app (c : codeunit) (s t : jsstring) :
  remove_all c (s ++ t) = remove_all c s ++ remove_all c t.
Proof. unfold remove_all. apply filter_app. Qed.

Lemma map_to_url_repeat (n : nat) :
  map to_url (repeat (cu "=") n) = repeat (cu "=") n.
Proof. induction n as [| n IH]; [reflexivity |]. cbn [repeat map]. rewrite IH. reflexivity. Qed.

(** [encode] emits the alphabet characters of [fromByteArray], in their
    base64url form, and nothing else. *)
Lemma encode_shape (l : list byte) :
  exists body,
    base64.fromByteArray l = body ++ repeat (cu "=") (pad_of l)
    /\ forallb std_char body = true
    /\ Z.of_nat (length body) = 4 * Z.of_nat (ntriples l) + tail_chars l
    /\ base64url.encode l = map to_url body.
Proof.
  destruct (fromByteArray_shape l) as [body [E [T L]]].
  exists body. repeat split; try assumption.
  unfold base64url.encode. cbv zeta.
  rewrite encode_replacements, E, map_app, map_to_url_repeat.
  rewrite remove_all_app, remove_all_repeat, app_nil_r. apply remove_all_absent.
  rewrite Forall_forall. intros x Hx. apply in_map_iff in Hx.
  destruct Hx as [c [<- Hc]]. rewrite forallb_forall in T.
  apply (std_char_spec c (T c Hc)).
Qed.

Lemma encode_no_dot (l : list byte) :
  Forall (fun x => x <> cu ".") (base64url.encode l).
Proof.
  destruct (encode_shape l) as [body [_ [T [_ E]]]]. rewrite E.
  rewrite Forall_forall. intros x Hx. apply in_map_iff in Hx.
  destruct Hx as [c [<- Hc]]. rewrite forallb_forall in T.
  apply (std_char_spec c (T c Hc)).
Qed.

Theorem decode_encode (l : list byte) :
  base64url.decode (base64url.encode l) = Return l.
Proof.
  destruct (encode_shape l) as [body [E [T [L Enc]]]].
  unfold base64url.decode. cbv zeta.
  rewrite decode_replacements, Enc, map_map.
  assert (Id : map (fun x => from_url (to_url x)) body = body).
  { rewrite <- (map_id body) at 2. apply map_ext_in. intros c Hc.
    rewrite forallb_forall in T. apply (std_char_spec c (T c Hc)). }
  rewrite Id, L.
  assert (P : Z.to_nat ((4 - (4 * Z.of_nat (ntriples l) + tail_chars l) mod 4) mod 4)
              = pad_of l).
  { unfold tail_chars, pad_of.
    destruct (extra_cases l) as [X | [[a X] | [a [b X]]]]; rewrite X;
      divmod. }
  rewrite P, <- E. apply toByteArray_fromByteArray.
Qed.

(** ** Splitting on the dot *)


Lemma split_dot_free (s : jsstring) : dot_free s -> split (cu ".") s = [s].
Proof.
  induction 1 as [| x r Hx _ IH]; [reflexivity |].
  cbn [split]. apply N.eqb_neq in Hx. rewrite Hx, IH. reflexivity.
Qed.

Lemma split_segment (h r : jsstring) :
  dot_free h -> split (cu ".") (h ++ js "." ++ r) = h :: split (cu ".") r.
Proof.
  induction 1 as [| x h' Hx _ IH].
  - reflexivity.
  - cbn [app split] in *. apply N.eqb_neq in Hx. rewrite Hx, IH. reflexivity.
Qed.

Lemma split_three (h p s : jsstring) :
  dot_free h -> dot_free p -> dot_free s ->
  split (cu ".") (h ++ js "." ++ p ++ js "." ++ s) = [h; p; s].
Proof.
  intros Hh Hp Hs.
  rewrite split_segment, split_segment, split_dot_free by assumption.
  reflexivity.
Qed.

Lemma dots_app (s t : jsstring) : dots (s ++ t) = (dots s + dots t)%nat.
Proof. apply count_occ_app. Qed.

Lemma dots_dot_free (s : jsstring) : dot_free s -> dots s = 0%nat.
Proof.
  intros H. apply count_occ_not_In. intros Hin.
  unfold dot_free in H. rewrite Forall_forall in H. exact (H _ Hin eq_refl).
Qed.

(** ** The stand-in signature scheme meets the assumptions *)

Lemma pad32_length (m : list byte) : length (Stub.pad32 m) = 32%nat.
Proof.
  unfold Stub.pad32. rewrite length_firstn, length_app, repeat_length. lia.
Qed.

Lemma pad32_id (m : list byte) : length m = 32%nat -> Stub.pad32 m = m.
Proof.
  intros H. unfold Stub.pad32.
  rewrite firstn_app, H, Nat.sub_diag, firstn_O, app_nil_r, <- H.
  apply firstn_all.
Qed.

Lemma bytes_eqb_refl (a : list byte) : Stub.bytes_eqb a a = true.
Proof.
  induction a as [| x a IH]; [reflexivity |].
  cbn [Stub.bytes_eqb]. rewrite IH, (Byte.byte_dec_lb eq_refl). reflexivity.
Qed.

Lemma stub_correct : ed25519_correct Stub.ed25519.
Proof.
  constructor; unfold key_pair, Stub.ed25519;
    cbn [sign verify generateKeyPairFromSeed publicKey secretKey].
  - intros seed H. split; [apply pad32_length | reflexivity].
  - intros sk m H. eexists. split; [reflexivity |].
    rewrite length_app, length_skipn, pad32_length. lia.
  - intros sk pk m sig [seed [Hs Hk]] Hsig.
    assert (Esig : sig = skipn 32 sk ++ Stub.pad32 m) by congruence.
    assert (Epk : pk = Stub.pad32 seed) by congruence.
    assert (Esk : sk = seed ++ Stub.pad32 seed) by congruence.
    clear Hk Hsig. subst sk pk sig.
    rewrite skipn_app, skipn_all2, Hs, Nat.sub_diag by lia. cbn [skipn app].
    rewrite length_app, !pad32_length. cbn [Nat.eqb Nat.add].
    rewrite bytes_eqb_refl. reflexivity.
  - intros pk m sig H. apply Nat.eqb_neq in H. rewrite H. discriminate.
Qed.

Lemma stub_key_pair : key_pair Stub.ed25519 Stub.sk Stub.pk.
Proof. exists Stub.seed. split; reflexivity. Qed.

(** ** Matching key pairs *)

Lemma key_pair_length (ed25519 : ed25519_lib) (sk pk : list byte) :
  ed25519_correct ed25519 -> key_pair ed25519 sk pk ->
  length sk = 64%nat /\ length pk = 32%nat /\ skipn 32 sk = pk.
Proof.
  intros C [seed [Hs Hk]].
  destruct (keypair_shape _ C seed Hs) as [Lp Es].
  rewrite Hk in Lp, Es. cbn in Lp, Es. subst sk.
  rewrite length_app, Hs, Lp. repeat split.
  rewrite skipn_app, skipn_all2, Hs, Nat.sub_diag by lia. reflexivity.
Qed.

(** ** DID derivation *)

(** The rounds given to [pushCarry] are enough: more change nothing. *)
Lemma pushCarry_fuel (fuel fuel' : nat) (carry : Z) :
  (Z.to_nat carry <= fuel)%nat -> (Z.to_nat carry <= fuel')%nat ->
  base58.pushCarry fuel carry = base58.pushCarry fuel' carry.
Proof.
  revert fuel' carry. induction fuel as [| fuel IH]; intros fuel' carry H H'.
  - assert (C : carry <= 0) by lia.
    destruct fuel' as [| f]; [reflexivity |]. cbn [base58.pushCarry].
    replace (carry >? 0) with false
      by (symmetry; rewrite Z.gtb_ltb; apply Z.ltb_ge; lia).
    reflexivity.
  - destruct fuel' as [| f]; cbn [base58.pushCarry].
    + replace (carry >? 0) with false
        by (symmetry; rewrite Z.gtb_ltb; apply Z.ltb_ge; lia).
      reflexivity.
    + destruct (carry >? 0) eqn:E; [| reflexivity].
      rewrite Z.gtb_ltb in E. apply Z.ltb_lt in E.
      assert (D : carry / base58.base < carry)
        by (apply Z.div_lt; [exact E | reflexivity]).
      assert (D0 : 0 <= carry / base58.base)
        by (apply Z.div_pos; [lia | reflexivity]).
      f_equal. apply IH; lia.
Qed.

Lemma createDidFromPublicKey_any (publicKey : list byte) :
  createDidFromPublicKey publicKey
  = Return (js "did:key:z" ++ base58.encode ([xed; x01] ++ publicKey)).
Proof.
  unfold createDidFromPublicKey, newUint8Array, ED25519_MULTICODEC_PREFIX.
  replace (Z.of_nat (length [xed; x01] + length publicKey) <? 0) with false
    by (symmetry; apply Z.ltb_ge; lia).
  rewrite Nat2Z.id. cbn [bind length Nat.add repeat].
  unfold Uint8Array_set at 1. cbn [length Nat.add Nat.ltb Nat.leb firstn skipn app bind].
  unfold Uint8Array_set. cbn [length Nat.add].
  rewrite repeat_length.
  replace (S (S (length publicKey)) <? S (S (length publicKey)))%nat with false
    by (symmetry; apply Nat.ltb_ge; lia).
  cbn [bind firstn].
  rewrite skipn_all2 by (cbn [length]; rewrite repeat_length; lia).
  rewrite app_nil_r. reflexivity.
Qed.

(** ** Signing and verifying *)

Section Claims.

Variable ed25519 : ed25519_lib.
Variable JSON_stringify : JSValue -> jsstring.
Hypothesis ed25519_ok : ed25519_correct ed25519.


Lemma createJWT_returns (payload : JSValue) (privateKey : jsstring) (sk : list byte) :
  base64.toByteArray privateKey = Return sk ->
  length sk = 64%nat ->
  exists signature,
    ed25519.(sign) sk
      (TextEncoder_encode (segment_of JSON_stringify JWTHeader ++ js "." ++ segment_of JSON_stringify payload))
    = Return signature
    /\ createJWT ed25519 JSON_stringify payload privateKey
       = Return (segment_of JSON_stringify JWTHeader ++ js "." ++ segment_of JSON_stringify payload ++ js "."
                 ++ base64url.encode signature).
Proof.
  intros Hk Hl. unfold createJWT. rewrite Hk. cbn [bind].
  rewrite Hl. cbn [Nat.eqb negb]. cbv zeta.
  fold (segment_of JSON_stringify JWTHeader).
  fold (segment_of JSON_stringify payload).
  destruct (sign_returns _ ed25519_ok sk
              (TextEncoder_encode (segment_of JSON_stringify JWTHeader ++ js "." ++ segment_of JSON_stringify payload)) Hl)
    as [signature [Hs _]].
  exists signature. split; [exact Hs |].
  rewrite Hs. cbn [bind]. rewrite <- !app_assoc. reflexivity.
Qed.

Lemma verifyJWT_segments (jwt : jsstring) (pk : list byte) (h p s : jsstring) :
  split (cu ".") jwt = [h; p; s] ->
  verifyJWT ed25519 jwt pk
  = try_catch
      (signatureBytes <- base64url.decode s ;;
       ed25519.(verify) pk (TextEncoder_encode (h ++ js "." ++ p)) signatureBytes)
      (fun _ => Return false).
Proof.
  intros H. unfold verifyJWT. rewrite H. reflexivity.
Qed.

Lemma verifyJWT_signed (sk pk : list byte) (h p : jsstring) (signature : list byte) :
  key_pair ed25519 sk pk -> dot_free h -> dot_free p ->
  ed25519.(sign) sk (TextEncoder_encode (h ++ js "." ++ p)) = Return signature ->
  verifyJWT ed25519 (h ++ js "." ++ p ++ js "." ++ base64url.encode signature) pk
  = Return true.
Proof.
  intros Hkp Hh Hp Hs.
  rewrite (verifyJWT_segments _ pk h p (base64url.encode signature))
    by (apply split_three; try assumption; apply encode_no_dot).
  rewrite decode_encode. cbn [bind].
  rewrite (verify_sign _ ed25519_ok sk pk _ signature Hkp Hs). reflexivity.
Qed.

Lemma sign_then_verify (payload : JSValue) (sk pk : list byte) :
  key_pair ed25519 sk pk ->
  exists jwt,
    createJWT ed25519 JSON_stringify payload (base64.fromByteArray sk) = Return jwt
    /\ verifyJWT ed25519 jwt pk = Return true.
Proof.
  intros Hkp.
  destruct (key_pair_length _ _ _ ed25519_ok Hkp) as [Hl _].
  destruct (createJWT_returns payload _ sk (toByteArray_fromByteArray sk) Hl)
    as [signature [Hs Hj]].
  eexists. split; [exact Hj |].
  apply (verifyJWT_signed sk); try assumption; apply encode_no_dot.
Qed.

(** C1. Round trip: for every matching key pair and every payload, the
    assertion [createJWT] produces with the base64 of the secret key
    verifies against the public key. *)
Theorem verify_createJWT (payload : JSValue) (sk pk : list byte) :
  key_pair ed25519 sk pk ->
  jwt <- createJWT ed25519 JSON_stringify payload (base64.fromByteArray sk) ;;
  verifyJWT ed25519 jwt pk
  = Return true.
Proof.
  intros Hkp. destruct (sign_then_verify payload sk pk Hkp) as [jwt [Hj Hv]].
  rewrite Hj. exact Hv.
Qed.

(** C2. With a private key that decodes to 64 bytes, [createJWT] returns the
    base64url of the UTF-8 of the header JSON, a dot, the base64url of the
    UTF-8 of the payload JSON, a dot, and the base64url of the signature;
    the signature is the one made over the UTF-8 bytes of the first two
    segments joined by a dot; the result has exactly two dots and splits
    into exactly these three segments. *)
Theorem createJWT_format (payload : JSValue) (privateKey : jsstring) (sk : list byte) :
  base64.toByteArray privateKey = Return sk ->
  length sk = 64%nat ->
  let headerB64 := base64url.encode (TextEncoder_encode (JSON_stringify JWTHeader)) in
  let payloadB64 := base64url.encode (TextEncoder_encode (JSON_stringify payload)) in
  exists signature,
    ed25519.(sign) sk (TextEncoder_encode (headerB64 ++ js "." ++ payloadB64))
    = Return signature
    /\ let jwt := headerB64 ++ js "." ++ payloadB64 ++ js "."
                  ++ base64url.encode signature in
       createJWT ed25519 JSON_stringify payload privateKey = Return jwt
       /\ dots jwt = 2%nat
       /\ split (cu ".") jwt = [headerB64; payloadB64; base64url.encode signature].
Proof.
  intros Hk Hl headerB64 payloadB64.
  destruct (createJWT_returns payload privateKey sk Hk Hl) as [signature [Hs Hj]].
  exists signature. split; [exact Hs |]. cbv zeta. split; [exact Hj |]. split.
  - rewrite !dots_app.
    rewrite (dots_dot_free headerB64), (dots_dot_free payloadB64),
      (dots_dot_free (base64url.encode signature)) by apply encode_no_dot.
    reflexivity.
  - apply split_three; apply encode_no_dot.
Qed.

(** C10. [verifyJWT] never decodes or validates the header and payload
    segments: for any dot-free strings [h] and [p], whatever they contain,
    the string [h.p.base64url(sign(sk, utf8(h.p)))] verifies true against
    the matching public key. *)
Theorem verifyJWT_ignores_segment_content (sk pk : list byte) (h p : jsstring) :
  key_pair ed25519 sk pk -> dot_free h -> dot_free p ->
  exists signature,
    ed25519.(sign) sk (TextEncoder_encode (h ++ js "." ++ p)) = Return signature
    /\ verifyJWT ed25519
         (h ++ js "." ++ p ++ js "." ++ base64url.encode signature) pk
       = Return true.
Proof.
  intros Hkp Hh Hp.
  destruct (key_pair_length _ _ _ ed25519_ok Hkp) as [Hl _].
  destruct (sign_returns _ ed25519_ok sk
              (TextEncoder_encode (h ++ js "." ++ p)) Hl) as [signature [Hs _]].
  exists signature. split; [exact Hs |].
  apply (verifyJWT_signed sk); assumption.
Qed.

(** C7. [verifyJWT] makes no expiry check: its result is a function of the
    three segments and the public key alone, and an assertion signed over a
    payload whose [exp] lies before the time [now] of verification still
    verifies true. *)
Theorem verifyJWT_no_expiry_check :
  (forall jwt pk h p s,
      split (cu ".") jwt = [h; p; s] ->
      verifyJWT ed25519 jwt pk
      = try_catch
          (signatureBytes <- base64url.decode s ;;
           ed25519.(verify) pk (TextEncoder_encode (h ++ js "." ++ p))
             signatureBytes)
          (fun _ => Return false))
  /\
  (forall payload sk pk exp now,
      key_pair ed25519 sk pk ->
      get payload (js "exp") = Some (JSNumber exp) ->
      exp < now ->
      exists jwt,
        createJWT ed25519 JSON_stringify payload (base64.fromByteArray sk)
        = Return jwt
        /\ verifyJWT ed25519 jwt pk = Return true).
Proof.
  split.
  - intros jwt pk h p s H. apply verifyJWT_segments. exact H.
  - intros payload sk pk exp now Hkp _ _. apply sign_then_verify. exact Hkp.
Qed.

(** C3 (as amended). [verifyJWT] never throws; it returns false for every
    input whose split on the dot does not yield exactly three segments, and
    for every input with three segments of which the third is empty. *)
Theorem verifyJWT_rejects_malformed (jwt : jsstring) (pk : list byte) :
  (exists b, verifyJWT ed25519 jwt pk = Return b)
  /\ (length (split (cu ".") jwt) <> 3%nat ->
      verifyJWT ed25519 jwt pk = Return false)
  /\ (forall h p, split (cu ".") jwt = [h; p; []] ->
      verifyJWT ed25519 jwt pk = Return false).
Proof.
  repeat split.
  - unfold verifyJWT, try_catch.
    match goal with
    | |- exists b, match ?body with _ => _ end = _ => destruct body
    end; eauto.
  - intros H. unfold verifyJWT. apply Nat.eqb_neq in H. rewrite H. reflexivity.
  - intros h p H. rewrite (verifyJWT_segments jwt pk h p [] H).
    change (base64url.decode []) with (@Return (list byte) []). cbn [bind].
    assert (L : length (@nil byte) <> 64%nat) by discriminate.
    pose proof (verify_length _ ed25519_ok pk
                  (TextEncoder_encode (h ++ js "." ++ p)) [] L) as V.
    destruct (verify ed25519 pk (TextEncoder_encode (h ++ js "." ++ p)) [])
      as [[|] | e]; [contradiction | reflexivity | reflexivity].
Qed.

(** C6. When the private key string decodes to [bytes], [createJWT] fails
    with the invalid-key-length error if and only if [bytes] is not exactly
    64 bytes long; in that case no assertion is returned. *)
Theorem createJWT_key_length (payload : JSValue) (privateKey : jsstring)
    (bytes : list byte) :
  base64.toByteArray privateKey = Return bytes ->
  (createJWT ed25519 JSON_stringify payload privateKey
   = Throw invalid_private_key_length
   <-> length bytes <> 64%nat)
  /\ (length bytes <> 64%nat ->
      forall jwt, createJWT ed25519 JSON_stringify payload privateKey <> Return jwt).
Proof.
  intros Hk.
  assert (T : length bytes <> 64%nat ->
              createJWT ed25519 JSON_stringify payload privateKey
              = Throw invalid_private_key_length).
  { intros H. unfold createJWT. rewrite Hk. cbn [bind].
    apply Nat.eqb_neq in H. rewrite H. reflexivity. }
  split; [split |].
  - intros H Hl.
    destruct (createJWT_returns payload privateKey bytes Hk Hl) as [sg [_ Hj]].
    rewrite Hj in H. discriminate H.
  - exact T.
  - intros H jwt Hj. rewrite (T H) in Hj. discriminate Hj.
Qed.

Lemma profileDetailsPayload_window (h : Host) (profile : Profile) :
  fixed_window (profileDetailsPayload h profile).
Proof. exists (Date_now h / 1000). repeat split. lia. Qed.

Lemma avatarPayload_window (h : Host) (profile : Profile) (a : jsstring) :
  fixed_window (avatarPayload h profile a).
Proof. exists (Date_now h / 1000). repeat split. lia. Qed.

Lemma decoded_key_nonempty (privateKey : jsstring) (sk : list byte) :
  base64.toByteArray privateKey = Return sk -> length sk = 64%nat ->
  falsy (Some privateKey) = false.
Proof.
  intros Hk Hl. destruct privateKey as [| c r]; [| reflexivity].
  vm_compute in Hk. injection Hk as <-. discriminate Hl.
Qed.

(** C8. The two payloads the facade builds have [exp] equal to [iat] plus
    120, hence greater than [iat]; every assertion the facade returns is
    [createJWT] of such a payload; and with a stored profile and a stored
    key of 64 bytes the facade does return one. *)
Theorem issued_payload_window (h : Host) :
  (forall profile, fixed_window (profileDetailsPayload h profile))
  /\ (forall profile a, fixed_window (avatarPayload h profile a))
  /\ (forall jwt,
      getProfileDetails ed25519 JSON_stringify h = Return jwt ->
      exists profile privateKey,
        h.(getProfile) = Some profile
        /\ h.(getPrivateKey) = Some privateKey
        /\ createJWT ed25519 JSON_stringify (profileDetailsPayload h profile)
             privateKey = Return jwt)
  /\ (forall jwt,
      getAvatar ed25519 JSON_stringify h = Return (Some jwt) ->
      exists profile privateKey a,
        h.(getProfile) = Some profile
        /\ h.(getPrivateKey) = Some privateKey
        /\ profile.(avatar) = Some a
        /\ createJWT ed25519 JSON_stringify (avatarPayload h profile a)
             privateKey = Return jwt)
  /\ (forall profile privateKey sk,
      h.(getProfile) = Some profile ->
      h.(getPrivateKey) = Some privateKey ->
      base64.toByteArray privateKey = Return sk -> length sk = 64%nat ->
      (exists jwt, getProfileDetails ed25519 JSON_stringify h = Return jwt)
      /\ (forall a, profile.(avatar) = Some a -> a <> [] ->
          exists jwt, getAvatar ed25519 JSON_stringify h = Return (Some jwt))).
Proof.
  split; [apply profileDetailsPayload_window |].
  split; [apply avatarPayload_window |].
  split; [| split].
  - intros jwt H. unfold getProfileDetails in H.
    destruct (getProfile h) as [profile |]; [| discriminate H].
    destruct (getPrivateKey h) as [privateKey |]; [| discriminate H].
    destruct (falsy (Some privateKey)); [discriminate H |].
    exists profile, privateKey. repeat split; assumption.
  - intros jwt H. unfold getAvatar in H.
    destruct (getProfile h) as [profile |]; [| discriminate H].
    destruct (getPrivateKey h) as [privateKey |]; [| discriminate H].
    destruct (falsy (Some privateKey)); [discriminate H |].
    destruct (falsy (avatar profile)); [discriminate H |].
    destruct (avatar profile) as [a |] eqn:Ea; [| discriminate H].
    exists profile, privateKey, a. repeat split; try assumption.
    destruct (createJWT ed25519 JSON_stringify (avatarPayload h profile a)
                privateKey) as [j | e]; cbn [bind] in H; congruence.
  - intros profile privateKey sk Hp Hk Hd Hl.
    pose proof (decoded_key_nonempty privateKey sk Hd Hl) as F.
    split.
    + unfold getProfileDetails. rewrite Hp, Hk, F.
      destruct (createJWT_returns (profileDetailsPayload h profile)
                  privateKey sk Hd Hl) as [sg [_ Hj]].
      rewrite Hj. eauto.
    + intros a Ha Hne. unfold getAvatar. rewrite Hp, Hk, F, Ha.
      destruct a as [| c r]; [contradiction |]. cbn [falsy].
      destruct (createJWT_returns (avatarPayload h profile (c :: r))
                  privateKey sk Hd Hl) as [sg [_ Hj]].
      rewrite Hj. cbn [bind]. eauto.
Qed.

(** The only caller of [createDidFromPublicKey] passes the 32-byte public
    key of a fresh key pair. *)
Lemma generateProfileKeys_did (seed : list byte) :
  length seed = 32%nat ->
  exists sk pk,
    key_pair ed25519 sk pk /\ length pk = 32%nat
    /\ generateProfileKeys ed25519 seed
       = Return {| pk_privateKey := base64.fromByteArray sk;
                   pk_publicKey := base64.fromByteArray pk;
                   pk_did := js "did:key:z" ++ base58.encode ([xed; x01] ++ pk) |}.
Proof.
  intros Hs.
  destruct (generateKeyPairFromSeed ed25519 seed) as [pk sk] eqn:E.
  assert (Hkp : key_pair ed25519 sk pk) by (exists seed; split; assumption).
  exists sk, pk. split; [exact Hkp |].
  split; [apply (key_pair_length _ _ _ ed25519_ok Hkp) |].
  unfold generateProfileKeys, generateKeyPair. rewrite E.
  cbn [publicKey secretKey]. rewrite createDidFromPublicKey_any. reflexivity.
Qed.

(** Empty header and payload segments are not rejected: signed, they verify. *)
Lemma verifyJWT_empty_segments (sk pk : list byte) :
  key_pair ed25519 sk pk ->
  exists signature,
    ed25519.(sign) sk (TextEncoder_encode (js ".")) = Return signature
    /\ verifyJWT ed25519 (js ".." ++ base64url.encode signature) pk = Return true.
Proof.
  intros Hkp.
  destruct (key_pair_length _ _ _ ed25519_ok Hkp) as [Hl _].
  destruct (sign_returns _ ed25519_ok sk (TextEncoder_encode (js ".")) Hl)
    as [signature [Hs _]].
  exists signature. split; [exact Hs |].
  apply (verifyJWT_signed sk pk [] [] signature Hkp); try constructor.
  exact Hs.
Qed.

End Claims.

(** C3, counterexample. The claim as stated fails: with a signature
    primitive that meets the assumptions, the input [..sig], whose first two
    segments are empty, verifies true. *)
Lemma verifyJWT_accepts_empty_segments :
  ~ (forall ed25519, ed25519_correct ed25519 ->
     forall jwt pk, ~ three_nonempty_segments jwt ->
                    verifyJWT ed25519 jwt pk = Return false).
Proof.
  intros H.
  specialize (H Stub.ed25519 stub_correct Stub.empty_segments_jwt Stub.pk).
  assert (N : ~ three_nonempty_segments Stub.empty_segments_jwt).
  { intros [h [p [s [Hs [Hh _]]]]]. vm_compute in Hs.
    injection Hs as Eh _ _. apply Hh. symmetry. exact Eh. }
  specialize (H N). vm_compute in H. discriminate H.
Qed.

(** ** DID derivation: the claims *)

(** C4, counterexample. From the empty key the function returns a DID, not
    an error. *)
Lemma createDidFromPublicKey_empty_key :
  length (@nil byte) <> 32%nat
  /\ createDidFromPublicKey [] = Return (js "did:key:zK36").
Proof. split; [discriminate | vm_compute; reflexivity]. Qed.

(** C4 (as amended). [createDidFromPublicKey] makes no length check: for a
    key of any length other than 32 it returns, without failing,
    ["did:key:z"] followed by the base58btc of the prefix [0xED 0x01] and
    the key bytes. *)
Theorem createDidFromPublicKey_no_length_check (publicKey : list byte) :
  length publicKey <> 32%nat ->
  createDidFromPublicKey publicKey
  = Return (js "did:key:z" ++ base58.encode ([xed; x01] ++ publicKey)).
Proof. intros _. apply createDidFromPublicKey_any. Qed.

(** C5. For a 32-byte public key the DID is ["did:key:z"] followed by the
    base58btc of the 34 bytes [0xED 0x01] followed by [pub], and equal keys give equal
    DIDs. *)
Theorem createDidFromPublicKey_spec (pub : list byte) :
  length pub = 32%nat ->
  createDidFromPublicKey pub
  = Return (js "did:key:z" ++ base58.encode ([xed; x01] ++ pub))
  /\ length ([xed; x01] ++ pub) = 34%nat
  /\ (forall pub', pub' = pub ->
      createDidFromPublicKey pub' = createDidFromPublicKey pub).
Proof.
  intros H. split; [apply createDidFromPublicKey_any |]. split.
  - cbn [app length]. rewrite H. reflexivity.
  - intros pub' ->. reflexivity.
Qed.

(** ** base64url: what [decode] accepts *)

Lemma from_url_pad (x : codeunit) : from_url x = cu "=" <-> x = cu "=".
Proof.
  unfold from_url.
  destruct (N.eqb_spec x (cu "-")) as [-> | H1].
  - vm_compute. split; discriminate.
  - destruct (N.eqb_spec x (cu "_")) as [-> | H2].
    + vm_compute. split; discriminate.
    + reflexivity.
Qed.

Lemma indexOf_zero (c : codeunit) (s : jsstring) :
  indexOf c s = 0 <-> exists r, s = c :: r.
Proof.
  destruct s as [| x r]; cbn [indexOf].
  - split; [discriminate | intros [r' H]; discriminate H].
  - destruct (N.eqb_spec x c) as [-> | Hx].
    + split; eauto.
    + pose proof (indexOf_range c r) as R.
      destruct (indexOf c r <? 0) eqn:E.
      * split; [discriminate | intros [r' H]; congruence].
      * apply Z.ltb_ge in E.
        split; [lia | intros [r' H]; congruence].
Qed.

Lemma padded_length (n : Z) :
  0 <= n -> (n + Z.of_nat (Z.to_nat ((4 - n mod 4) mod 4))) mod 4 = 0.
Proof. intros H. divmod. Qed.

(** The string handed to [toByteArray] begins with ['='] exactly when the
    input does. *)
Lemma padded_starts_with_pad (s : jsstring) (n : nat) (r : jsstring) :
  s <> [] -> map from_url s ++ repeat (cu "=") n = cu "=" :: r ->
  starts_with_pad s.
Proof.
  destruct s as [| x s']; [contradiction |]. intros _ H.
  cbn [map app] in H. injection H as Hx _.
  apply (proj1 (from_url_pad x)) in Hx. exists s'. rewrite Hx. reflexivity.
Qed.

Lemma decode_returns (s : jsstring) :
  ~ starts_with_pad s -> exists bytes, base64url.decode s = Return bytes.
Proof.
  intros NS. unfold base64url.decode. cbv zeta. rewrite decode_replacements.
  rewrite length_map.
  set (n := Z.to_nat ((4 - Z.of_nat (length s) mod 4) mod 4)).
  set (P := map from_url s ++ repeat (cu "=") n).
  assert (LP : Z.of_nat (length P) mod 4 = 0).
  { subst P n. rewrite length_app, length_map, repeat_length, Nat2Z.inj_add.
    apply padded_length. lia. }
  unfold base64.toByteArray, base64.getLens. rewrite LP.
  cbn [Z.gtb Z.compare bind]. cbv zeta.
  set (v := if indexOf (cu "=") P =? -1 then Z.of_nat (length P)
            else indexOf (cu "=") P).
  set (ph := if v =? Z.of_nat (length P) then 0 else 4 - v mod 4).
  unfold newUint8Array.
  destruct (base64._byteLength v ph <? 0) eqn:E.
  - exfalso. apply Z.ltb_lt in E. unfold base64._byteLength in E.
    pose proof (indexOf_range (cu "=") P) as R.
    pose proof (indexOf_zero (cu "=") P) as Z0.
    subst ph v.
    destruct (Z.eqb_spec (indexOf (cu "=") P) (-1)) as [I | I].
    + rewrite Z.eqb_refl in E. divmod.
    + destruct (Z.eqb_spec (indexOf (cu "=") P) (Z.of_nat (length P))) as [J | J];
        [lia |].
      destruct (Z.eq_dec (indexOf (cu "=") P) 0) as [K | K].
      * apply Z0 in K. destruct K as [r K]. apply NS.
        destruct s as [| x s'].
        -- subst P n. cbn in K. discriminate K.
        -- apply (padded_starts_with_pad (x :: s') n r); [discriminate | exact K].
      * divmod.
  - cbn [bind].
    destruct (base64.decodeQuads _ P) as [bytes rest]. eauto.
Qed.

Lemma decode_throws (s : jsstring) :
  starts_with_pad s ->
  base64url.decode s = Throw (RangeError "Invalid typed array length").
Proof.
  intros [r ->]. unfold base64url.decode. cbv zeta. rewrite decode_replacements.
  rewrite length_map.
  set (n := Z.to_nat ((4 - Z.of_nat (length (cu "=" :: r)) mod 4) mod 4)).
  set (P := map from_url (cu "=" :: r) ++ repeat (cu "=") n).
  assert (LP : Z.of_nat (length P) mod 4 = 0).
  { subst P n. rewrite length_app, length_map, repeat_length, Nat2Z.inj_add.
    apply padded_length. lia. }
  assert (I : indexOf (cu "=") P = 0) by reflexivity.
  assert (L : 0 < Z.of_nat (length P)) by (subst P; cbn [map app length]; lia).
  unfold base64.toByteArray, base64.getLens. rewrite LP, I.
  cbn [Z.gtb Z.compare bind Z.eqb]. cbv zeta.
  replace (0 =? Z.of_nat (length P)) with false
    by (symmetry; apply Z.eqb_neq; lia).
  reflexivity.
Qed.

(** C9, counterexample. A one-character input, of a length no unpadded
    encoding has, and an input outside the alphabet both decode to bytes. *)
Lemma decode_accepts_malformed :
  (Z.of_nat (length (js "A")) mod 4 = 1
   /\ base64url.decode (js "A") = Return [])
  /\ (std_char (from_url (cu "!")) = false
      /\ base64url.decode (js "!!!!") = Return [x00; x00; x00]).
Proof. vm_compute. repeat split. Qed.

(** C9 (as amended). [decode] is a left inverse of [encode]; it validates
    neither the alphabet nor the length: it returns a byte array for every
    input that does not begin with ['='], and fails with a [RangeError] on
    the inputs that do. *)
Theorem base64url_decode_spec :
  (forall b, base64url.decode (base64url.encode b) = Return b)
  /\ (forall s, ~ starts_with_pad s ->
                exists bytes, base64url.decode s = Return bytes)
  /\ (forall s, starts_with_pad s ->
                base64url.decode s = Throw (RangeError "Invalid typed array length")).
Proof.
  split; [exact decode_encode |]. split; [exact decode_returns | exact decode_throws].
Qed.

(** ** The theorems at concrete inputs *)

Lemma verify_createJWT_witness :
  key_pair Stub.ed25519 Stub.sk Stub.pk
  /\ (jwt <- createJWT Stub.ed25519 Stub.JSON_stringify Stub.payload
               (base64.fromByteArray Stub.sk) ;;
      verifyJWT Stub.ed25519 jwt Stub.pk) = Return true.
Proof.
  split; [exact stub_key_pair |].
  exact (verify_createJWT Stub.ed25519 Stub.JSON_stringify stub_correct
           Stub.payload Stub.sk Stub.pk stub_key_pair).
Defined.

Lemma createJWT_format_witness :
  base64.toByteArray Stub.privateKey = Return Stub.sk
  /\ length Stub.sk = 64%nat
  /\ exists jwt,
       createJWT Stub.ed25519 Stub.JSON_stringify Stub.payload Stub.privateKey
       = Return jwt
       /\ dots jwt = 2%nat.
Proof.
  assert (K : base64.toByteArray Stub.privateKey = Return Stub.sk)
    by (vm_compute; reflexivity).
  assert (L : length Stub.sk = 64%nat) by reflexivity.
  split; [exact K |]. split; [exact L |].
  destruct (createJWT_format Stub.ed25519 Stub.JSON_stringify stub_correct
              Stub.payload Stub.privateKey Stub.sk K L) as [sg [_ [Hj [Hd _]]]].
  eexists. split; [exact Hj | exact Hd].
Defined.

Lemma verifyJWT_ignores_segment_content_witness :
  dot_free (js "not base64!") /\ dot_free (js "{")
  /\ exists signature,
       sign Stub.ed25519 Stub.sk
         (TextEncoder_encode (js "not base64!" ++ js "." ++ js "{"))
       = Return signature
       /\ verifyJWT Stub.ed25519
            (js "not base64!" ++ js "." ++ js "{" ++ js "."
             ++ base64url.encode signature) Stub.pk
          = Return true.
Proof.
  assert (H : dot_free (js "not base64!"))
    by (unfold dot_free; repeat (apply Forall_cons; [discriminate |]);
        apply Forall_nil).
  assert (P : dot_free (js "{"))
    by (unfold dot_free; repeat (apply Forall_cons; [discriminate |]);
        apply Forall_nil).
  split; [exact H |]. split; [exact P |].
  exact (verifyJWT_ignores_segment_content Stub.ed25519 stub_correct
           Stub.sk Stub.pk (js "not base64!") (js "{") stub_key_pair H P).
Defined.

Lemma verifyJWT_no_expiry_check_witness :
  get Stub.payload (js "exp") = Some (JSNumber 1120)
  /\ 1120 < 2000
  /\ exists jwt,
       createJWT Stub.ed25519 Stub.JSON_stringify Stub.payload
         (base64.fromByteArray Stub.sk) = Return jwt
       /\ verifyJWT Stub.ed25519 jwt Stub.pk = Return true.
Proof.
  split; [reflexivity |]. split; [reflexivity |].
  exact (proj2 (verifyJWT_no_expiry_check Stub.ed25519 Stub.JSON_stringify
                  stub_correct)
           Stub.payload Stub.sk Stub.pk 1120 2000 stub_key_pair
           eq_refl eq_refl).
Defined.

Lemma verifyJWT_rejects_malformed_witness :
  verifyJWT Stub.ed25519 (js "a.b") Stub.pk = Return false
  /\ verifyJWT Stub.ed25519 (js "a.b.") Stub.pk = Return false.
Proof.
  destruct (verifyJWT_rejects_malformed Stub.ed25519 stub_correct
              (js "a.b") Stub.pk) as [_ [H2 _]].
  destruct (verifyJWT_rejects_malformed Stub.ed25519 stub_correct
              (js "a.b.") Stub.pk) as [_ [_ H3]].
  split.
  - apply H2. vm_compute. discriminate.
  - apply (H3 (js "a") (js "b")). reflexivity.
Defined.

Lemma createJWT_key_length_witness :
  base64.toByteArray (js "AAAA") = Return [x00; x00; x00]
  /\ createJWT Stub.ed25519 Stub.JSON_stringify Stub.payload (js "AAAA")
     = Throw invalid_private_key_length.
Proof.
  split; [reflexivity |].
  apply (proj1 (createJWT_key_length Stub.ed25519 Stub.JSON_stringify
                  stub_correct Stub.payload (js "AAAA") [x00; x00; x00]
                  eq_refl)).
  cbn [length]. discriminate.
Defined.

Lemma issued_payload_window_witness :
  base64.toByteArray Stub.privateKey = Return Stub.sk
  /\ length Stub.sk = 64%nat
  /\ fixed_window (profileDetailsPayload Stub.host Stub.profile)
  /\ exists jwt,
       getProfileDetails Stub.ed25519 Stub.JSON_stringify Stub.host = Return jwt.
Proof.
  assert (K : base64.toByteArray Stub.privateKey = Return Stub.sk)
    by (vm_compute; reflexivity).
  assert (L : length Stub.sk = 64%nat) by reflexivity.
  split; [exact K |]. split; [exact L |].
  destruct (issued_payload_window Stub.ed25519 Stub.JSON_stringify stub_correct
              Stub.host) as [W [_ [_ [_ R]]]].
  split; [exact (W Stub.profile) |].
  exact (proj1 (R Stub.profile Stub.privateKey Stub.sk eq_refl eq_refl K L)).
Defined.

Lemma createDidFromPublicKey_no_length_check_witness :
  length [x00] <> 32%nat
  /\ createDidFromPublicKey [x00]
     = Return (js "did:key:z" ++ base58.encode ([xed; x01] ++ [x00])).
Proof.
  assert (H : length [x00] <> 32%nat) by (cbn [length]; discriminate).
  split; [exact H |].
  exact (createDidFromPublicKey_no_length_check [x00] H).
Defined.

Lemma createDidFromPublicKey_spec_witness :
  length (repeat x00 32) = 32%nat
  /\ createDidFromPublicKey (repeat x00 32)
     = Return (js "did:key:z"
               ++ base58.encode ([xed; x01] ++ repeat x00 32)).
Proof.
  split; [reflexivity |].
  exact (proj1 (createDidFromPublicKey_spec (repeat x00 32) eq_refl)).
Defined.

Lemma base64url_decode_spec_witness :
  ~ starts_with_pad (js "A")
  /\ exists bytes, base64url.decode (js "A") = Return bytes.
Proof.
  assert (H : ~ starts_with_pad (js "A"))
    by (intros [r E]; discriminate E).
  split; [exact H |].
  exact (proj1 (proj2 base64url_decode_spec) (js "A") H).
Defined.

(** ** Fixtures *)

Example did_of_zero_key :
  createDidFromPublicKey (repeat x00 32)
  = Return (js "did:key:z6MkeTG3bFFSLYVU7VqhgZxqr6YzpaGrQtFMh1uvqGy1vDnP").
Proof. vm_compute. reflexivity. Qed.

Example header_segment :
  base64url.encode (TextEncoder_encode (Stub.JSON_stringify JWTHeader))
  = js "eyJhbGciOiJFZERTQSIsInR5cCI6IkpXVCJ9".
Proof. vm_compute. reflexivity. Qed.

Example encode_hello :
  base64url.encode (bytes_of_string "hello?>") = js "aGVsbG8_Pg".
Proof. vm_compute. reflexivity. Qed.

Example decode_hello :
  base64url.decode (js "aGVsbG8_Pg") = Return (bytes_of_string "hello?>").
Proof. vm_compute. reflexivity. Qed.

Example base58_hello :
  base58.encode (bytes_of_string "Hello World!") = js "2NEpo7TZRRrLZSi2U".
Proof. vm_compute. reflexivity. Qed.

(** * Further properties of the code *)

(** ** Segments *)



Lemma utf8_of_codepoint_nonempty (c : Z) : utf8_of_codepoint c <> [].
Proof.
  unfold utf8_of_codepoint.
  destruct (c <? 128); [discriminate |].
  destruct (c <? 2048); [discriminate |].
  destruct (c <? 65536); discriminate.
Qed.

Lemma app_nonempty_l {A} (a b : list A) : a <> [] -> a ++ b <> [].
Proof. destruct a; [contradiction | discriminate]. Qed.

Lemma TextEncoder_encode_nonempty (s : jsstring) :
  s <> [] -> TextEncoder_encode s <> [].
Proof.
  destruct s as [| x r]; [contradiction |]. intros _.
  cbn [TextEncoder_encode]. cbv zeta.
  destruct (is_high_surrogate (Z.of_N x)).
  - destruct r as [| y r']; [apply utf8_of_codepoint_nonempty |].
    destruct (is_low_surrogate (Z.of_N y));
      apply app_nonempty_l, utf8_of_codepoint_nonempty.
  - destruct (is_low_surrogate (Z.of_N x));
      apply app_nonempty_l, utf8_of_codepoint_nonempty.
Qed.

Lemma encode_length (l : list byte) :
  Z.of_nat (length (base64url.encode l)) = (4 * Z.of_nat (length l) + 2) / 3.
Proof.
  destruct (encode_shape l) as [body [_ [_ [L E]]]].
  rewrite E, length_map, L. pose proof (length_split3 l) as S.
  unfold tail_chars.
  destruct (extra_cases l) as [X | [[a X] | [a [b X]]]]; rewrite X in *;
    cbn [length] in S; divmod.
Qed.

Lemma encode_nonempty (l : list byte) : l <> [] -> base64url.encode l <> [].
Proof.
  intros H E. pose proof (encode_length l) as L. rewrite E in L.
  destruct l as [| a r]; [contradiction |]. cbn [length] in L. divmod.
Qed.

Lemma is_empty_false (s : jsstring) : s <> [] -> is_empty s = false.
Proof. destruct s; [contradiction | reflexivity]. Qed.

(** ** [decodeJWT] *)

Section DecodingProperties.

Variable ed25519 : ed25519_lib.
Variable JSON_stringify : JSValue -> jsstring.
Variable JSON_parse : jsstring -> completion JSValue.
Variable TextDecoder_decode : list byte -> jsstring.
Hypothesis ed25519_ok : ed25519_correct ed25519.

(** [decodeJWT] on a string with three non-empty segments. *)
Lemma decodeJWT_segments (jwt h p s : jsstring) :
  split (cu ".") jwt = [h; p; s] -> h <> [] -> p <> [] -> s <> [] ->
  decodeJWT JSON_parse TextDecoder_decode jwt
  = (headerBytes <- base64url.decode h ;;
     payloadBytes <- base64url.decode p ;;
     header <- JSON_parse (TextDecoder_decode headerBytes) ;;
     payload <- JSON_parse (TextDecoder_decode payloadBytes) ;;
     Return {| dj_header := header; dj_payload := payload; dj_signature := s |}).
Proof.
  intros H Hh Hp Hs. unfold decodeJWT. rewrite H. cbn [length Nat.eqb negb].
  rewrite (is_empty_false h Hh), (is_empty_false p Hp), (is_empty_false s Hs).
  reflexivity.
Qed.

Lemma decodeJWT_inversion (jwt : jsstring) (d : DecodedJWT) :
  decodeJWT JSON_parse TextDecoder_decode jwt = Return d ->
  exists h p s, split (cu ".") jwt = [h; p; s]
                /\ h <> [] /\ p <> [] /\ s <> [] /\ dj_signature d = s.
Proof.
  intros H. unfold decodeJWT in H.
  destruct (split (cu ".") jwt) as [| h [| p [| s [| x r]]]] eqn:S;
    try discriminate H.
  cbn [length Nat.eqb negb] in H.
  destruct h as [| ch h']; [discriminate H |].
  destruct p as [| cp p']; [discriminate H |].
  destruct s as [| cs s']; [discriminate H |].
  cbn [is_empty orb] in H.
  exists (ch :: h'), (cp :: p'), (cs :: s').
  repeat split; try discriminate.
  destruct (base64url.decode (ch :: h')) as [hb | e]; [| discriminate H].
  destruct (base64url.decode (cp :: p')) as [pb | e]; [| discriminate H].
  cbn [bind] in H.
  destruct (JSON_parse (TextDecoder_decode hb)) as [hv | e]; [| discriminate H].
  destruct (JSON_parse (TextDecoder_decode pb)) as [pv | e]; [| discriminate H].
  cbn [bind] in H. injection H as <-. reflexivity.
Qed.

(** X1. [decodeJWT] throws its format error on every string that does not
    split into exactly three segments, throws its missing-parts error when
    one of three segments is empty, and therefore returns only for strings
    with three non-empty segments, of which it hands back the third
    unchanged. *)
Theorem decodeJWT_format (jwt : jsstring) :
  (length (split (cu ".") jwt) <> 3%nat ->
   decodeJWT JSON_parse TextDecoder_decode jwt = Throw invalid_jwt_format)
  /\ (forall h p s, split (cu ".") jwt = [h; p; s] ->
      h = [] \/ p = [] \/ s = [] ->
      decodeJWT JSON_parse TextDecoder_decode jwt = Throw invalid_jwt_missing_parts)
  /\ (forall d, decodeJWT JSON_parse TextDecoder_decode jwt = Return d ->
      exists h p s, split (cu ".") jwt = [h; p; s]
                    /\ h <> [] /\ p <> [] /\ s <> [] /\ dj_signature d = s).
Proof.
  split; [| split].
  - intros H. unfold decodeJWT. apply Nat.eqb_neq in H. rewrite H. reflexivity.
  - intros h p s H E. unfold decodeJWT. rewrite H. cbn [length Nat.eqb negb].
    destruct E as [-> | [-> | ->]]; cbn [is_empty orb];
      repeat rewrite orb_true_r; reflexivity.
  - apply decodeJWT_inversion.
Qed.



End DecodingProperties.



(** ** Seed and key generation *)

Lemma Uint8Array_set_length (target source : list byte) (offset : nat)
    (result : list byte) :
  Uint8Array_set target source offset = Return result ->
  length result = length target.
Proof.
  unfold Uint8Array_set.
  destruct (length target <? offset + length source)%nat eqn:E;
    [discriminate |].
  apply Nat.ltb_ge in E. intros H. injection H as <-.
  rewrite !length_app, length_firstn, length_skipn. lia.
Qed.

Lemma generateRandomSeed_cases (env : RandomSources) :
  generateRandomSeed env
  = match crypto_getRandomValues env with
    | Some g => Return (map g (seq 0 32))
    | None =>
        match require_crypto_randomBytes env with
        | Some r => Uint8Array_set (repeat x00 32) (r 32) 0
        | None => Throw no_secure_rng
        end
    end.
Proof. reflexivity. Qed.

Lemma generateRandomSeed_length (env : RandomSources) (seed : list byte) :
  generateRandomSeed env = Return seed -> length seed = 32%nat.
Proof.
  rewrite generateRandomSeed_cases.
  destruct (crypto_getRandomValues env) as [g |].
  - intros H. injection H as <-. reflexivity.
  - destruct (require_crypto_randomBytes env) as [r |]; [| discriminate].
    intros H. apply Uint8Array_set_length in H. rewrite H. reflexivity.
Qed.

(** X4. [generateRandomSeed] returns 32 bytes whenever it returns; it
    throws its no-generator error exactly when the host has neither
    [crypto.getRandomValues] nor [require]; the browser source is used
    whenever it exists, also when [require] exists too; and a Node source
    that yields 32 bytes is returned as it is. *)
Theorem generateRandomSeed_spec (env : RandomSources) :
  (forall seed, generateRandomSeed env = Return seed -> length seed = 32%nat)
  /\ (generateRandomSeed env = Throw no_secure_rng
      <-> crypto_getRandomValues env = None
          /\ require_crypto_randomBytes env = None)
  /\ (forall g, crypto_getRandomValues env = Some g ->
      generateRandomSeed env = Return (map g (seq 0 32)))
  /\ (forall r, crypto_getRandomValues env = None ->
      require_crypto_randomBytes env = Some r ->
      length (r 32) = 32%nat ->
      generateRandomSeed env = Return (r 32)).
Proof.
  split; [apply generateRandomSeed_length |].
  rewrite generateRandomSeed_cases.
  split; [| split].
  - destruct (crypto_getRandomValues env) as [g |].
    + split; [discriminate | intros [H _]; discriminate H].
    + destruct (require_crypto_randomBytes env) as [r |].
      * split; [| intros [_ H]; discriminate H].
        unfold Uint8Array_set.
        destruct (_ <? _)%nat; discriminate.
      * split; auto.
  - intros g ->. reflexivity.
  - intros r -> -> L. unfold Uint8Array_set.
    rewrite L, repeat_length. cbn [Nat.add Nat.ltb Nat.leb firstn app].
    rewrite skipn_all2 by (rewrite repeat_length; lia).
    rewrite app_nil_r. reflexivity.
Qed.

Section KeyGeneration.

Variable ed25519 : ed25519_lib.
Variable JSON_stringify : JSValue -> jsstring.
Hypothesis ed25519_ok : ed25519_correct ed25519.

Lemma generateProfileKeys_env_returns (env : RandomSources) (keys : ProfileKeys) :
  generateProfileKeys_env ed25519 env = Return keys ->
  exists sk pk,
    key_pair ed25519 sk pk
    /\ length sk = 64%nat /\ length pk = 32%nat /\ skipn 32 sk = pk
    /\ keys = {| pk_privateKey := base64.fromByteArray sk;
                 pk_publicKey := base64.fromByteArray pk;
                 pk_did := js "did:key:z" ++ base58.encode ([xed; x01] ++ pk) |}.
Proof.
  unfold generateProfileKeys_env. intros H.
  destruct (generateRandomSeed env) as [seed |] eqn:S; [| discriminate H].
  cbn [bind] in H. apply generateRandomSeed_length in S.
  destruct (generateProfileKeys_did ed25519 ed25519_ok seed S)
    as [sk [pk [Hkp [Lp G]]]].
  rewrite G in H. injection H as <-.
  destruct (key_pair_length _ _ _ ed25519_ok Hkp) as [Ls [_ Sk]].
  exists sk, pk. repeat split; assumption.
Qed.

(** X5. The profile keys generated from the host's random source hold a
    private key string that decodes to a 64-byte secret key, a public key
    string that decodes to the 32-byte second half of that secret key, and
    the DID derived from that public key; they are generated whenever the
    host has a random source that fills the seed. *)
Theorem generateProfileKeys_env_spec (env : RandomSources) :
  (forall keys, generateProfileKeys_env ed25519 env = Return keys ->
     exists sk pk,
       base64.toByteArray keys.(pk_privateKey) = Return sk
       /\ base64.toByteArray keys.(pk_publicKey) = Return pk
       /\ length sk = 64%nat /\ length pk = 32%nat /\ skipn 32 sk = pk
       /\ createDidFromPublicKey pk = Return keys.(pk_did))
  /\ (forall seed, generateRandomSeed env = Return seed ->
      exists keys, generateProfileKeys_env ed25519 env = Return keys).
Proof.
  split.
  - intros keys H.
    destruct (generateProfileKeys_env_returns env keys H)
      as [sk [pk [_ [Ls [Lp [Sk ->]]]]]].
    exists sk, pk. cbn [pk_privateKey pk_publicKey pk_did].
    rewrite !toByteArray_fromByteArray, createDidFromPublicKey_any.
    repeat split; assumption.
  - intros seed S. unfold generateProfileKeys_env. rewrite S. cbn [bind].
    destruct (generateProfileKeys_did ed25519 ed25519_ok seed
                (generateRandomSeed_length env seed S)) as [sk [pk [_ [_ G]]]].
    rewrite G. eauto.
Qed.

(** X6. An assertion signed with the private key of generated profile keys
    verifies against the public key decoded from the same profile keys. *)
Theorem generated_keys_sign_and_verify (env : RandomSources) (keys : ProfileKeys)
    (payload : JSValue) :
  generateProfileKeys_env ed25519 env = Return keys ->
  (jwt <- createJWT ed25519 JSON_stringify payload keys.(pk_privateKey) ;;
   publicKey <- base64.toByteArray keys.(pk_publicKey) ;;
   verifyJWT ed25519 jwt publicKey)
  = Return true.
Proof.
  intros H.
  destruct (generateProfileKeys_env_returns env keys H)
    as [sk [pk [Hkp [_ [_ [_ ->]]]]]].
  cbn [pk_privateKey pk_publicKey].
  destruct (sign_then_verify ed25519 JSON_stringify ed25519_ok payload sk pk Hkp)
    as [jwt [Hj Hv]].
  rewrite Hj. cbn [bind]. rewrite toByteArray_fromByteArray. cbn [bind].
  exact Hv.
Qed.

End KeyGeneration.

(** ** More on base64url *)

Lemma alphabet_ok' : forallb alphabet_char_ok' base64.code = true.
Proof. vm_compute. reflexivity. Qed.

Lemma std_char_spec' (c : codeunit) :
  std_char c = true ->
  url_safe_char (to_url c) = true /\ from_url c = c /\ c <> cu ".".
Proof.
  unfold std_char. intros H. apply existsb_exists in H.
  destruct H as [x [Hin Hx]]. apply N.eqb_eq in Hx. subst x.
  pose proof alphabet_ok' as A. rewrite forallb_forall in A.
  specialize (A c Hin). unfold alphabet_char_ok' in A.
  apply andb_true_iff in A. destruct A as [A A3].
  apply andb_true_iff in A. destruct A as [A1 A2].
  apply N.eqb_eq in A2. apply negb_true_iff, N.eqb_neq in A3. auto.
Qed.

(** X7. The output of [base64url.encode] consists of characters of the
    base64url alphabet only (no ['+'], ['/'] or ['=']) and is
    [ceil(4n/3)] characters long for [n] bytes. *)
Theorem base64url_encode_output (l : list byte) :
  forallb url_safe_char (base64url.encode l) = true
  /\ Z.of_nat (length (base64url.encode l)) = (4 * Z.of_nat (length l) + 2) / 3.
Proof.
  split; [| apply encode_length].
  destruct (encode_shape l) as [body [_ [T [_ E]]]]. rewrite E.
  apply forallb_forall. intros x Hx. apply in_map_iff in Hx.
  destruct Hx as [c [<- Hc]]. rewrite forallb_forall in T.
  apply (std_char_spec' c (T c Hc)).
Qed.

Lemma map_from_url_repeat (n : nat) :
  map from_url (repeat (cu "=") n) = repeat (cu "=") n.
Proof. induction n as [| n IH]; [reflexivity |]. cbn [repeat map]. rewrite IH. reflexivity. Qed.

Lemma map_from_url_std (s : jsstring) :
  forallb std_char s = true -> map from_url s = s.
Proof.
  intros T. rewrite <- (map_id s) at 2. apply map_ext_in. intros c Hc.
  rewrite forallb_forall in T. apply (std_char_spec' c (T c Hc)).
Qed.

Lemma padded_exact (n : Z) :
  n mod 4 = 0 -> Z.to_nat ((4 - n mod 4) mod 4) = 0%nat.
Proof. intros H. rewrite H. reflexivity. Qed.

(** [decode] also reads the padded standard base64 of [fromByteArray]. *)
Lemma decode_fromByteArray (l : list byte) :
  base64url.decode (base64.fromByteArray l) = Return l.
Proof.
  destruct (fromByteArray_shape l) as [body [E [T L]]].
  unfold base64url.decode. cbv zeta. rewrite decode_replacements.
  assert (M : map from_url (base64.fromByteArray l) = base64.fromByteArray l).
  { rewrite E, map_app, map_from_url_repeat, (map_from_url_std body T).
    reflexivity. }
  rewrite M.
  assert (P : Z.to_nat ((4 - Z.of_nat (length (base64.fromByteArray l)) mod 4) mod 4)
              = 0%nat).
  { apply padded_exact. rewrite E, length_app, repeat_length, Nat2Z.inj_add, L.
    unfold tail_chars, pad_of.
    destruct (extra_cases l) as [X | [[a X] | [a [b X]]]]; rewrite X; divmod. }
  rewrite P. cbn [repeat]. rewrite app_nil_r. apply toByteArray_fromByteArray.
Qed.

Lemma fromByteArray_no_dot (l : list byte) : dot_free (base64.fromByteArray l).
Proof.
  destruct (fromByteArray_shape l) as [body [E [T _]]]. rewrite E.
  unfold dot_free. apply Forall_app. split.
  - rewrite Forall_forall. intros c Hc. rewrite forallb_forall in T.
    apply (std_char_spec' c (T c Hc)).
  - apply Forall_forall. intros c Hc. apply repeat_spec in Hc. subst c.
    discriminate.
Qed.

Lemma fromByteArray_not_encode (l : list byte) :
  (length l mod 3 <> 0)%nat -> base64.fromByteArray l <> base64url.encode l.
Proof.
  intros H E.
  destruct (encode_shape l) as [body [Ef [_ [_ Ee]]]].
  rewrite Ef, Ee in E. apply (f_equal (@length _)) in E.
  rewrite length_app, length_map, repeat_length in E.
  pose proof (length_split3 l) as S. unfold pad_of in E.
  destruct (extra_cases l) as [X | [[a X] | [a [b X]]]]; rewrite X in *;
    cbn [length] in *; try lia.
  apply H. apply Nat2Z.inj. rewrite Nat2Z.inj_mod. rewrite S.
  change (Z.of_nat 3) with 3. change (Z.of_nat 0) with 0. divmod.
Qed.

(** The output of [fromByteArray] in parts: the quads of the complete
    triplets, the characters of the extra bytes, the padding; and what the
    decoding loop and the code after it make of the first two parts,
    whatever follows them. *)
Lemma fromByteArray_parts (l : list byte) :
  exists Q T,
    base64.fromByteArray l = Q ++ T ++ repeat (cu "=") (pad_of l)
    /\ forallb std_char (Q ++ T) = true
    /\ Z.of_nat (length Q) = 4 * Z.of_nat (ntriples l)
    /\ Z.of_nat (length T) = tail_chars l
    /\ (forall R, base64.decodeQuads (ntriples l) (Q ++ R) = (full l, R))
    /\ (forall R, base64.decodeTail (Z.of_nat (pad_of l)) (T ++ R) = extra l).
Proof.
  induction l as [| a | a b | a b c r IH] using list_ind3.
  - exists [], []. repeat split.
  - destruct (fromByteArray_shape [a]) as [body [E [T L]]].
    unfold pad_of, tail_chars in *. cbn [extra ntriples] in *.
    destruct body as [| c1 [| c2 [| c3 body]]]; cbn [length] in L; try lia.
    exists [], [c1; c2]. repeat split; try assumption.
    intros R. etransitivity; [| apply decodeTail_one].
    rewrite E. reflexivity.
  - destruct (fromByteArray_shape [a; b]) as [body [E [T L]]].
    unfold pad_of, tail_chars in *. cbn [extra ntriples] in *.
    destruct body as [| c1 [| c2 [| c3 [| c4 body]]]]; cbn [length] in L; try lia.
    exists [], [c1; c2; c3]. repeat split; try assumption.
    intros R. etransitivity; [| apply decodeTail_two].
    rewrite E. reflexivity.
  - destruct IH as [Q [T [E [S [LQ [LT [DQ DT]]]]]]].
    destruct (triplet_bytes a b c) as [Rg [Ba [Bb Bc]]].
    destruct (tripletToBase64_spec (u8 a * 65536 + u8 b * 256 + u8 c))
      as [c1 [c2 [c3 [c4 [Eq [S1 [S2 [S3 [S4 Tq]]]]]]]]].
    exists ([c1; c2; c3; c4] ++ Q), T.
    unfold pad_of, tail_chars in *. cbn [extra ntriples full].
    repeat split.
    + cbn [base64.fromByteArray]. rewrite triplet_num, Eq, E.
      rewrite <- !app_assoc. reflexivity.
    + rewrite <- app_assoc, forallb_app, Tq, S. reflexivity.
    + rewrite length_app. cbn [length]. lia.
    + exact LT.
    + intros R. cbn [app]. rewrite decodeQuads_step, DQ.
      rewrite S1, S2, S3, S4, sextets_join by exact Rg.
      cbn [fst snd]. cbv zeta. rewrite Ba, Bb, Bc. reflexivity.
    + exact DT.
Qed.

Lemma encode_of_body (l : list byte) (body : jsstring) (n : nat) :
  base64.fromByteArray l = body ++ repeat (cu "=") n ->
  forallb std_char body = true ->
  base64url.encode l = map to_url body.
Proof.
  intros E T. unfold base64url.encode. cbv zeta.
  rewrite encode_replacements, E, map_app, map_to_url_repeat.
  rewrite remove_all_app, remove_all_repeat, app_nil_r.
  apply remove_all_absent.
  rewrite Forall_forall. intros x Hx. apply in_map_iff in Hx.
  destruct Hx as [c [<- Hc]]. rewrite forallb_forall in T.
  apply (std_char_spec c (T c Hc)).
Qed.

Lemma map_from_to_url (s : jsstring) :
  forallb std_char s = true -> map from_url (map to_url s) = s.
Proof.
  intros T. rewrite map_map. rewrite <- (map_id s) at 2.
  apply map_ext_in. intros c Hc. rewrite forallb_forall in T.
  apply (std_char_spec c (T c Hc)).
Qed.

(** After an encoding that would be padded, [decode] ignores the first
    ['='] and everything behind it. *)
Lemma decode_encode_then_pad (l : list byte) (junk : jsstring) :
  (length l mod 3 <> 0)%nat ->
  base64url.decode (base64url.encode l ++ cu "=" :: junk) = Return l.
Proof.
  intros NZ.
  destruct (fromByteArray_parts l) as [Q [T [E [S [LQ [LT [DQ DT]]]]]]].
  rewrite app_assoc in E.
  pose proof (encode_of_body l (Q ++ T) _ E S) as Enc.
  pose proof (std_not_pad _ S) as NP.
  pose proof (length_split3 l) as Len.
  pose proof (length_full l) as LF.
  pose proof (full_extra l) as FE.
  unfold base64url.decode. cbv zeta.
  rewrite decode_replacements, Enc, map_app, (map_from_to_url _ S).
  cbn [map]. change (from_url (cu "=")) with (cu "=").
  set (J0 := map from_url junk).
  set (n := Z.to_nat ((4 - Z.of_nat (length ((Q ++ T) ++ cu "=" :: J0)) mod 4) mod 4)).
  rewrite <- app_assoc. cbn [app].
  set (J := J0 ++ repeat (cu "=") n).
  assert (LP : Z.of_nat (length ((Q ++ T) ++ cu "=" :: J)) mod 4 = 0).
  { subst J n. rewrite app_comm_cons, app_assoc, length_app, repeat_length,
      Nat2Z.inj_add. apply padded_length. lia. }
  assert (LB : Z.of_nat (length (Q ++ T)) = 4 * Z.of_nat (ntriples l) + tail_chars l)
    by (rewrite length_app; lia).
  unfold base64.toByteArray, base64.getLens. rewrite LP.
  cbn [Z.gtb Z.compare bind]. cbv zeta.
  rewrite (indexOf_first _ _ J NP), LB.
  assert (LPB : Z.of_nat (length ((Q ++ T) ++ cu "=" :: J))
                > 4 * Z.of_nat (ntriples l) + tail_chars l).
  { rewrite length_app. cbn [length]. lia. }
  set (k := Z.of_nat (ntriples l)) in *.
  set (len := Z.of_nat (length ((Q ++ T) ++ cu "=" :: J))) in *.
  unfold pad_of, tail_chars, base64._byteLength, newUint8Array in *.
  destruct (extra_cases l) as [X | [[a X] | [a [b X]]]]; rewrite X in *;
    cbn [length Z.of_nat Pos.of_succ_nat Pos.succ] in *.
  - exfalso. apply NZ. apply Nat2Z.inj. rewrite Nat2Z.inj_mod, Len.
    change (Z.of_nat 3) with 3. change (Z.of_nat 0) with 0. divmod.
  - replace (4 * k + 2 =? -1) with false by (symmetry; apply Z.eqb_neq; lia).
    replace (4 * k + 2 =? len) with false by (symmetry; apply Z.eqb_neq; lia).
    replace (4 - (4 * k + 2) mod 4) with 2 by divmod.
    replace ((4 * k + 2 + 2) * 3 / 4 - 2) with (3 * k + 1) by divmod.
    replace (3 * k + 1 <? 0) with false by (symmetry; apply Z.ltb_ge; lia).
    cbn [bind Z.gtb Z.compare Pos.compare Pos.compare_cont].
    replace (base64.iterations (4 * k + 2 - 4)) with (ntriples l)
      by (unfold base64.iterations; subst k; divmod).
    rewrite <- app_assoc, DQ. change 2 with (Z.of_nat 2). rewrite DT.
    rewrite store_exact; [congruence |].
    rewrite repeat_length, length_app. cbn [length]. lia.
  - replace (4 * k + 3 =? -1) with false by (symmetry; apply Z.eqb_neq; lia).
    replace (4 * k + 3 =? len) with false by (symmetry; apply Z.eqb_neq; lia).
    replace (4 - (4 * k + 3) mod 4) with 1 by divmod.
    replace ((4 * k + 3 + 1) * 3 / 4 - 1) with (3 * k + 2) by divmod.
    replace (3 * k + 2 <? 0) with false by (symmetry; apply Z.ltb_ge; lia).
    cbn [bind Z.gtb Z.compare Pos.compare Pos.compare_cont].
    replace (base64.iterations (4 * k + 3 - 4)) with (ntriples l)
      by (unfold base64.iterations; subst k; divmod).
    rewrite <- app_assoc, DQ. change 1 with (Z.of_nat 1). rewrite DT.
    rewrite store_exact; [congruence |].
    rewrite repeat_length, length_app. cbn [length]. lia.
Qed.

Lemma store_length (arr written : list byte) :
  length (base64.store arr written) = length arr.
Proof.
  unfold base64.store. rewrite length_firstn, length_app, length_skipn. lia.
Qed.

Lemma toByteArray_length (b64 : jsstring) (validLen placeHoldersLen : Z) :
  base64.getLens b64 = Return (validLen, placeHoldersLen) ->
  0 <= base64._byteLength validLen placeHoldersLen ->
  exists bytes,
    base64.toByteArray b64 = Return bytes
    /\ Z.of_nat (length bytes) = base64._byteLength validLen placeHoldersLen.
Proof.
  intros G B. unfold base64.toByteArray. rewrite G. cbn [bind].
  unfold newUint8Array.
  replace (base64._byteLength validLen placeHoldersLen <? 0) with false
    by (symmetry; apply Z.ltb_ge; exact B).
  cbn [bind].
  destruct (base64.decodeQuads _ b64) as [bytes rest].
  eexists. split; [reflexivity |].
  rewrite store_length, repeat_length. lia.
Qed.

Lemma pad_free_from_url (s : jsstring) : pad_free s -> pad_free (map from_url s).
Proof.
  unfold pad_free. rewrite !Forall_forall. intros H x Hx.
  apply in_map_iff in Hx. destruct Hx as [c [<- Hc]].
  intros E. apply (proj1 (from_url_pad c)) in E. exact (H c Hc E).
Qed.

Lemma base64url_decode_length_aux (s : jsstring) :
  pad_free s ->
  exists bytes,
    base64url.decode s = Return bytes
    /\ Z.of_nat (length bytes) = 3 * Z.of_nat (length s) / 4.
Proof.
  intros F. apply pad_free_from_url in F.
  unfold base64url.decode. cbv zeta. rewrite decode_replacements, length_map.
  set (M := map from_url s) in *.
  assert (LM : length M = length s) by (subst M; apply length_map).
  set (n := Z.to_nat ((4 - Z.of_nat (length s) mod 4) mod 4)).
  assert (LP : Z.of_nat (length (M ++ repeat (cu "=") n)) mod 4 = 0).
  { subst n. rewrite length_app, repeat_length, Nat2Z.inj_add, LM.
    apply padded_length. lia. }
  assert (I : indexOf (cu "=") (M ++ repeat (cu "=") n)
              = if (n =? 0)%nat then -1 else Z.of_nat (length s)).
  { destruct n as [| n'].
    - cbn [repeat Nat.eqb]. rewrite app_nil_r. apply indexOf_absent. exact F.
    - cbn [repeat Nat.eqb]. rewrite <- LM. apply indexOf_first. exact F. }
  assert (G : base64.getLens (M ++ repeat (cu "=") n)
              = Return (Z.of_nat (length s), Z.of_nat n)).
  { unfold base64.getLens. rewrite LP, I.
    cbn [Z.gtb Z.compare]. cbv zeta.
    rewrite length_app, repeat_length, Nat2Z.inj_add, LM.
    destruct n as [| n'] eqn:En.
    - cbn [Nat.eqb Z.eqb]. rewrite Z.add_0_r, Z.eqb_refl. reflexivity.
    - cbn [Nat.eqb].
      replace (Z.of_nat (length s) =? -1) with false
        by (symmetry; apply Z.eqb_neq; lia).
      replace (Z.of_nat (length s) =? Z.of_nat (length s) + Z.of_nat (S n'))
        with false by (symmetry; apply Z.eqb_neq; lia).
      do 2 f_equal. subst n. rewrite <- En. divmod. }
  assert (B : base64._byteLength (Z.of_nat (length s)) (Z.of_nat n)
              = 3 * Z.of_nat (length s) / 4).
  { unfold base64._byteLength. subst n. divmod. }
  destruct (toByteArray_length _ _ _ G) as [bytes [Hb Lb]].
  - rewrite B. apply Z.div_pos; lia.
  - exists bytes. split; [exact Hb |]. rewrite Lb. exact B.
Qed.

(** X8. For an input without ['='], [base64url.decode] returns exactly
    [floor(3n/4)] bytes, [n] the length of the input, whatever characters
    the input holds. *)
Theorem base64url_decode_length (s : jsstring) :
  pad_free s ->
  exists bytes,
    base64url.decode s = Return bytes
    /\ Z.of_nat (length bytes) = 3 * Z.of_nat (length s) / 4.
Proof. apply base64url_decode_length_aux. Qed.

Lemma base64url_decode_length_witness :
  pad_free (js "!x?AAA")
  /\ exists bytes,
       base64url.decode (js "!x?AAA") = Return bytes
       /\ Z.of_nat (length bytes) = 3 * Z.of_nat (length (js "!x?AAA")) / 4.
Proof.
  assert (F : pad_free (js "!x?AAA"))
    by (unfold pad_free; repeat (apply Forall_cons; [discriminate |]);
        apply Forall_nil).
  split; [exact F |].
  exact (base64url_decode_length (js "!x?AAA") F).
Defined.

(** ** The signature segment *)

Section SignatureSegment.

Variable ed25519 : ed25519_lib.
Hypothesis ed25519_ok : ed25519_correct ed25519.

Lemma verifyJWT_decoded (sk pk : list byte) (h p s : jsstring)
    (signature : list byte) :
  key_pair ed25519 sk pk -> dot_free h -> dot_free p -> dot_free s ->
  ed25519.(sign) sk (TextEncoder_encode (h ++ js "." ++ p)) = Return signature ->
  base64url.decode s = Return signature ->
  verifyJWT ed25519 (h ++ js "." ++ p ++ js "." ++ s) pk = Return true.
Proof.
  intros Hkp Hh Hp Hs Sg D.
  rewrite (verifyJWT_segments ed25519 _ pk h p s)
    by (apply split_three; assumption).
  rewrite D. cbn [bind].
  rewrite (verify_sign _ ed25519_ok sk pk _ signature Hkp Sg). reflexivity.
Qed.

Lemma signature_length (sk : list byte) (m signature : list byte) :
  length sk = 64%nat -> ed25519.(sign) sk m = Return signature ->
  length signature = 64%nat.
Proof.
  intros L S. destruct (sign_returns _ ed25519_ok sk m L) as [sg [E Ls]].
  congruence.
Qed.

(** X9. The encoding of the signature is not canonical: where the
    base64url signature segment verifies, so does the padded standard
    base64 of the same signature (with ['+'], ['/'] and ['=='] ), which is
    a different string. *)
Theorem verifyJWT_accepts_standard_base64 (sk pk : list byte) (h p : jsstring) :
  key_pair ed25519 sk pk -> dot_free h -> dot_free p ->
  exists signature,
    ed25519.(sign) sk (TextEncoder_encode (h ++ js "." ++ p)) = Return signature
    /\ verifyJWT ed25519
         (h ++ js "." ++ p ++ js "." ++ base64url.encode signature) pk
       = Return true
    /\ verifyJWT ed25519
         (h ++ js "." ++ p ++ js "." ++ base64.fromByteArray signature) pk
       = Return true
    /\ base64.fromByteArray signature <> base64url.encode signature.
Proof.
  intros Hkp Hh Hp.
  destruct (key_pair_length _ _ _ ed25519_ok Hkp) as [Hl _].
  destruct (sign_returns _ ed25519_ok sk
              (TextEncoder_encode (h ++ js "." ++ p)) Hl) as [signature [Hs Ls]].
  exists signature. split; [exact Hs |]. split; [| split].
  - apply (verifyJWT_decoded sk pk h p _ signature); try assumption.
    + apply encode_no_dot.
    + apply decode_encode.
  - apply (verifyJWT_decoded sk pk h p _ signature); try assumption.
    + apply fromByteArray_no_dot.
    + apply decode_fromByteArray.
  - apply fromByteArray_not_encode. rewrite Ls. discriminate.
Qed.

(** X10. [verifyJWT] ignores whatever follows a ['='] in the signature
    segment: the assertion still verifies when ['='] and any dot-free text
    are appended to it. *)
Theorem verifyJWT_ignores_text_after_pad (sk pk : list byte) (h p junk : jsstring) :
  key_pair ed25519 sk pk -> dot_free h -> dot_free p -> dot_free junk ->
  exists signature,
    ed25519.(sign) sk (TextEncoder_encode (h ++ js "." ++ p)) = Return signature
    /\ verifyJWT ed25519
         (h ++ js "." ++ p ++ js "."
          ++ (base64url.encode signature ++ cu "=" :: junk)) pk
       = Return true.
Proof.
  intros Hkp Hh Hp Hj.
  destruct (key_pair_length _ _ _ ed25519_ok Hkp) as [Hl _].
  destruct (sign_returns _ ed25519_ok sk
              (TextEncoder_encode (h ++ js "." ++ p)) Hl) as [signature [Hs Ls]].
  exists signature. split; [exact Hs |].
  apply (verifyJWT_decoded sk pk h p _ signature); try assumption.
  - unfold dot_free. apply Forall_app. split; [apply encode_no_dot |].
    constructor; [discriminate | exact Hj].
  - apply decode_encode_then_pad. rewrite Ls. discriminate.
Qed.

(** X11. [verifyJWT] returns false on every string with three segments
    whose signature segment has no ['='] and is not exactly 86 characters
    long. *)
Theorem verifyJWT_rejects_signature_length (jwt h p s : jsstring) (pk : list byte) :
  split (cu ".") jwt = [h; p; s] ->
  pad_free s -> length s <> 86%nat ->
  verifyJWT ed25519 jwt pk = Return false.
Proof.
  intros S F L.
  destruct (base64url_decode_length_aux s F) as [bytes [D Lb]].
  rewrite (verifyJWT_segments ed25519 jwt pk h p s S), D. cbn [bind].
  assert (N : length bytes <> 64%nat) by (intros E; rewrite E in Lb; divmod).
  pose proof (verify_length _ ed25519_ok pk
                (TextEncoder_encode (h ++ js "." ++ p)) bytes N) as V.
  destruct (verify ed25519 pk (TextEncoder_encode (h ++ js "." ++ p)) bytes)
    as [[|] | e]; [contradiction | reflexivity | reflexivity].
Qed.

End SignatureSegment.

Lemma verifyJWT_accepts_standard_base64_witness :
  key_pair Stub.ed25519 Stub.sk Stub.pk
  /\ exists signature,
       sign Stub.ed25519 Stub.sk (TextEncoder_encode (js "e30" ++ js "." ++ js "e30"))
       = Return signature
       /\ verifyJWT Stub.ed25519
            (js "e30" ++ js "." ++ js "e30" ++ js "."
             ++ base64url.encode signature) Stub.pk
          = Return true
       /\ verifyJWT Stub.ed25519
            (js "e30" ++ js "." ++ js "e30" ++ js "."
             ++ base64.fromByteArray signature) Stub.pk
          = Return true
       /\ base64.fromByteArray signature <> base64url.encode signature.
Proof.
  assert (F : dot_free (js "e30"))
    by (unfold dot_free; repeat (apply Forall_cons; [discriminate |]);
        apply Forall_nil).
  split; [exact stub_key_pair |].
  exact (verifyJWT_accepts_standard_base64 Stub.ed25519 stub_correct
           Stub.sk Stub.pk (js "e30") (js "e30") stub_key_pair F F).
Defined.

Lemma verifyJWT_ignores_text_after_pad_witness :
  dot_free (js "anything at all")
  /\ exists signature,
       sign Stub.ed25519 Stub.sk (TextEncoder_encode (js "e30" ++ js "." ++ js "e30"))
       = Return signature
       /\ verifyJWT Stub.ed25519
            (js "e30" ++ js "." ++ js "e30" ++ js "."
             ++ (base64url.encode signature ++ cu "=" :: js "anything at all"))
            Stub.pk
          = Return true.
Proof.
  assert (F : dot_free (js "e30"))
    by (unfold dot_free; repeat (apply Forall_cons; [discriminate |]);
        apply Forall_nil).
  assert (J : dot_free (js "anything at all"))
    by (unfold dot_free; repeat (apply Forall_cons; [discriminate |]);
        apply Forall_nil).
  split; [exact J |].
  exact (verifyJWT_ignores_text_after_pad Stub.ed25519 stub_correct
           Stub.sk Stub.pk (js "e30") (js "e30") (js "anything at all")
           stub_key_pair F F J).
Defined.

Lemma verifyJWT_rejects_signature_length_witness :
  pad_free (js "c2ln")
  /\ verifyJWT Stub.ed25519 (js "e30.e30.c2ln") Stub.pk = Return false.
Proof.
  assert (F : pad_free (js "c2ln"))
    by (unfold pad_free; repeat (apply Forall_cons; [discriminate |]);
        apply Forall_nil).
  assert (L : length (js "c2ln") <> 86%nat) by discriminate.
  split; [exact F |].
  exact (verifyJWT_rejects_signature_length Stub.ed25519 stub_correct
           (js "e30.e30.c2ln") (js "e30") (js "e30") (js "c2ln") Stub.pk
           eq_refl F L).
Defined.

Lemma generateProfileKeys_env_spec_witness :
  exists keys sk pk,
    generateProfileKeys_env Stub.ed25519 StubIO.browser = Return keys
    /\ base64.toByteArray keys.(pk_privateKey) = Return sk
    /\ base64.toByteArray keys.(pk_publicKey) = Return pk
    /\ length sk = 64%nat /\ length pk = 32%nat /\ skipn 32 sk = pk
    /\ createDidFromPublicKey pk = Return keys.(pk_did).
Proof.
  destruct (generateProfileKeys_env Stub.ed25519 StubIO.browser)
    as [keys | e] eqn:G; [| vm_compute in G; discriminate G].
  destruct (proj1 (generateProfileKeys_env_spec Stub.ed25519 stub_correct
                     StubIO.browser) keys G) as [sk [pk H]].
  exists keys, sk, pk. split; [reflexivity | exact H].
Defined.

Lemma generated_keys_sign_and_verify_witness :
  exists keys,
    generateProfileKeys_env Stub.ed25519 StubIO.node = Return keys
    /\ (jwt <- createJWT Stub.ed25519 Stub.JSON_stringify Stub.payload
                 keys.(pk_privateKey) ;;
        publicKey <- base64.toByteArray keys.(pk_publicKey) ;;
        verifyJWT Stub.ed25519 jwt publicKey)
       = Return true.
Proof.
  destruct (generateProfileKeys_env Stub.ed25519 StubIO.node)
    as [keys | e] eqn:G; [| vm_compute in G; discriminate G].
  exists keys. split; [reflexivity |].
  exact (generated_keys_sign_and_verify Stub.ed25519 Stub.JSON_stringify
           stub_correct StubIO.node keys Stub.payload G).
Defined.

(** ** [createJWT] and keys that do not decode *)

(** X12. [createJWT] does not catch the errors of the base64 decoder: with
    a key string whose length is not a multiple of 4 it throws the
    decoder's length error, with one that begins with ['='] (and has a
    length that is a multiple of 4) the decoder's [RangeError], and with
    the empty key string its own invalid-key-length error; in none of
    these cases does the result depend on the payload. *)
Theorem createJWT_undecodable_key (ed25519 : ed25519_lib)
    (JSON_stringify : JSValue -> jsstring) (payload : JSValue)
    (privateKey : jsstring) :
  (Z.of_nat (length privateKey) mod 4 <> 0 ->
   createJWT ed25519 JSON_stringify payload privateKey = Throw base64_length_error)
  /\ (Z.of_nat (length privateKey) mod 4 = 0 -> starts_with_pad privateKey ->
      createJWT ed25519 JSON_stringify payload privateKey
      = Throw (RangeError "Invalid typed array length"))
  /\ (privateKey = [] ->
      createJWT ed25519 JSON_stringify payload privateKey
      = Throw invalid_private_key_length).
Proof.
  split; [| split].
  - intros H. unfold createJWT, base64.toByteArray, base64.getLens.
    replace (Z.of_nat (length privateKey) mod 4 >? 0) with true; [reflexivity |].
    symmetry. rewrite Z.gtb_ltb. apply Z.ltb_lt.
    pose proof (Z.mod_pos_bound (Z.of_nat (length privateKey)) 4). lia.
  - intros H [r ->]. unfold createJWT, base64.toByteArray, base64.getLens.
    rewrite H. cbn [Z.gtb Z.compare indexOf]. rewrite N.eqb_refl.
    cbn [Z.eqb]. cbv zeta.
    replace (0 =? Z.of_nat (length (cu "=" :: r))) with false
      by (symmetry; apply Z.eqb_neq; cbn [length]; lia).
    reflexivity.
  - intros ->. reflexivity.
Qed.

(** ** The facade, end to end *)

Section Facade.

Variable ed25519 : ed25519_lib.
Variable JSON_stringify : JSValue -> jsstring.
Variable JSON_parse : jsstring -> completion JSValue.
Variable TextDecoder_decode : list byte -> jsstring.
Hypothesis ed25519_ok : ed25519_correct ed25519.

Lemma createJWT_verifies (payload : JSValue) (privateKey : jsstring)
    (sk pk : list byte) :
  base64.toByteArray privateKey = Return sk -> key_pair ed25519 sk pk ->
  exists jwt,
    createJWT ed25519 JSON_stringify payload privateKey = Return jwt
    /\ verifyJWT ed25519 jwt pk = Return true.
Proof.
  intros Hd Hkp.
  destruct (key_pair_length _ _ _ ed25519_ok Hkp) as [Hl _].
  destruct (createJWT_returns ed25519 JSON_stringify ed25519_ok payload
              privateKey sk Hd Hl) as [signature [Hs Hj]].
  eexists. split; [exact Hj |].
  apply (verifyJWT_signed ed25519 ed25519_ok sk); try assumption;
    apply encode_no_dot.
Qed.

(** X13. With a stored profile and a stored private key that is the base64
    of a secret key, the assertion [getProfileDetails] returns verifies
    against the matching public key, and so does the one [getAvatar]
    returns when the profile has a non-empty avatar. *)
Theorem issued_credentials_verify (h : Host) (profile : Profile)
    (privateKey : jsstring) (sk pk : list byte) :
  h.(getProfile) = Some profile ->
  h.(getPrivateKey) = Some privateKey ->
  base64.toByteArray privateKey = Return sk ->
  key_pair ed25519 sk pk ->
  (exists jwt, getProfileDetails ed25519 JSON_stringify h = Return jwt
               /\ verifyJWT ed25519 jwt pk = Return true)
  /\ (forall a, profile.(avatar) = Some a -> a <> [] ->
      exists jwt, getAvatar ed25519 JSON_stringify h = Return (Some jwt)
                  /\ verifyJWT ed25519 jwt pk = Return true).
Proof.
  intros Hp Hk Hd Hkp.
  destruct (key_pair_length _ _ _ ed25519_ok Hkp) as [Hl _].
  pose proof (decoded_key_nonempty privateKey sk Hd Hl) as F.
  split.
  - destruct (createJWT_verifies (profileDetailsPayload h profile)
                privateKey sk pk Hd Hkp) as [jwt [Hj Hv]].
    exists jwt. split; [| exact Hv].
    unfold getProfileDetails. rewrite Hp, Hk, F. exact Hj.
  - intros a Ha Hne.
    destruct (createJWT_verifies (avatarPayload h profile a)
                privateKey sk pk Hd Hkp) as [jwt [Hj Hv]].
    exists jwt. split; [| exact Hv].
    unfold getAvatar. rewrite Hp, Hk, F, Ha.
    destruct a as [| c r]; [contradiction |]. cbn [falsy].
    rewrite Hj. reflexivity.
Qed.

(** X14. What the relying party reads with [decodeJWT] from the assertion
    of [getProfileDetails] is the payload the facade built: its issuer and
    the DID in its data are the DID of the stored profile, its audience is
    the origin of the page, and its expiry is 120 seconds after its
    issue time (JSON text of the header and the payload being assumed to
    survive UTF-8 encoding, decoding and parsing). *)
Theorem issued_credential_decodes (h : Host) (profile : Profile)
    (privateKey : jsstring) (sk : list byte) :
  h.(getProfile) = Some profile ->
  h.(getPrivateKey) = Some privateKey ->
  base64.toByteArray privateKey = Return sk -> length sk = 64%nat ->
  JSON_stringify JWTHeader <> [] ->
  JSON_stringify (profileDetailsPayload h profile) <> [] ->
  JSON_parse (TextDecoder_decode (TextEncoder_encode (JSON_stringify JWTHeader)))
  = Return JWTHeader ->
  JSON_parse (TextDecoder_decode
                (TextEncoder_encode
                   (JSON_stringify (profileDetailsPayload h profile))))
  = Return (profileDetailsPayload h profile) ->
  exists jwt d,
    getProfileDetails ed25519 JSON_stringify h = Return jwt
    /\ decodeJWT JSON_parse TextDecoder_decode jwt = Return d
    /\ dj_header d = JWTHeader
    /\ get (dj_payload d) (js "iss") = Some (JSString profile.(did))
    /\ get (dj_payload d) (js "aud") = Some (JSString h.(location_origin))
    /\ (exists data, get (dj_payload d) (js "data") = Some data
                     /\ get data (js "did") = Some (JSString profile.(did)))
    /\ fixed_window (dj_payload d).
Proof.
  intros Hp Hk Hd Hl Nh Np Rh Rp.
  pose proof (decoded_key_nonempty privateKey sk Hd Hl) as F.
  destruct (createJWT_returns ed25519 JSON_stringify ed25519_ok
              (profileDetailsPayload h profile) privateKey sk Hd Hl)
    as [signature [Hs Hj]].
  destruct (sign_returns _ ed25519_ok sk
              (TextEncoder_encode
                 (segment_of JSON_stringify JWTHeader ++ js "."
                  ++ segment_of JSON_stringify (profileDetailsPayload h profile)))
              Hl) as [signature' [Hs' Ls]].
  assert (signature' = signature) by congruence. subst signature'.
  eexists. eexists. split; [| split].
  - unfold getProfileDetails. rewrite Hp, Hk, F. exact Hj.
  - rewrite (decodeJWT_segments JSON_parse TextDecoder_decode _
               (segment_of JSON_stringify JWTHeader)
               (segment_of JSON_stringify (profileDetailsPayload h profile))
               (base64url.encode signature)).
    + unfold segment_of. rewrite !decode_encode. cbn [bind].
      rewrite Rh. cbn [bind]. rewrite Rp. reflexivity.
    + apply split_three; apply encode_no_dot.
    + apply encode_nonempty, TextEncoder_encode_nonempty, Nh.
    + apply encode_nonempty, TextEncoder_encode_nonempty, Np.
    + apply encode_nonempty. intros E. rewrite E in Ls. discriminate Ls.
  - cbn [dj_header dj_payload]. repeat split.
    + eexists. split; reflexivity.
    + apply profileDetailsPayload_window.
Qed.

(** X15. Both facade calls throw the no-profile error when no profile or
    no non-empty private key is stored, also [getAvatar] for a profile
    without avatar; [getAvatar] returns null exactly when a profile and a
    non-empty key are stored and the profile's avatar is missing or
    empty. *)
Theorem facade_without_identity (h : Host) :
  (h.(getProfile) = None \/ falsy h.(getPrivateKey) = true ->
   getProfileDetails ed25519 JSON_stringify h = Throw no_profile_found
   /\ getAvatar ed25519 JSON_stringify h = Throw no_profile_found)
  /\ (getAvatar ed25519 JSON_stringify h = Return None
      <-> exists profile,
            h.(getProfile) = Some profile
            /\ falsy h.(getPrivateKey) = false
            /\ falsy profile.(avatar) = true).
Proof.
  unfold getProfileDetails, getAvatar. split.
  - intros [H | H].
    + rewrite H. split; reflexivity.
    + destruct (getProfile h) as [profile |]; [| split; reflexivity].
      destruct (getPrivateKey h) as [key |]; [| split; reflexivity].
      rewrite H. split; reflexivity.
  - destruct (getProfile h) as [profile |].
    + destruct (getPrivateKey h) as [key |].
      * destruct (falsy (Some key)) eqn:F.
        -- split; [discriminate | intros [p [_ [K _]]]; discriminate K].
        -- destruct (falsy (avatar profile)) eqn:A.
           ++ split; [intros _; exists profile; auto | reflexivity].
           ++ split.
              ** destruct (avatar profile) as [a |]; [| discriminate A].
                 destruct (createJWT _ _ _ _); cbn [bind]; discriminate.
              ** intros [p [E [_ A']]]. injection E as <-. congruence.
      * split; [discriminate | intros [p [_ [K _]]]; discriminate K].
    + split; [discriminate | intros [p [E _]]; discriminate E].
Qed.

End Facade.

(** ** Permissions and the injected API *)

Lemma jsstring_eqb_eq (a b : jsstring) : jsstring_eqb a b = true <-> a = b.
Proof.
  unfold jsstring_eqb. destruct (list_eq_dec N.eq_dec a b); split; congruence.
Qed.

(** X16. [requestPermission] grants exactly the permissions that
    [getBrowserDetails] lists as supported, and warns on the console
    exactly when it refuses. *)
Theorem requestPermission_supported (permission : jsstring) :
  (fst (requestPermission permission) = true
   <-> In permission (bd_supportedPermissions getBrowserDetails))
  /\ (snd (requestPermission permission) = []
      <-> fst (requestPermission permission) = true).
Proof.
  unfold requestPermission. cbn [getBrowserDetails bd_supportedPermissions].
  destruct (jsstring_eqb permission (js "profile")) eqn:E; cbn [fst snd].
  - apply jsstring_eqb_eq in E. subst. split; split; auto. intros _. left. reflexivity.
  - split; split; try discriminate.
    intros [H | []]. symmetry in H. apply jsstring_eqb_eq in H. congruence.
Qed.

(** X17. In a browser [injectIRLBrowserAPI] always leaves an API on
    [window]; it never replaces a truthy value that is already there (a
    native API stays), installs nothing but the mock, and a second call
    changes nothing; outside a browser it does nothing. *)
Theorem injectIRLBrowserAPI_spec (window : Window) :
  let window' := fst (injectIRLBrowserAPI window) in
  (window <> None -> hasIRLBrowserAPI window' = true)
  /\ (hasIRLBrowserAPI window = true -> window' = window)
  /\ (window' <> window -> window' = Some (Some MockIRLBrowser))
  /\ fst (injectIRLBrowserAPI window') = window'
  /\ (window = None -> window' = None /\ hasIRLBrowserAPI window' = false).
Proof.
  destruct window as [[[| [|]] |] |]; cbn; repeat split;
    try reflexivity; try congruence; try discriminate.
Qed.

(** X18. [removeIRLBrowserAPI] leaves no API on [window], whatever was
    there, a native API included; after it [injectIRLBrowserAPI] installs
    the mock, and removing after injecting leaves the property absent. *)
Theorem removeIRLBrowserAPI_spec (window : Window) :
  hasIRLBrowserAPI (fst (removeIRLBrowserAPI window)) = false
  /\ (forall v, fst (removeIRLBrowserAPI (Some v)) = Some None)
  /\ (window <> None ->
      fst (injectIRLBrowserAPI (fst (removeIRLBrowserAPI window)))
      = Some (Some MockIRLBrowser))
  /\ (window <> None ->
      fst (removeIRLBrowserAPI (fst (injectIRLBrowserAPI window))) = Some None).
Proof.
  destruct window as [[[| [|]] |] |]; cbn; repeat split;
    try reflexivity; try congruence.
Qed.

(** X19. The onboarding hook shows the onboarding exactly when the page
    runs in a browser without a truthy [window.irlBrowser]: whether a
    profile is stored has no influence, the two detections ([isIRLBrowser]
    and [hasIRLBrowserAPI]) always agree, and once [injectIRLBrowserAPI]
    has run a re-check never shows the onboarding. *)
Theorem useIrlOnboarding_shows_without_api (window : Window) (hasProfile : bool)
    (getCurrentProfile : option Profile) :
  isIRLBrowser window = hasIRLBrowserAPI window
  /\ shouldShowOnboarding
       (useIrlOnboarding_effect window hasProfile getCurrentProfile)
     = match window with
       | None => false
       | Some _ => negb (hasIRLBrowserAPI window)
       end
  /\ shouldShowOnboarding
       (useIrlOnboarding_effect window hasProfile getCurrentProfile)
     = shouldShowOnboarding
         (useIrlOnboarding_effect window (negb hasProfile) getCurrentProfile)
  /\ shouldShowOnboarding
       (useIrlOnboarding_effect (fst (injectIRLBrowserAPI window)) hasProfile
          getCurrentProfile) = false
  /\ isLoading (useIrlOnboarding_effect window hasProfile getCurrentProfile)
     = false.
Proof.
  destruct window as [[[| [|]] |] |]; destruct hasProfile; cbn; repeat split.
Qed.

Lemma issued_credentials_verify_witness :
  key_pair Stub.ed25519 Stub.sk Stub.pk
  /\ (exists jwt,
        getProfileDetails Stub.ed25519 Stub.JSON_stringify Stub.host = Return jwt
        /\ verifyJWT Stub.ed25519 jwt Stub.pk = Return true)
  /\ (exists jwt,
        getAvatar Stub.ed25519 Stub.JSON_stringify Stub.host = Return (Some jwt)
        /\ verifyJWT Stub.ed25519 jwt Stub.pk = Return true).
Proof.
  assert (K : base64.toByteArray Stub.privateKey = Return Stub.sk)
    by (vm_compute; reflexivity).
  destruct (issued_credentials_verify Stub.ed25519 Stub.JSON_stringify
              stub_correct Stub.host Stub.profile Stub.privateKey Stub.sk Stub.pk
              eq_refl eq_refl K stub_key_pair) as [P A].
  split; [exact stub_key_pair |]. split; [exact P |].
  apply (A (js "data:image/png;base64,AAAA")); [reflexivity | discriminate].
Defined.

Lemma issued_credential_decodes_witness :
  exists jwt d,
    getProfileDetails Stub.ed25519 Stub.JSON_stringify Stub.host = Return jwt
    /\ decodeJWT StubIO.JSON_parse StubIO.TextDecoder_decode jwt = Return d
    /\ dj_header d = JWTHeader
    /\ get (dj_payload d) (js "iss") = Some (JSString (js "did:key:zABC"))
    /\ get (dj_payload d) (js "aud") = Some (JSString (js "https://x"))
    /\ (exists data, get (dj_payload d) (js "data") = Some data
                     /\ get data (js "did") = Some (JSString (js "did:key:zABC")))
    /\ fixed_window (dj_payload d).
Proof.
  assert (K : base64.toByteArray Stub.privateKey = Return Stub.sk)
    by (vm_compute; reflexivity).
  assert (L : length Stub.sk = 64%nat) by reflexivity.
  assert (Nh : Stub.JSON_stringify JWTHeader <> []) by (vm_compute; discriminate).
  assert (Np : Stub.JSON_stringify (profileDetailsPayload Stub.host Stub.profile)
               <> []) by (vm_compute; discriminate).
  assert (Rh : StubIO.JSON_parse
                 (StubIO.TextDecoder_decode
                    (TextEncoder_encode (Stub.JSON_stringify JWTHeader)))
               = Return JWTHeader) by (vm_compute; reflexivity).
  assert (Rp : StubIO.JSON_parse
                 (StubIO.TextDecoder_decode
                    (TextEncoder_encode
                       (Stub.JSON_stringify
                          (profileDetailsPayload Stub.host Stub.profile))))
               = Return (profileDetailsPayload Stub.host Stub.profile))
    by (vm_compute; reflexivity).
  exact (issued_credential_decodes Stub.ed25519 Stub.JSON_stringify
           StubIO.JSON_parse StubIO.TextDecoder_decode stub_correct
           Stub.host Stub.profile Stub.privateKey Stub.sk
           eq_refl eq_refl K L Nh Np Rh Rp).
Defined.

(** * The handle utilities (src/utils/validation.ts) *)

(** ** The matcher *)

Import RegExp.

Lemma run_Lit_ (A : Type) (l s : jsstring) (pos : nat) (cap : option jsstring)
    (k : Cont A) :
  run A (Lit_ l) pos (l ++ s) cap k = k (pos + length l)%nat s cap.
Proof.
  revert pos; induction l as [|c l IH]; intros pos; cbn [Lit_ run app length].
  - now rewrite Nat.add_0_r.
  - rewrite N.eqb_refl, IH. f_equal. lia.
Qed.

Lemma rep_loop_within (A : Type) (P : codeunit -> Prop)
    (step : nat -> jsstring -> option jsstring -> Cont A -> option A)
    (min : nat) (max : option nat) (k : Cont A) :
  (forall pos s cap k' x, step pos s cap k' = Some x ->
     exists a b cap', s = a ++ b /\ Forall P a /\ k' (pos + length a)%nat b cap' = Some x) ->
  forall fuel count pos s cap x,
    rep_loop step min max k fuel count pos s cap = Some x ->
    exists a b cap', s = a ++ b /\ Forall P a /\ k (pos + length a)%nat b cap' = Some x.
Proof.
  intros Hstep.
  assert (Hstop : forall count pos s cap x,
             (if (min <=? count)%nat then k pos s cap else None) = Some x ->
             exists a b cap', s = a ++ b /\ Forall P a
                              /\ k (pos + length a)%nat b cap' = Some x).
  { intros count pos s cap x H. destruct (min <=? count)%nat; [|discriminate].
    exists [], s, cap. cbn. rewrite Nat.add_0_r. auto. }
  induction fuel as [|fuel IH]; intros count pos s cap x H; cbn [rep_loop] in H.
  - eauto.
  - destruct (below count max); [|eauto].
    match type of H with
    | match ?t with _ => _ end = _ => destruct t as [y|] eqn:Et
    end; [|eauto].
    injection H as ->.
    apply Hstep in Et. destruct Et as (a & b & cap' & -> & Ha & Hk).
    destruct (_ =? _)%nat; [discriminate|].
    apply IH in Hk. destruct Hk as (a' & b' & cap'' & -> & Ha' & Hk).
    exists (a ++ a'), b', cap''. rewrite <- app_assoc, length_app, Nat.add_assoc.
    split; [reflexivity|]. split; [now apply Forall_app|assumption].
Qed.

Lemma run_within (A : Type) (P : codeunit -> Prop) (r : regex) :
  within P r ->
  forall pos s cap (k : Cont A) x,
    run A r pos s cap k = Some x ->
    exists a b cap', s = a ++ b /\ Forall P a /\ k (pos + length a)%nat b cap' = Some x.
Proof.
  assert (Hnil : forall pos s cap (k : Cont A) x, k pos s cap = Some x ->
            exists a b cap', s = a ++ b /\ Forall P a
                             /\ k (pos + length a)%nat b cap' = Some x).
  { intros pos s cap k x H. exists [], s, cap. cbn. rewrite Nat.add_0_r. auto. }
  induction r as [|p|a IHa b IHb|a IHa b IHb|r IH min max|r IH|r _| |];
    intros Hw pos s cap k x H; cbn [run within] in *.
  - eauto.
  - destruct s as [|c s]; [discriminate|].
    destruct (p c) eqn:Ep; [|discriminate].
    exists [c], s, cap. cbn. rewrite Nat.add_1_r. auto.
  - destruct Hw as [Hwa Hwb].
    apply (IHa Hwa) in H. destruct H as (a1 & b1 & cap1 & -> & Ha1 & H).
    apply (IHb Hwb) in H. destruct H as (a2 & b2 & cap2 & -> & Ha2 & H).
    exists (a1 ++ a2), b2, cap2. rewrite <- app_assoc, length_app, Nat.add_assoc.
    split; [reflexivity|]. split; [now apply Forall_app|assumption].
  - destruct Hw as [Hwa Hwb].
    destruct (run A a pos s cap k) as [y|] eqn:Ea.
    + injection H as ->. eauto.
    + eauto.
  - eapply rep_loop_within; [|exact H]. intros; eauto.
  - apply (IH Hw) in H. destruct H as (a1 & b1 & cap1 & -> & Ha1 & H). eauto 7.
  - destruct (run unit r pos s cap _); [eauto|discriminate].
  - destruct (pos =? 0)%nat; [eauto|discriminate].
  - destruct s; [eauto|discriminate].
Qed.

Lemma run_anchored (A : Type) (P : codeunit -> Prop) (r : regex) :
  anchored P r ->
  forall pos s cap (k : Cont A) x, run A r pos s cap k = Some x -> Forall P s.
Proof.
  induction r as [|p|a _ b IHb|a IHa b IHb|r IH min max|r IH|r _| |];
    intros Ha pos s cap k x H; cbn [anchored] in Ha; try contradiction.
  - destruct Ha as [Hw Hb]. cbn [run] in H.
    apply (run_within _ P a Hw) in H. destruct H as (a1 & b1 & cap1 & -> & Ha1 & H).
    apply Forall_app. split; [assumption|]. eapply IHb; eassumption.
  - cbn [run] in H. destruct s; [constructor|discriminate].
Qed.

Lemma search_from_Start (r : regex) (s : jsstring) (pos : nat) :
  search_from (Seq Start r) (S pos) s = None.
Proof.
  revert pos; induction s as [|c s IH]; intros pos; cbn [search_from run Nat.eqb].
  - reflexivity.
  - apply IH.
Qed.

Lemma test_anchored (P : codeunit -> Prop) (r : regex) (s : jsstring) :
  anchored P r -> test (Seq Start r) s = true -> Forall P s.
Proof.
  intros Ha H. unfold test, exec in H.
  destruct s as [|c s]; [constructor|].
  cbn [search_from] in H. rewrite search_from_Start in H.
  destruct (run _ (Seq Start r) 0 (c :: s) None _) as [cap|] eqn:E; [|discriminate].
  cbn [run Nat.eqb] in E. eapply run_anchored; eassumption.
Qed.

Lemma run_Chars_cons (A : Type) (p : codeunit -> bool) (pos : nat) (c : codeunit)
    (s : jsstring) (cap : option jsstring) (k : Cont A) :
  run A (Chars p) pos (c :: s) cap k = if p c then k (S pos) s cap else None.
Proof. reflexivity. Qed.

Lemma rep_loop_greedy (A : Type) (p : codeunit -> bool) (min : nat)
    (max : option nat) (k : Cont A) (rest : jsstring) (x : A) :
  match rest with [] => True | c :: _ => p c = false end ->
  forall h fuel count pos cap,
    forallb p h = true ->
    (length h < fuel)%nat ->
    (min <= count + length h)%nat ->
    (forall m, max = Some m -> count + length h <= m)%nat ->
    k (pos + length h)%nat rest cap = Some x ->
    rep_loop (run A (Chars p)) min max k fuel count pos (h ++ rest) cap = Some x.
Proof.
  intros Hrest.
  induction h as [|c h IH]; intros fuel count pos cap Hp Hf Hm Hmax Hk;
    (destruct fuel as [|fuel]; [cbn in Hf; lia|]); cbn [rep_loop app].
  - cbn in Hm, Hk. rewrite Nat.add_0_r in Hm, Hk.
    assert (Hle : (min <=? count)%nat = true) by (apply Nat.leb_le; lia).
    rewrite Hle.
    destruct (below count max); [|assumption].
    destruct rest as [|c rest]; [assumption|].
    now rewrite run_Chars_cons, Hrest.
  - cbn in Hp, Hf, Hm, Hk. apply andb_true_iff in Hp. destruct Hp as [Hc Hp].
    assert (Hb : below count max = true).
    { destruct max as [m|]; [|reflexivity]. cbn [below].
      apply Nat.ltb_lt. specialize (Hmax m eq_refl). cbn in Hmax. lia. }
    rewrite Hb, run_Chars_cons, Hc.
    assert (Hne : (S pos =? pos)%nat = false) by (apply Nat.eqb_neq; lia).
    rewrite Hne.
    rewrite (IH fuel (S count) (S pos) cap); try assumption; try lia.
    + reflexivity.
    + intros m Hm'. specialize (Hmax m Hm'). cbn in Hmax. lia.
    + now rewrite Nat.add_succ_r in Hk.
Qed.

(** What a repetition of one class has consumed when it succeeds. *)
Lemma rep_loop_chars (A : Type) (p : codeunit -> bool) (min : nat)
    (max : option nat) (k : Cont A) :
  forall fuel count pos s cap x,
    rep_loop (run A (Chars p)) min max k fuel count pos s cap = Some x ->
    exists a b,
      s = a ++ b /\ forallb p a = true /\ (min <= count + length a)%nat
      /\ (forall m, max = Some m -> count <= m -> count + length a <= m)%nat
      /\ k (pos + length a)%nat b cap = Some x.
Proof.
  assert (Hstop : forall count pos s cap x,
             (if (min <=? count)%nat then k pos s cap else None) = Some x ->
             exists a b,
               s = a ++ b /\ forallb p a = true /\ (min <= count + length a)%nat
               /\ (forall m, max = Some m -> count <= m -> count + length a <= m)%nat
               /\ k (pos + length a)%nat b cap = Some x).
  { intros count pos s cap x H.
    destruct (min <=? count)%nat eqn:E; [|discriminate]. apply Nat.leb_le in E.
    exists [], s. cbn. rewrite !Nat.add_0_r. repeat split; auto. }
  induction fuel as [|fuel IH]; intros count pos s cap x H; cbn [rep_loop] in H.
  - eauto.
  - destruct (below count max) eqn:Eb; [|eauto].
    destruct s as [|c s].
    + cbn [run] in H. eauto.
    + rewrite run_Chars_cons in H. destruct (p c) eqn:Ec; [|eauto].
      assert (Hne : (S pos =? pos)%nat = false) by (apply Nat.eqb_neq; lia).
      rewrite Hne in H.
      match type of H with
      | match ?t with _ => _ end = _ => destruct t as [y|] eqn:Et
      end; [|eauto].
      injection H as ->.
      apply IH in Et. destruct Et as (a & b & -> & Ha & Hmin & Hmax & Hk).
      exists (c :: a), b. cbn [app forallb length]. rewrite Ec, Ha.
      rewrite !Nat.add_succ_r. cbn [Nat.add] in Hmin, Hmax, Hk.
      split; [reflexivity|]. split; [reflexivity|]. split; [exact Hmin|].
      split; [|exact Hk].
      intros m Hm Hle. destruct max as [m'|]; [|discriminate].
      injection Hm as ->. cbn [below] in Eb. apply Nat.ltb_lt in Eb.
      specialize (Hmax m eq_refl). lia.
Qed.

Lemma firstn_add_sub {T : Type} (n : nat) (h rest : list T) :
  firstn (n + length h - n) (h ++ rest) = h.
Proof.
  replace (n + length h - n)%nat with (length h + 0)%nat by lia.
  rewrite firstn_app_2. cbn. apply app_nil_r.
Qed.

(** The capture group of the URL patterns takes the whole name. *)
Lemma run_name (A : Type) (p : codeunit -> bool) (h rest : jsstring) (pos : nat)
    (cap : option jsstring) (k : Cont A) (x : A) :
  h <> [] ->
  forallb p h = true ->
  match rest with [] => True | c :: _ => p c = false end ->
  k (pos + length h)%nat rest (Some h) = Some x ->
  run A (Capture (Plus (Chars p))) pos (h ++ rest) cap k = Some x.
Proof.
  intros Hne Hp Hrest Hk. unfold Plus. cbn [run].
  apply rep_loop_greedy; try assumption.
  - rewrite length_app. lia.
  - destruct h; [contradiction|cbn; lia].
  - discriminate.
  - now rewrite firstn_add_sub.
Qed.

Lemma rep_loop_zero (A : Type)
    (step : nat -> jsstring -> option jsstring -> Cont A -> option A)
    (max : option nat) (k : Cont A) (fuel pos : nat) (s : jsstring)
    (cap : option jsstring) :
  (forall k', step pos s cap k' = None) ->
  rep_loop step 0 max k fuel 0 pos s cap = k pos s cap.
Proof.
  intros H. destruct fuel; cbn [rep_loop Nat.leb]; [reflexivity|].
  destruct (below 0 max); [|reflexivity]. now rewrite H.
Qed.

Lemma run_Seq (A : Type) (a b : regex) (pos : nat) (s : jsstring)
    (cap : option jsstring) (k : Cont A) :
  run A (Seq a b) pos s cap k
  = run A a pos s cap (fun pos' s' cap' => run A b pos' s' cap' k).
Proof. reflexivity. Qed.

Lemma run_Alt_right (A : Type) (a b : regex) (pos : nat) (s : jsstring)
    (cap : option jsstring) (k : Cont A) :
  run A a pos s cap k = None ->
  run A (Alt a b) pos s cap k = run A b pos s cap k.
Proof. intros H. cbn [run]. now rewrite H. Qed.

Lemma search_from_skip (r : regex) (pos : nat) (c : codeunit) (s : jsstring) :
  run (option jsstring) r pos (c :: s) None (fun _ _ cap => Some cap) = None ->
  search_from r pos (c :: s) = search_from r (S pos) s.
Proof. intros H. cbn [search_from]. now rewrite H. Qed.

Lemma search_from_hit (r : regex) (pos : nat) (s : jsstring) (cap : option jsstring) :
  run (option jsstring) r pos s None (fun _ _ cap => Some cap) = Some cap ->
  search_from r pos s = Some cap.
Proof. intros H. destruct s; cbn [search_from]; now rewrite H. Qed.

(** ** Strings *)

Lemma trimStart_id (s : jsstring) :
  forallb no_space s = true -> trimStart s = s.
Proof.
  destruct s as [|c s]; [reflexivity|]. cbn. unfold no_space at 1.
  intros H. apply andb_true_iff in H. destruct H as [H _].
  apply negb_true_iff in H. now rewrite H.
Qed.

Lemma forallb_rev {T : Type} (f : T -> bool) (l : list T) :
  forallb f (rev l) = forallb f l.
Proof.
  induction l as [|x l IH]; [reflexivity|]. cbn.
  rewrite forallb_app, IH. cbn. rewrite andb_true_r. apply andb_comm.
Qed.

Lemma trim_id (s : jsstring) : forallb no_space s = true -> trim s = s.
Proof.
  intros H. unfold trim. rewrite (trimStart_id s H).
  rewrite trimStart_id by now rewrite forallb_rev. apply rev_involutive.
Qed.

Lemma forallb_weaken {T : Type} (f g : T -> bool) (l : list T) :
  (forall x, f x = true -> g x = true) -> forallb f l = true -> forallb g l = true.
Proof.
  intros Hfg. induction l as [|x l IH]; [reflexivity|]. cbn.
  intros H. apply andb_true_iff in H. destruct H as [Hx Hl].
  now rewrite (Hfg x Hx), IH.
Qed.

Lemma strict_plain (c : codeunit) : strict c = true -> plain c = true.
Proof. unfold strict. intros H. now apply andb_true_iff in H. Qed.

Lemma plain_no_space (c : codeunit) : plain c = true -> no_space c = true.
Proof. unfold plain. intros H. now apply andb_true_iff in H. Qed.

Lemma handle_char_plain (p : validation.SocialPlatform) (c : codeunit) :
  handle_char p c = true -> plain c = true.
Proof. destruct p; cbn [handle_char]; auto using strict_plain. Qed.

Lemma plain_name (c : codeunit) :
  plain c = true -> ncls [chr "/"; chr "?"] c = true.
Proof.
  unfold plain, ncls, cls, chr. cbn [existsb]. intros H.
  apply andb_true_iff in H. destruct H as [_ H].
  apply negb_true_iff in H. apply negb_true_iff.
  repeat (apply orb_false_iff in H; destruct H as [? H]).
  repeat (apply orb_false_iff; split); auto.
Qed.

(** ** The validation patterns *)

Ltac class_bounds :=
  let c := fresh "c" in
  let H := fresh "H" in
  intros c H;
  cbv [validation.alnum cls rng chr existsb app] in H; cbn -[N.eqb N.leb] in H;
  rewrite ?orb_true_iff, ?andb_true_iff, ?N.leb_le, ?N.eqb_eq in H;
  cbv [strict plain no_space white_space cls chr existsb]; cbn -[N.eqb N.leb];
  rewrite ?andb_true_iff, ?negb_true_iff, ?orb_false_iff, ?N.eqb_neq,
    ?andb_false_iff, ?N.leb_gt;
  lia.

Lemma validationPatterns_anchored (p : validation.SocialPlatform) :
  class_only p = true ->
  exists r, validation.validationPatterns p = Seq Start r
            /\ anchored (fun c => handle_char p c = true) r.
Proof.
  intros Hp.
  destruct p; try discriminate Hp;
    cbn [validation.validationPatterns validation.anchored_class seq_of handle_char];
    eexists; (split; [reflexivity|]);
    cbn [anchored within Lit Lit_ js list_ascii_of_string map Plus Opt];
    repeat split; try class_bounds.
Qed.

Lemma validateHandle_test (p : validation.SocialPlatform) (h : jsstring) :
  validation.validateHandle p h = true ->
  test (validation.validationPatterns p) h = true /\ h <> [].
Proof.
  unfold validation.validateHandle. intros H.
  destruct (is_empty h) eqn:Eh; [discriminate|].
  destruct (is_empty (trim h)); [discriminate|].
  split; [exact H|intros ->; discriminate].
Qed.

Lemma validateHandle_chars (p : validation.SocialPlatform) (h : jsstring) :
  class_only p = true ->
  validation.validateHandle p h = true ->
  forallb (handle_char p) h = true /\ h <> [].
Proof.
  intros Hp H. apply validateHandle_test in H. destruct H as [H Hne].
  split; [|exact Hne].
  destruct (validationPatterns_anchored p Hp) as (r & Hr & Ha).
  rewrite Hr in H. apply forallb_forall, Forall_forall.
  eapply test_anchored; eassumption.
Qed.

(** ** The URL patterns *)

Lemma run_Repeat (A : Type) (r : regex) (min : nat) (max : option nat) (pos : nat)
    (s : jsstring) (cap : option jsstring) (k : Cont A) :
  run A (Repeat r min max) pos s cap k
  = rep_loop (run A r) min max k (S (length s)) 0 pos s cap.
Proof. reflexivity. Qed.

Lemma url_tail_spec (rest : jsstring) :
  url_tail rest = true ->
  match rest with [] => True | c :: _ => ncls [chr "/"; chr "?"] c = false end
  /\ forallb no_space rest = true.
Proof.
  destruct rest as [|c rest]; [now split|]. unfold url_tail.
  intros H. apply andb_true_iff in H. destruct H as [Hc Hs].
  split; [|assumption]. unfold ncls. now rewrite Hc.
Qed.

Ltac at_host host :=
  match goal with
  | |- context [validation.getFullURL ?p ?h ++ ?rest] =>
      change (validation.getFullURL p h ++ rest)
        with (104 :: 116 :: 116 :: 112 :: 115 :: 58 :: 47 :: 47
                  :: (js host ++ (h ++ rest)))%N
  end;
  do 8 (rewrite search_from_skip by (vm_compute; reflexivity));
  apply search_from_hit.

Section UrlPatterns.

Variables h rest : jsstring.
Hypothesis Hh : h <> [].
Hypothesis Hplain : forallb plain h = true.
Hypothesis Hrest : url_tail rest = true.

Lemma name_run (pos : nat) (cap : option jsstring) :
  run (option jsstring) (Capture (Plus (Chars (ncls [chr "/"; chr "?"])))) pos
    (h ++ rest) cap (fun _ _ c => Some c) = Some (Some h).
Proof.
  apply run_name; try assumption; try reflexivity.
  - eapply forallb_weaken; [|exact Hplain]. apply plain_name.
  - apply url_tail_spec, Hrest.
Qed.

Ltac literal := unfold Lit; rewrite run_Seq, run_Lit_; cbv beta.

Lemma exec_urlPatterns (p : validation.SocialPlatform) :
  url_platform p = true ->
  option_map (fun pattern => exec pattern (validation.getFullURL p h ++ rest))
    (validation.urlPatterns p) = Some (Some (Some h)).
Proof.
  intros Hp. destruct p; try discriminate Hp;
    cbv [validation.urlPatterns option_map seq_of]; f_equal; unfold exec.
  - at_host "instagram.com/"%string. literal. apply name_run.
  - at_host "x.com/"%string.
    rewrite run_Seq, run_Alt_right by (vm_compute; reflexivity).
    change (js "x.com/" ++ (h ++ rest)) with (js "x.com" ++ (js "/" ++ (h ++ rest))).
    unfold Lit at 1. rewrite run_Lit_. cbv beta. literal. apply name_run.
  - at_host "bsky.app/profile/"%string. literal. apply name_run.
  - at_host "linkedin.com/in/"%string. literal. apply name_run.
  - at_host "tiktok.com/@"%string. literal. apply name_run.
  - at_host "github.com/"%string. literal. apply name_run.
  - at_host "reddit.com/u/"%string.
    change (js "reddit.com/u/" ++ (h ++ rest))
      with (js "reddit.com/u" ++ (js "/" ++ (h ++ rest))).
    literal. unfold Opt. rewrite run_Seq, run_Repeat.
    rewrite rep_loop_zero by (intros; reflexivity).
    literal. apply name_run.
  - at_host "twitch.tv/"%string. literal. apply name_run.
Qed.

End UrlPatterns.

(** ** Handles and links *)

Lemma startsWith_app (s p : jsstring) :
  startsWith s p = true -> exists t, s = p ++ t.
Proof.
  revert s; induction p as [|x p IH]; intros s H; cbn [startsWith] in H.
  - now exists s.
  - destruct s as [|y s]; [discriminate|].
    apply andb_true_iff in H. destruct H as [Hxy H].
    apply N.eqb_eq in Hxy. subst y. apply IH in H. destruct H as [t ->].
    now exists t.
Qed.

Lemma plain_not_url (h : jsstring) :
  forallb plain h = true ->
  startsWith h (js "http://") = false /\ startsWith h (js "https://") = false.
Proof.
  intros H. split.
  - destruct (startsWith h (js "http://")) eqn:E; [|reflexivity].
    apply startsWith_app in E. destruct E as [t ->].
    rewrite forallb_app in H. apply andb_true_iff in H. destruct H as [H _].
    discriminate H.
  - destruct (startsWith h (js "https://")) eqn:E; [|reflexivity].
    apply startsWith_app in E. destruct E as [t ->].
    rewrite forallb_app in H. apply andb_true_iff in H. destruct H as [H _].
    discriminate H.
Qed.

Lemma replaceStart_at (h : jsstring) :
  forallb strict h = true -> replaceStart (js "@") h = h.
Proof.
  destruct h as [|c h]; [reflexivity|]. cbn [forallb]. intros H.
  apply andb_true_iff in H. destruct H as [H _].
  unfold strict in H. apply andb_true_iff in H. destruct H as [_ H].
  apply negb_true_iff in H. unfold chr in H.
  unfold replaceStart. cbn [js list_ascii_of_string map removePrefix].
  rewrite N.eqb_sym. now rewrite H.
Qed.

Lemma removePrefix_app (p s t : jsstring) :
  removePrefix p s = Some t -> s = p ++ t.
Proof.
  revert s; induction p as [|x p IH]; intros s H; cbn [removePrefix] in H.
  - injection H as ->. reflexivity.
  - destruct s as [|y s]; [discriminate|].
    destruct (N.eqb x y) eqn:E; [|discriminate].
    apply N.eqb_eq in E. subst y. cbn [app]. f_equal. now apply IH.
Qed.

Lemma replaceStart_reddit (h : jsstring) :
  forallb plain h = true -> replaceStart (js "u/") h = h.
Proof.
  intros H. unfold replaceStart.
  destruct (removePrefix (js "u/") h) as [t|] eqn:E; [|reflexivity].
  apply removePrefix_app in E. subst h.
  rewrite forallb_app in H. apply andb_true_iff in H. destruct H as [H _].
  discriminate H.
Qed.

Section Links.

Variable toLowerCase : jsstring -> jsstring.

Lemma forallb_url (p : validation.SocialPlatform) (h rest : jsstring) :
  url_platform p = true ->
  forallb no_space h = true ->
  forallb no_space rest = true ->
  forallb no_space (validation.getFullURL p h ++ rest) = true.
Proof.
  intros Hp Hh Hr.
  destruct p; try discriminate Hp; cbn [validation.getFullURL];
    rewrite !forallb_app, Hh, Hr; reflexivity.
Qed.

Lemma normalizeHandle_url (p : validation.SocialPlatform) (h rest : jsstring) :
  url_platform p = true ->
  validation.validateHandle p h = true ->
  url_tail rest = true ->
  validation.normalizeHandle toLowerCase p (validation.getFullURL p h ++ rest)
  = Some h.
Proof.
  intros Hp Hv Hrest.
  assert (Hc : class_only p = true) by (destruct p; try discriminate Hp; reflexivity).
  destruct (validateHandle_chars p h Hc Hv) as [Hchars Hne].
  assert (Hstrict : forallb strict h = true).
  { destruct p; try discriminate Hp; exact Hchars. }
  assert (Hplain : forallb plain h = true).
  { eapply forallb_weaken; [|exact Hstrict]. apply strict_plain. }
  assert (Hspace : forallb no_space h = true).
  { eapply forallb_weaken; [|exact Hplain]. apply plain_no_space. }
  pose proof (exec_urlPatterns h rest Hne Hplain Hrest p Hp) as Hexec.
  pose proof (forallb_url p h rest Hp Hspace (proj2 (url_tail_spec rest Hrest))) as Hurl.
  apply trim_id in Hurl.
  assert (Hempty : is_empty (validation.getFullURL p h ++ rest) = false).
  { destruct p; try discriminate Hp; reflexivity. }
  assert (Hhttp : startsWith (validation.getFullURL p h ++ rest) (js "http://")
                  || startsWith (validation.getFullURL p h ++ rest) (js "https://")
                  = true).
  { destruct p; try discriminate Hp; reflexivity. }
  assert (Hh : is_empty h = false) by (destruct h; [contradiction|reflexivity]).
  unfold validation.normalizeHandle. cbv zeta.
  rewrite Hurl, Hempty, Hhttp. cbn [orb].
  destruct (validation.urlPatterns p) as [pattern|]; [|discriminate Hexec].
  cbn [option_map] in Hexec. injection Hexec as Hexec. rewrite Hexec, Hh.
  destruct p; try discriminate Hp; cbn [validation.uses_at];
    rewrite ?(replaceStart_at h Hstrict), ?(replaceStart_reddit h Hplain);
    reflexivity.
Qed.

Lemma normalizeHandle_valid (p : validation.SocialPlatform) (h : jsstring) :
  class_only p = true ->
  validation.validateHandle p h = true ->
  validation.normalizeHandle toLowerCase p h = Some h.
Proof.
  intros Hc Hv.
  destruct (validateHandle_chars p h Hc Hv) as [Hchars Hne].
  assert (Hplain : forallb plain h = true).
  { eapply forallb_weaken; [|exact Hchars]. apply handle_char_plain. }
  assert (Hspace : forallb no_space h = true).
  { eapply forallb_weaken; [|exact Hplain]. apply plain_no_space. }
  assert (Hh : is_empty h = false) by (destruct h; [contradiction|reflexivity]).
  destruct (plain_not_url h Hplain) as [H1 H2].
  unfold validation.normalizeHandle. cbv zeta.
  rewrite (trim_id h Hspace), Hh, H1, H2. cbn [orb].
  destruct p; try discriminate Hc; cbn [validation.uses_at];
    rewrite ?(replaceStart_at h Hchars), ?(replaceStart_reddit h Hplain);
    reflexivity.
Qed.

Lemma createSocialLink_of (p : validation.SocialPlatform) (input h : jsstring) :
  validation.normalizeHandle toLowerCase p input = Some h ->
  validation.validateHandle p h = true ->
  validation.createSocialLink toLowerCase p input
  = Some {| validation.platform := p; validation.handle := h |}.
Proof.
  intros Hn Hv. unfold validation.createSocialLink. rewrite Hn, Hv.
  unfold validation.validateHandle in Hv.
  destruct (is_empty h); [discriminate|]. reflexivity.
Qed.

(** X20.  The URL that getFullURL builds for a valid handle leads back to
    the handle: for the eight platforms with both a URL template and a URL
    pattern of class-validated handles, normalizeHandle extracts the handle
    from the URL, also when a path or a query follows it, and
    createSocialLink makes the link of the handle from it. *)
Theorem getFullURL_round_trip (p : validation.SocialPlatform) (h rest : jsstring) :
  url_platform p = true ->
  validation.validateHandle p h = true ->
  url_tail rest = true ->
  validation.normalizeHandle toLowerCase p (validation.getFullURL p h ++ rest)
  = Some h
  /\ validation.createSocialLink toLowerCase p (validation.getFullURL p h ++ rest)
     = Some {| validation.platform := p; validation.handle := h |}.
Proof.
  intros Hp Hv Hrest.
  pose proof (normalizeHandle_url p h rest Hp Hv Hrest) as Hn.
  split; [exact Hn|]. now apply createSocialLink_of.
Qed.

(** X21.  A valid handle is kept as it is: for the seventeen platforms whose
    validation pattern is made of character classes, normalizeHandle returns
    a valid handle unchanged and createSocialLink makes the link of it. *)
Theorem createSocialLink_valid_handle (p : validation.SocialPlatform) (h : jsstring) :
  class_only p = true ->
  validation.validateHandle p h = true ->
  validation.normalizeHandle toLowerCase p h = Some h
  /\ validation.createSocialLink toLowerCase p h
     = Some {| validation.platform := p; validation.handle := h |}.
Proof.
  intros Hc Hv.
  pose proof (normalizeHandle_valid p h Hc Hv) as Hn.
  split; [exact Hn|]. now apply createSocialLink_of.
Qed.

(** X22.  One leading [@] is dropped: on the four platforms that use it
    (Instagram, X, TikTok, Telegram) a valid handle written with a leading
    [@] gives the link of the handle without it. *)
Theorem createSocialLink_strips_at (p : validation.SocialPlatform) (h : jsstring) :
  validation.uses_at p = true ->
  validation.validateHandle p h = true ->
  validation.createSocialLink toLowerCase p (js "@" ++ h)
  = Some {| validation.platform := p; validation.handle := h |}.
Proof.
  intros Hp Hv.
  assert (Hc : class_only p = true) by (destruct p; try discriminate Hp; reflexivity).
  destruct (validateHandle_chars p h Hc Hv) as [Hchars Hne].
  assert (Hspace : forallb no_space (js "@" ++ h) = true).
  { change (js "@" ++ h) with (64%N :: h). cbn [forallb].
    apply andb_true_iff. split; [reflexivity|].
    eapply forallb_weaken; [|exact Hchars].
    intros c Hcc. apply plain_no_space, (handle_char_plain p), Hcc. }
  apply createSocialLink_of; [|exact Hv].
  unfold validation.normalizeHandle. cbv zeta. rewrite (trim_id _ Hspace).
  destruct p; try discriminate Hp; reflexivity.
Qed.

(** X23.  createSocialLink returns only validated links, and it is
    idempotent on the class-validated platforms: the link it returns has the
    platform asked for and a handle that validateHandle accepts, which is what
    normalizeHandle made of the input; and giving the handle of that link
    back to createSocialLink returns the same link. *)
Theorem createSocialLink_sound (p : validation.SocialPlatform) (input : jsstring)
    (link : validation.SocialLink) :
  validation.createSocialLink toLowerCase p input = Some link ->
  validation.platform link = p
  /\ validation.normalizeHandle toLowerCase p input = Some (validation.handle link)
  /\ validation.validateHandle p (validation.handle link) = true
  /\ trim input <> []
  /\ (class_only p = true ->
      validation.createSocialLink toLowerCase p (validation.handle link) = Some link).
Proof.
  unfold validation.createSocialLink at 1. intros H.
  destruct (validation.normalizeHandle toLowerCase p input) as [n|] eqn:En;
    [|discriminate].
  destruct (is_empty n); [discriminate|]. cbn [orb] in H.
  destruct (validation.validateHandle p n) eqn:Ev; [|discriminate].
  injection H as <-. cbn [validation.platform validation.handle].
  repeat split; try reflexivity; try assumption.
  - intros Ht. unfold validation.normalizeHandle in En. rewrite Ht in En.
    cbn [is_empty] in En. rewrite orb_true_r in En. discriminate.
  - intros Hc. apply createSocialLink_of; [|exact Ev].
    now apply normalizeHandle_valid.
Qed.

(** X24.  A website always gets a protocol: whatever normalizeHandle returns
    for WEBSITE starts with http:// or https://, and it is the trimmed input,
    with https:// put before it when the input has neither. *)
Theorem normalizeHandle_website (input n : jsstring) :
  validation.normalizeHandle toLowerCase validation.WEBSITE input = Some n ->
  startsWith n (js "http://") || startsWith n (js "https://") = true
  /\ n = (if startsWith (trim input) (js "http://")
             || startsWith (trim input) (js "https://")
          then trim input else js "https://" ++ trim input).
Proof.
  unfold validation.normalizeHandle. cbv zeta.
  destruct (is_empty input || is_empty (trim input)); [discriminate|].
  cbn [validation.urlPatterns validation.uses_at].
  destruct (startsWith (trim input) (js "http://")) eqn:E1;
    destruct (startsWith (trim input) (js "https://")) eqn:E2;
    cbn [orb negb andb]; rewrite ?E1, ?E2; cbn [orb negb andb];
    intros H; injection H as <-; rewrite ?E1, ?E2; split; reflexivity.
Qed.

(** X25.  Blank input is refused everywhere: an input that is empty or only
    white space has no normal form, is not a valid handle, and makes no
    link, on every platform. *)
Theorem blank_input_refused (p : validation.SocialPlatform) (input : jsstring) :
  trim input = [] ->
  validation.normalizeHandle toLowerCase p input = None
  /\ validation.validateHandle p input = false
  /\ validation.createSocialLink toLowerCase p input = None.
Proof.
  intros Ht.
  assert (Hn : validation.normalizeHandle toLowerCase p input = None).
  { unfold validation.normalizeHandle. rewrite Ht. cbn [is_empty].
    now rewrite orb_true_r. }
  repeat split.
  - exact Hn.
  - unfold validation.validateHandle. rewrite Ht. cbn [is_empty].
    now rewrite orb_true_r.
  - unfold validation.createSocialLink. now rewrite Hn.
Qed.

End Links.

(** ** The class patterns, read as conditions *)

Lemma test_Start (r : regex) (s : jsstring) :
  test (Seq Start r) s
  = match run (option jsstring) r 0 s None (fun _ _ cap => Some cap) with
    | Some _ => true
    | None => false
    end.
Proof.
  unfold test, exec. destruct s as [|c s]; cbn [search_from].
  - cbn [run Nat.eqb]. now destruct (run _ r 0 [] None _).
  - rewrite search_from_Start. cbn [run Nat.eqb].
    now destruct (run _ r 0 (c :: s) None _).
Qed.

Lemma test_anchored_class (items : list (codeunit -> bool)) (min max : nat)
    (h : jsstring) :
  test (validation.anchored_class items min max) h
  = (min <=? length h)%nat && (length h <=? max)%nat && forallb (cls items) h.
Proof.
  unfold validation.anchored_class. cbn [seq_of]. rewrite test_Start.
  rewrite run_Seq, run_Repeat.
  match goal with
  | |- match ?t with _ => _ end = _ => destruct t as [y|] eqn:E
  end.
  - apply rep_loop_chars in E. destruct E as (a & b & -> & Ha & Hmin & Hmax & Hk).
    destruct b; [|discriminate Hk]. rewrite app_nil_r, Ha.
    specialize (Hmax max eq_refl (Nat.le_0_l _)). cbn in Hmin, Hmax.
    symmetry. rewrite !andb_true_iff, !Nat.leb_le. auto.
  - symmetry. apply not_true_is_false. intros H.
    rewrite !andb_true_iff, !Nat.leb_le in H. destruct H as [[Hmin Hmax] Hall].
    rewrite <- (app_nil_r h) in E at 2.
    erewrite rep_loop_greedy in E; try discriminate E; try eassumption;
      try exact I; try reflexivity; try (cbn; lia).
    intros m Hm. injection Hm as <-. cbn; lia.
Qed.

(** X26.  What the class patterns check: for a platform validated by
    [/^[class]{min,max}$/] (fourteen of them), with min at least 1,
    validateHandle accepts a handle exactly when its length is between min
    and max and each of its characters is in the class. *)
Theorem validateHandle_class (p : validation.SocialPlatform)
    (items : list (codeunit -> bool)) (min max : nat) (h : jsstring) :
  class_only p = true ->
  validation.validationPatterns p = validation.anchored_class items min max ->
  (1 <= min)%nat ->
  validation.validateHandle p h
  = (min <=? length h)%nat && (length h <=? max)%nat && forallb (cls items) h.
Proof.
  intros Hc Hpat Hmin. unfold validation.validateHandle.
  rewrite Hpat, test_anchored_class.
  destruct h as [|c h].
  - cbn [is_empty orb length]. symmetry.
    assert (Hz : (min <=? 0)%nat = false) by (apply Nat.leb_gt; lia).
    now rewrite Hz.
  - cbn [is_empty orb].
    destruct (forallb (cls items) (c :: h)) eqn:Hall;
      [|rewrite andb_false_r; now destruct (is_empty (trim (c :: h)))].
    destruct (validationPatterns_anchored p Hc) as (r & Hr & Ha).
    rewrite Hpat in Hr. unfold validation.anchored_class in Hr. cbn [seq_of] in Hr.
    injection Hr as <-. cbn [anchored within] in Ha. destruct Ha as [Hw _].
    rewrite trim_id; [reflexivity|].
    eapply forallb_weaken; [|exact Hall].
    intros d Hd. apply plain_no_space, (handle_char_plain p), Hw, Hd.
Qed.

Lemma getFullURL_round_trip_witness :
  url_platform validation.X = true
  /\ validation.validateHandle validation.X (js "jack") = true
  /\ url_tail (js "/status/20") = true
  /\ validation.normalizeHandle StubText.toLowerCase validation.X
       (validation.getFullURL validation.X (js "jack") ++ js "/status/20")
     = Some (js "jack")
  /\ validation.createSocialLink StubText.toLowerCase validation.X
       (validation.getFullURL validation.X (js "jack") ++ js "/status/20")
     = Some {| validation.platform := validation.X; validation.handle := js "jack" |}.
Proof.
  assert (V : validation.validateHandle validation.X (js "jack") = true)
    by (vm_compute; reflexivity).
  split; [reflexivity |]. split; [exact V |]. split; [reflexivity |].
  exact (getFullURL_round_trip StubText.toLowerCase validation.X (js "jack")
           (js "/status/20") eq_refl V eq_refl).
Defined.

Lemma createSocialLink_valid_handle_witness :
  class_only validation.GITHUB = true
  /\ validation.validateHandle validation.GITHUB (js "octo-cat") = true
  /\ validation.normalizeHandle StubText.toLowerCase validation.GITHUB (js "octo-cat")
     = Some (js "octo-cat")
  /\ validation.createSocialLink StubText.toLowerCase validation.GITHUB (js "octo-cat")
     = Some {| validation.platform := validation.GITHUB;
               validation.handle := js "octo-cat" |}.
Proof.
  assert (V : validation.validateHandle validation.GITHUB (js "octo-cat") = true)
    by (vm_compute; reflexivity).
  split; [reflexivity |]. split; [exact V |].
  exact (createSocialLink_valid_handle StubText.toLowerCase validation.GITHUB
           (js "octo-cat") eq_refl V).
Defined.

Lemma createSocialLink_strips_at_witness :
  validation.uses_at validation.TELEGRAM = true
  /\ validation.validateHandle validation.TELEGRAM (js "durov") = true
  /\ validation.createSocialLink StubText.toLowerCase validation.TELEGRAM
       (js "@" ++ js "durov")
     = Some {| validation.platform := validation.TELEGRAM;
               validation.handle := js "durov" |}.
Proof.
  assert (V : validation.validateHandle validation.TELEGRAM (js "durov") = true)
    by (vm_compute; reflexivity).
  split; [reflexivity |]. split; [exact V |].
  exact (createSocialLink_strips_at StubText.toLowerCase validation.TELEGRAM
           (js "durov") eq_refl V).
Defined.

Lemma createSocialLink_sound_witness :
  validation.createSocialLink StubText.toLowerCase validation.REDDIT (js "  u/spez ")
  = Some {| validation.platform := validation.REDDIT; validation.handle := js "spez" |}
  /\ validation.normalizeHandle StubText.toLowerCase validation.REDDIT (js "  u/spez ")
     = Some (js "spez")
  /\ validation.validateHandle validation.REDDIT (js "spez") = true
  /\ trim (js "  u/spez ") <> []
  /\ validation.createSocialLink StubText.toLowerCase validation.REDDIT (js "spez")
     = Some {| validation.platform := validation.REDDIT;
               validation.handle := js "spez" |}.
Proof.
  assert (L : validation.createSocialLink StubText.toLowerCase validation.REDDIT
                (js "  u/spez ")
              = Some {| validation.platform := validation.REDDIT;
                        validation.handle := js "spez" |})
    by (vm_compute; reflexivity).
  destruct (createSocialLink_sound StubText.toLowerCase validation.REDDIT
              (js "  u/spez ") _ L) as (_ & Hn & Hv & Ht & Hi).
  split; [exact L |]. split; [exact Hn |]. split; [exact Hv |].
  split; [exact Ht |]. exact (Hi eq_refl).
Defined.

Lemma normalizeHandle_website_witness :
  validation.normalizeHandle StubText.toLowerCase validation.WEBSITE
    (js " example.com ") = Some (js "https://example.com")
  /\ startsWith (js "https://example.com") (js "http://")
     || startsWith (js "https://example.com") (js "https://") = true.
Proof.
  assert (N : validation.normalizeHandle StubText.toLowerCase validation.WEBSITE
                (js " example.com ") = Some (js "https://example.com"))
    by (vm_compute; reflexivity).
  split; [exact N |].
  exact (proj1 (normalizeHandle_website StubText.toLowerCase (js " example.com ")
                  (js "https://example.com") N)).
Defined.

Lemma blank_input_refused_witness :
  trim (js "   ") = []
  /\ validation.normalizeHandle StubText.toLowerCase validation.EMAIL (js "   ") = None
  /\ validation.validateHandle validation.EMAIL (js "   ") = false
  /\ validation.createSocialLink StubText.toLowerCase validation.EMAIL (js "   ") = None.
Proof.
  split; [reflexivity |].
  exact (blank_input_refused StubText.toLowerCase validation.EMAIL (js "   ") eq_refl).
Defined.

Lemma validateHandle_class_witness :
  class_only validation.INSTAGRAM = true
  /\ validation.validationPatterns validation.INSTAGRAM
     = validation.anchored_class
         (validation.alnum ++ [RegExp.chr "."; RegExp.chr "_"]) 1 30
  /\ (1 <= 1)%nat
  /\ validation.validateHandle validation.INSTAGRAM (js "a.b_c")
     = (1 <=? length (js "a.b_c"))%nat && (length (js "a.b_c") <=? 30)%nat
       && forallb (RegExp.cls (validation.alnum ++ [RegExp.chr "."; RegExp.chr "_"]))
            (js "a.b_c").
Proof.
  split; [reflexivity |]. split; [reflexivity |]. split; [apply le_n |].
  exact (validateHandle_class validation.INSTAGRAM
           (validation.alnum ++ [RegExp.chr "."; RegExp.chr "_"]) 1 30 (js "a.b_c")
           eq_refl eq_refl (le_n 1)).
Defined.
